(** * Hand-detection overlay and timed webcam recorder

    A shallow embedding of the two scheduling loops of the ASL assessor
    front end:

    - [HandDetectionOverlay]: the [loop] closure of
      [startDetectionLoop] (rate limit, in-flight guard, remapping of the
      landmarks to canvas coordinates);
    - [WebcamField]: the countdown effect, [startRecording], the sampling
      interval it installs and [handleCancel].

    JavaScript numbers are modelled by exact rationals ([Q]): the clocks
    [performance.now()] and [Date.now()], the intervals [1000 / targetFps]
    and the progress percentage.  The rounding of IEEE doubles is modelled
    in the one place where it decides a time in whole milliseconds, the
    tolerance test of the recorder ([double], [inBandDouble], [inBand]);
    elsewhere it moves a result by its last bit only and is left out.
    Timers, promises and React state are explicit fields of the state
    records; every callback of the source is one transition. *)

From Stdlib Require Import String QArith Qabs Qminmax Qround Qpower ZArith Bool Lia
  Lqa List.
Import ListNotations.

Open Scope Q_scope.

(** ** Comparisons of JavaScript numbers *)

(** [x < y] as a boolean test. *)
Definition Qltb (x y : Q) : bool := negb (Qle_bool y x).

(** [x >= y] as a boolean test. *)
Definition Qgeb (x y : Q) : bool := Qle_bool y x.

(** ** Doubles *)

(** The whole number nearest to a rational that is not negative; a tie
    goes to the even one. *)
Definition roundHalfEven (x : Q) : Z :=
  let f := Qfloor x in
  let r := x - inject_Z f in
  if Qltb r (1 # 2) then f
  else if Qltb (1 # 2) r then (f + 1)%Z
  else if Z.even f then f else (f + 1)%Z.

(** The binary exponent of a positive rational [x]: the [e] with
    [2 ^ e <= x < 2 ^ (e + 1)]. *)
Definition exponent (x : Q) : Z :=
  let k := (Z.log2 (Qnum x) - Z.log2 (Zpos (Qden x)))%Z in
  if Qle_bool (2 ^ k) x then k else (k - 1)%Z.

(** The value a JavaScript number takes for the real [x]: the nearest
    number with a significand of 53 bits, a tie going to the even
    significand.  The numbers of the recorder are far from the subnormal
    range and from overflow, which are left out. *)
Definition double (x : Q) : Q :=
  if Qeq_bool x 0 then 0
  else
    let ulp := 2 ^ (exponent (Qabs x) - 52) in
    let m := inject_Z (roundHalfEven (Qabs x / ulp)) * ulp in
    Qred (if Qltb x 0 then - m else m).

(** ** The detection loop of the overlay component *)

Module HandDetectionOverlay.

(** [const targetFps = 10; const minInterval = 1000 / targetFps;] *)
Definition targetFps : Q := 10.
Definition minInterval : Q := 1000 / targetFps.

(** A landmark [[x, y, z]] as the detector returns it, relative to the
    offscreen canvas. *)
Definition Point : Type := Q * Q * Q.

Record Prediction := { landmarks : list Point }.

(** The object literal [{ x, y, z }] built for every landmark. *)
Record Keypoint := { kx : Q; ky : Q; kz : Q }.

(** Sizes of the visible canvas and of the offscreen canvas handed to
    the detector. *)
Record Size := { width : Q; height : Q }.

(** [(pt) => ({ x: pt[0] * (canvas.width / off.width),
                y: pt[1] * (canvas.height / off.height), z: pt[2] })] *)
Definition remap (canvas off : Size) (pt : Point) : Keypoint :=
  let '(p0, p1, p2) := pt in
  {| kx := p0 * (width canvas / width off);
     ky := p1 * (height canvas / height off);
     kz := p2 |}.

(** [pred.landmarks.map(...)] *)
Definition keypoints (canvas off : Size) (pred : Prediction) : list Keypoint :=
  map (remap canvas off) (landmarks pred).

(** What a tick does to the outside world, in program order. *)
Inductive Effect :=
| RequestAnimationFrame            (* rafRef.current = requestAnimationFrame(loop) *)
| EstimateHands                    (* detectorRef.current.estimateHands(off) *)
| ClearRect                        (* ctx.clearRect(0, 0, canvas.width, canvas.height) *)
| DrawHand (kps : list Keypoint)   (* dots, box and label of one prediction *)
| ConsoleError.                    (* console.error(..., err) *)

(** The refs shared by every run of [loop], and the number of
    [estimateHands] promises that have not settled yet. *)
Record Refs := {
  isEstimatingRef : bool;
  lastEstimateRef : Q;
  pending : nat
}.

Definition initial : Refs :=
  {| isEstimatingRef := false; lastEstimateRef := 0; pending := 0 |}.

(** How the awaited promise settles. *)
Inductive Outcome :=
| Resolved (predictions : list Prediction)
| Rejected.

(** [loop], from its entry to the [await] (or to its end when the tick
    does not estimate).  [readyState] is [video.readyState] and [now] is
    what [performance.now()] returns.  The canvas calls are taken not to
    throw; the promise of [estimateHands] may be rejected. *)
Definition loop (readyState : Z) (now : Q) (r : Refs) : Refs * list Effect :=
  if (readyState =? 4)%Z then
    if Qltb (now - lastEstimateRef r) minInterval then
      (r, [RequestAnimationFrame])
    else if isEstimatingRef r then
      (r, [RequestAnimationFrame])
    else
      ({| isEstimatingRef := true;
          lastEstimateRef := now;
          pending := S (pending r) |},
       [EstimateHands])
  else (r, [RequestAnimationFrame]).

(** The rest of [loop], run when the awaited promise settles: the
    [finally] block, then either the drawing code or the [catch] block,
    then the rescheduling on the last line. *)
Definition resume (canvas off : Size) (o : Outcome) (r : Refs)
  : Refs * list Effect :=
  let r1 := {| isEstimatingRef := false;
               lastEstimateRef := lastEstimateRef r;
               pending := Nat.pred (pending r) |} in
  match o with
  | Resolved predictions =>
      (r1, ClearRect
             :: map (fun pred => DrawHand (keypoints canvas off pred)) predictions
             ++ [RequestAnimationFrame])
  | Rejected =>
      (r1, [ConsoleError; RequestAnimationFrame])
  end.

(** The scheduler's view: animation frames run [loop], and a pending
    promise may settle between any two of them.  Several runs of
    [startDetectionLoop] share the refs, so a tick may arrive while a
    promise is pending. *)
Inductive Event :=
| Tick (readyState : Z) (now : Q)
| Settle (canvas off : Size) (o : Outcome).

Definition step (r : Refs) (e : Event) : option (Refs * list Effect) :=
  match e with
  | Tick readyState now => Some (loop readyState now r)
  | Settle canvas off o =>
      match pending r with
      | O => None
      | S _ => Some (resume canvas off o r)
      end
  end.

(** Runs a schedule; [None] when it settles a promise that does not
    exist.  The effects of all steps are concatenated. *)
Fixpoint run (r : Refs) (es : list Event) : option (Refs * list Effect) :=
  match es with
  | [] => Some (r, [])
  | e :: es' =>
      match step r e with
      | None => None
      | Some (r1, out1) =>
          match run r1 es' with
          | None => None
          | Some (r2, out2) => Some (r2, out1 ++ out2)
          end
      end
  end.

(** The flag and the number of pending promises agree. *)
Definition exclusive (r : Refs) : Prop :=
  pending r = if isEstimatingRef r then 1%nat else 0%nat.

(** *** Sizes of the two canvases *)

(** [resizeCanvas]: [canvas.width = video.videoWidth || 640] and
    [canvas.height = video.videoHeight || 480].  The dimensions of a
    video element are unsigned integers, 0 while there is no frame. *)
Definition resizeCanvas (videoWidth videoHeight : N) : Size :=
  {| width := if (videoWidth =? 0)%N then 640 else inject_Z (Z.of_N videoWidth);
     height := if (videoHeight =? 0)%N then 480 else inject_Z (Z.of_N videoHeight) |}.

(** [const targetW = 320;] *)
Definition targetW : Q := 320.

(** [Math.round]: the nearest integer, halves upwards. *)
Definition round (x : Q) : Z := Qfloor (x + (1 # 2)).

(** A quotient of video dimensions that is truthy: a positive number, or
    [Infinity] when a positive width is divided by the height 0. *)
Inductive Aspect :=
| Finite (a : Q)
| Infinite.

(** [video.videoWidth / video.videoHeight || 4/3]: with the width 0 the
    quotient is 0 or [NaN], both falsy, and 4/3 is taken. *)
Definition aspect (videoWidth videoHeight : N) : Aspect :=
  if (videoWidth =? 0)%N then Finite (4 / 3)
  else if (videoHeight =? 0)%N then Infinite
  else Finite (inject_Z (Z.of_N videoWidth) / inject_Z (Z.of_N videoHeight)).

(** [Math.round(targetW / aspect)]; [targetW / Infinity] is 0. *)
Definition targetH (videoWidth videoHeight : N) : Z :=
  match aspect videoWidth videoHeight with
  | Finite a => round (targetW / a)
  | Infinite => 0%Z
  end.

(** The offscreen canvas after [off.width = targetW; off.height = targetH]. *)
Definition offscreen (videoWidth videoHeight : N) : Size :=
  {| width := targetW; height := inject_Z (targetH videoWidth videoHeight) |}.

(** *** The box around a hand *)

(** [Math.min(x, ...xs)] and [Math.max(x, ...xs)]. *)
Definition minimum (x : Q) (xs : list Q) : Q := fold_left Qmin xs x.
Definition maximum (x : Q) (xs : list Q) : Q := fold_left Qmax xs x.

(** [const padding = 10;] *)
Definition padding : Q := 10.

(** The arguments of [ctx.strokeRect]. *)
Record Rect := { boxLeft : Q; boxTop : Q; boxWidth : Q; boxHeight : Q }.

(** [strokeRect(minX - padding, minY - padding,
                (maxX - minX) + padding * 2, (maxY - minY) + padding * 2)].
    Without keypoints [Math.min()] is [Infinity] and there is no
    rectangle of numbers. *)
Definition boundingBox (kps : list Keypoint) : option Rect :=
  match kps with
  | [] => None
  | k :: ks =>
      let minX := minimum (kx k) (map kx ks) in
      let minY := minimum (ky k) (map ky ks) in
      let maxX := maximum (kx k) (map kx ks) in
      let maxY := maximum (ky k) (map ky ks) in
      Some {| boxLeft := minX - padding;
              boxTop := minY - padding;
              boxWidth := (maxX - minX) + padding * 2;
              boxHeight := (maxY - minY) + padding * 2 |}
  end.

(** [fillText('Hand', Math.max(0, minX), Math.max(16, minY - 8))] *)
Definition labelAt (kps : list Keypoint) : option (Q * Q) :=
  match kps with
  | [] => None
  | k :: ks =>
      Some (Qmax 0 (minimum (kx k) (map kx ks)),
            Qmax 16 (minimum (ky k) (map ky ks) - 8))
  end.

(** *** Estimates of a schedule *)

Definition isEstimate (e : Effect) : bool :=
  match e with
  | EstimateHands => true
  | _ => false
  end.

Definition isRequest (e : Effect) : bool :=
  match e with
  | RequestAnimationFrame => true
  | _ => false
  end.

(** The times of the ticks of a schedule that call the estimator. *)
Fixpoint estimateTimes (r : Refs) (es : list Event) : list Q :=
  match es with
  | [] => []
  | e :: es' =>
      match step r e with
      | None => []
      | Some (r1, out) =>
          match e with
          | Tick _ now =>
              if existsb isEstimate out
              then now :: estimateTimes r1 es'
              else estimateTimes r1 es'
          | Settle _ _ _ => estimateTimes r1 es'
          end
      end
  end.

(** Every time of the list is at least [d] after the one before it, the
    first one at least [d] after [prev]. *)
Fixpoint apart (d prev : Q) (ts : list Q) : Prop :=
  match ts with
  | [] => True
  | t :: ts' => prev + d <= t /\ apart d t ts'
  end.

Definition isTick (e : Event) : bool :=
  match e with
  | Tick _ _ => true
  | Settle _ _ _ => false
  end.

(** *** The component around the loop *)

(** The refs of the component, the animation frames it has requested
    that have neither run nor been cancelled, and the listeners it has
    put on the video. *)
Record Overlay := {
  refs : Refs;
  detectorRef : bool;            (* detectorRef.current is a model *)
  rafRef : option positive;
  requested : list positive;
  nextRequest : positive;
  listeners : nat;               (* loadedmetadata listeners on the video *)
  unmounted : bool
}.

Definition mounted : Overlay :=
  {| refs := initial; detectorRef := false; rafRef := None; requested := [];
     nextRequest := 1%positive; listeners := 0; unmounted := false |}.

Definition withRefs (r : Refs) (o : Overlay) : Overlay :=
  {| refs := r; detectorRef := detectorRef o; rafRef := rafRef o;
     requested := requested o; nextRequest := nextRequest o;
     listeners := listeners o; unmounted := unmounted o |}.

(** [rafRef.current = requestAnimationFrame(loop)] *)
Definition requestAnimationFrame (o : Overlay) : Overlay :=
  {| refs := refs o; detectorRef := detectorRef o;
     rafRef := Some (nextRequest o);
     requested := requested o ++ [nextRequest o];
     nextRequest := Pos.succ (nextRequest o);
     listeners := listeners o; unmounted := unmounted o |}.

(** [cancelAnimationFrame(h)] *)
Definition cancelAnimationFrame (h : positive) (o : Overlay) : Overlay :=
  {| refs := refs o; detectorRef := detectorRef o; rafRef := rafRef o;
     requested := filter (fun k => negb (k =? h)%positive) (requested o);
     nextRequest := nextRequest o;
     listeners := listeners o; unmounted := unmounted o |}.

(** What an effect of the loop does to the component: only the request
    of a frame touches it. *)
Definition perform (o : Overlay) (e : Effect) : Overlay :=
  match e with
  | RequestAnimationFrame => requestAnimationFrame o
  | _ => o
  end.

(** A call of [loop], up to its [await] or its end. *)
Definition enter (readyState : Z) (now : Q) (o : Overlay) : Overlay :=
  fold_left perform (snd (loop readyState now (refs o)))
            (withRefs (fst (loop readyState now (refs o))) o).

(** [startDetectionLoop].  [video] is the ready state of
    [webcamRef.current.video] when there is one, [canvas] tells whether
    [canvasRef.current] is set.  Past the guard a listener is added to
    the video and [loop()] is called. *)
Definition startDetectionLoop (video : option Z) (canvas : bool) (now : Q)
    (o : Overlay) : Overlay :=
  match video with
  | Some readyState =>
      if canvas && detectorRef o then
        enter readyState now
              {| refs := refs o; detectorRef := detectorRef o; rafRef := rafRef o;
                 requested := requested o; nextRequest := nextRequest o;
                 listeners := S (listeners o); unmounted := unmounted o |}
      else o
  | None => o
  end.

(** [tryStart], called when the second effect runs and then every
    500 ms. *)
Definition tryStart (video : option Z) (canvas : bool) (now : Q) (o : Overlay)
  : Overlay :=
  match video with
  | Some _ => if detectorRef o then startDetectionLoop video canvas now o else o
  | None => o
  end.

(** The end of [init] when the model has loaded:
    [detectorRef.current = await handpose.load(); startDetectionLoop()]. *)
Definition loaded (video : option Z) (canvas : bool) (now : Q) (o : Overlay)
  : Overlay :=
  startDetectionLoop video canvas now
    {| refs := refs o; detectorRef := true; rafRef := rafRef o;
       requested := requested o; nextRequest := nextRequest o;
       listeners := listeners o; unmounted := unmounted o |}.

(** The cleanups of the two effects: the frame in [rafRef] is
    cancelled (and the model disposed, the interval of [tryStart]
    cleared). *)
Definition unmount (o : Overlay) : Overlay :=
  let o1 := match rafRef o with
            | Some h => cancelAnimationFrame h o
            | None => o
            end in
  {| refs := refs o1; detectorRef := detectorRef o1; rafRef := rafRef o1;
     requested := requested o1; nextRequest := nextRequest o1;
     listeners := listeners o1; unmounted := true |}.

Inductive PageEvent :=
| Loaded (video : option Z) (canvas : bool) (now : Q)
| TryStart (video : option Z) (canvas : bool) (now : Q)
| AnimationFrame (h : positive) (readyState : Z) (now : Q)
| Settled (canvas off : Size) (o : Outcome)
| Unmount.

(** [None] when the event cannot happen: a frame that is not requested,
    a promise that is not pending, the interval after the unmount. *)
Definition pageStep (o : Overlay) (e : PageEvent) : option Overlay :=
  match e with
  | Loaded video canvas now => Some (loaded video canvas now o)
  | TryStart video canvas now =>
      if unmounted o then None else Some (tryStart video canvas now o)
  | AnimationFrame h readyState now =>
      if existsb (fun k => (k =? h)%positive) (requested o)
      then Some (enter readyState now (cancelAnimationFrame h o))
      else None
  | Settled canvas off oc =>
      match pending (refs o) with
      | O => None
      | S _ =>
          Some (fold_left perform (snd (resume canvas off oc (refs o)))
                          (withRefs (fst (resume canvas off oc (refs o))) o))
      end
  | Unmount => if unmounted o then None else Some (unmount o)
  end.

Fixpoint pageRun (o : Overlay) (es : list PageEvent) : option Overlay :=
  match es with
  | [] => Some o
  | e :: es' =>
      match pageStep o e with
      | Some o1 => pageRun o1 es'
      | None => None
      end
  end.

(** The runs of [loop] that are alive: waiting for a frame or for the
    detector. *)
Definition loops (o : Overlay) : nat :=
  (length (requested o) + pending (refs o))%nat.

(** The events that call [loop()] afresh once the model is loaded. *)
Definition startsLoop (e : PageEvent) : bool :=
  match e with
  | Loaded (Some _) true _ => true
  | TryStart (Some _) true _ => true
  | _ => false
  end.

Definition isUnmount (e : PageEvent) : bool :=
  match e with
  | Unmount => true
  | _ => false
  end.

(** The handles in [requested] are distinct and were handed out. *)
Definition requestsFresh (o : Overlay) : Prop :=
  NoDup (requested o) /\ Forall (fun k => (k < nextRequest o)%positive) (requested o).

End HandDetectionOverlay.


(** ** The recorder of the webcam component *)

Module WebcamField.

Definition RECORDING_DURATION : Q := 3000.
Definition FRAMES_PER_SECOND : Q := 15.
Definition STABILIZATION_DELAY : Q := 500.

(** [const frameInterval = 1000 / FRAMES_PER_SECOND;] *)
Definition frameInterval : Q := 1000 / FRAMES_PER_SECOND.

(** The delay given to [setInterval]: [Math.floor(frameInterval * 0.8)]. *)
Definition tickPeriod : Z := Qfloor (frameInterval * 0.8).

(** A screenshot is a data URL; [capture()] returns one or [null]. *)
Definition Frame : Type := string.

(** [if (frame)]: [null] and the empty string are falsy. *)
Definition truthy (shot : option Frame) : bool :=
  match shot with
  | Some EmptyString => false
  | Some _ => true
  | None => false
  end.

(** The variables of the stabilization callback that its interval
    callback closes over. *)
Record Closure := {
  frames : list Frame;
  startTime : Q;
  lastFrameTime : Q
}.

(** The state of the closure when the stabilization callback has run:
    [frames = []], [startTime = Date.now()], [lastFrameTime = startTime]. *)
Definition fresh (now : Q) : Closure :=
  {| frames := []; startTime := now; lastFrameTime := now |}.

(** [frameInterval] as the program holds it: [1000 / 15] is not a double
    and is rounded up, to 200/3 + 2^-46/3 (66.66666666666667). *)
Definition frameIntervalDouble : Q :=
  Eval vm_compute in double (1000 / FRAMES_PER_SECOND).

(** [frameInterval * 0.2] as the program computes it: 40/3 + 2^-47/3
    (13.333333333333336). *)
Definition toleranceDouble : Q :=
  Eval vm_compute in double (frameIntervalDouble * double 0.2).

(** [Math.abs(timeSinceLastFrame - frameInterval) < frameInterval * 0.2]
    on a [timeSinceLastFrame] that is a double: the difference is
    rounded, the comparison is exact. *)
Definition inBandDouble (timeSinceLastFrame : Q) : bool :=
  Qltb (Qabs (double (timeSinceLastFrame - frameIntervalDouble))) toleranceDouble.

(** The same test for the times of the model, which are rationals.  Below
    [frameInterval] the test passes from the edge
    [frameIntervalDouble - toleranceDouble] = 160/3 + 2^-47/3 on, which is
    a double and fails itself.  Above, 80 ms passes (the difference,
    13.333333333333329, is one step below the tolerance) and the next
    double, 80 + 2^-46, fails: [frameIntervalDouble + toleranceDouble] is
    80 + 2^-47.  A rational between 80 and the next double is no value of
    a clock; the band ends at [frameInterval + frameInterval * 0.2] = 80,
    the last double that passes.  [inBand] and [inBandDouble] agree on
    every time in whole milliseconds ([inBand_whole_ms] below). *)
Definition inBand (timeSinceLastFrame : Q) : bool :=
  Qltb (frameIntervalDouble - toleranceDouble) timeSinceLastFrame
  && Qle_bool timeSinceLastFrame (frameInterval + frameInterval * 0.2).

(** Whether a tick at [currentTime] with screenshot [shot] takes the
    frame. *)
Definition accepts (currentTime : Q) (shot : option Frame) (c : Closure) : bool :=
  truthy shot && inBand (currentTime - lastFrameTime c).

(** The first half of the interval callback: the frame is pushed and
    [lastFrameTime] moved only inside the two [if]s. *)
Definition sample (currentTime : Q) (shot : option Frame) (c : Closure) : Closure :=
  match shot with
  | Some frame =>
      if accepts currentTime shot c then
        {| frames := frames c ++ [frame];
           startTime := startTime c;
           lastFrameTime := currentTime |}
      else c
  | None => c
  end.

(** [Math.min((elapsed / RECORDING_DURATION) * 100, 100)] *)
Definition progressOf (elapsed : Q) : Q :=
  Qmin ((elapsed / RECORDING_DURATION) * 100) 100.

(** [elapsed >= RECORDING_DURATION] *)
Definition expired (currentTime : Q) (c : Closure) : bool :=
  Qgeb (currentTime - startTime c) RECORDING_DURATION.

(** The timers of the page that belong to the component. *)
Inductive Timer :=
| CountdownTimeout (countdown : Z)   (* setTimeout(() => setCountdown(countdown - 1), 1000) *)
| StabilizationTimeout               (* setTimeout(..., STABILIZATION_DELAY) of startRecording *)
| FrameCollector (c : Closure).      (* the setInterval of the stabilization callback *)

(** Timer handles are the positive integers the browser hands out. *)
Definition Handle : Type := positive.
Bind Scope positive_scope with Handle.

Record State := {
  error : option string;
  countdown : Z;
  isCountingDown : bool;
  isRecording : bool;
  recordingProgress : Q;
  frameCollectorRef : option Handle;
  frameTimestampsRef : list Q;
  (* [timer] of the countdown effect that ran last *)
  effectTimer : option Handle;
  (* the timers that are set and have not been cleared *)
  timers : list (Handle * Timer);
  nextHandle : Handle;
  (* every argument [setRecordingProgress] was called with, in order *)
  progressLog : list Q;
  (* every argument [onCapture] was called with, in order *)
  captured : list (list Frame)
}.

Definition initial : State :=
  {| error := None; countdown := 0; isCountingDown := false;
     isRecording := false; recordingProgress := 0;
     frameCollectorRef := None; frameTimestampsRef := [];
     effectTimer := None; timers := []; nextHandle := 1%positive;
     progressLog := []; captured := [] |}.

Fixpoint lookup (h : Handle) (l : list (Handle * Timer)) : option Timer :=
  match l with
  | [] => None
  | (k, t) :: l' => if (k =? h)%positive then Some t else lookup h l'
  end.

(** [clearTimeout(h)] and [clearInterval(h)] on the timer table. *)
Definition clear (h : Handle) (l : list (Handle * Timer)) : list (Handle * Timer) :=
  filter (fun kt => negb (fst kt =? h)%positive) l.

(** Replaces the closure an interval runs with, after one of its ticks. *)
Definition store (h : Handle) (t : Timer) (l : list (Handle * Timer))
  : list (Handle * Timer) :=
  map (fun kt => if (fst kt =? h)%positive then (h, t) else kt) l.

Definition isCollector (kt : Handle * Timer) : bool :=
  match snd kt with
  | FrameCollector _ => true
  | _ => false
  end.

(** The sampling intervals that are running. *)
Definition collectors (s : State) : list (Handle * Timer) :=
  filter isCollector (timers s).

(** *** State setters *)

Definition setError (e : option string) (s : State) : State :=
  {| error := e; countdown := countdown s; isCountingDown := isCountingDown s;
     isRecording := isRecording s; recordingProgress := recordingProgress s;
     frameCollectorRef := frameCollectorRef s;
     frameTimestampsRef := frameTimestampsRef s;
     effectTimer := effectTimer s; timers := timers s;
     nextHandle := nextHandle s; progressLog := progressLog s;
     captured := captured s |}.

Definition setCountdown (n : Z) (s : State) : State :=
  {| error := error s; countdown := n; isCountingDown := isCountingDown s;
     isRecording := isRecording s; recordingProgress := recordingProgress s;
     frameCollectorRef := frameCollectorRef s;
     frameTimestampsRef := frameTimestampsRef s;
     effectTimer := effectTimer s; timers := timers s;
     nextHandle := nextHandle s; progressLog := progressLog s;
     captured := captured s |}.

Definition setIsCountingDown (b : bool) (s : State) : State :=
  {| error := error s; countdown := countdown s; isCountingDown := b;
     isRecording := isRecording s; recordingProgress := recordingProgress s;
     frameCollectorRef := frameCollectorRef s;
     frameTimestampsRef := frameTimestampsRef s;
     effectTimer := effectTimer s; timers := timers s;
     nextHandle := nextHandle s; progressLog := progressLog s;
     captured := captured s |}.

Definition setIsRecording (b : bool) (s : State) : State :=
  {| error := error s; countdown := countdown s; isCountingDown := isCountingDown s;
     isRecording := b; recordingProgress := recordingProgress s;
     frameCollectorRef := frameCollectorRef s;
     frameTimestampsRef := frameTimestampsRef s;
     effectTimer := effectTimer s; timers := timers s;
     nextHandle := nextHandle s; progressLog := progressLog s;
     captured := captured s |}.

(** [setRecordingProgress(p)]; the call is also written to the log. *)
Definition setRecordingProgress (p : Q) (s : State) : State :=
  {| error := error s; countdown := countdown s; isCountingDown := isCountingDown s;
     isRecording := isRecording s; recordingProgress := p;
     frameCollectorRef := frameCollectorRef s;
     frameTimestampsRef := frameTimestampsRef s;
     effectTimer := effectTimer s; timers := timers s;
     nextHandle := nextHandle s; progressLog := progressLog s ++ [p];
     captured := captured s |}.

Definition setFrameCollectorRef (r : option Handle) (s : State) : State :=
  {| error := error s; countdown := countdown s; isCountingDown := isCountingDown s;
     isRecording := isRecording s; recordingProgress := recordingProgress s;
     frameCollectorRef := r;
     frameTimestampsRef := frameTimestampsRef s;
     effectTimer := effectTimer s; timers := timers s;
     nextHandle := nextHandle s; progressLog := progressLog s;
     captured := captured s |}.

Definition setFrameTimestampsRef (l : list Q) (s : State) : State :=
  {| error := error s; countdown := countdown s; isCountingDown := isCountingDown s;
     isRecording := isRecording s; recordingProgress := recordingProgress s;
     frameCollectorRef := frameCollectorRef s;
     frameTimestampsRef := l;
     effectTimer := effectTimer s; timers := timers s;
     nextHandle := nextHandle s; progressLog := progressLog s;
     captured := captured s |}.

Definition setEffectTimer (t : option Handle) (s : State) : State :=
  {| error := error s; countdown := countdown s; isCountingDown := isCountingDown s;
     isRecording := isRecording s; recordingProgress := recordingProgress s;
     frameCollectorRef := frameCollectorRef s;
     frameTimestampsRef := frameTimestampsRef s;
     effectTimer := t; timers := timers s;
     nextHandle := nextHandle s; progressLog := progressLog s;
     captured := captured s |}.

Definition setTimers (l : list (Handle * Timer)) (s : State) : State :=
  {| error := error s; countdown := countdown s; isCountingDown := isCountingDown s;
     isRecording := isRecording s; recordingProgress := recordingProgress s;
     frameCollectorRef := frameCollectorRef s;
     frameTimestampsRef := frameTimestampsRef s;
     effectTimer := effectTimer s; timers := l;
     nextHandle := nextHandle s; progressLog := progressLog s;
     captured := captured s |}.

(** [onCapture?.(frames)], with the parent's callback present. *)
Definition onCapture (fs : list Frame) (s : State) : State :=
  {| error := error s; countdown := countdown s; isCountingDown := isCountingDown s;
     isRecording := isRecording s; recordingProgress := recordingProgress s;
     frameCollectorRef := frameCollectorRef s;
     frameTimestampsRef := frameTimestampsRef s;
     effectTimer := effectTimer s; timers := timers s;
     nextHandle := nextHandle s; progressLog := progressLog s;
     captured := captured s ++ [fs] |}.

(** [setTimeout] and [setInterval]: the timer is entered under a new
    handle, which is returned. *)
Definition setTimer (t : Timer) (s : State) : Handle * State :=
  (nextHandle s,
   {| error := error s; countdown := countdown s; isCountingDown := isCountingDown s;
      isRecording := isRecording s; recordingProgress := recordingProgress s;
      frameCollectorRef := frameCollectorRef s;
      frameTimestampsRef := frameTimestampsRef s;
      effectTimer := effectTimer s; timers := timers s ++ [(nextHandle s, t)];
      nextHandle := Pos.succ (nextHandle s); progressLog := progressLog s;
      captured := captured s |}).

Definition clearTimer (h : Handle) (s : State) : State :=
  setTimers (clear h (timers s)) s.

(** *** The callbacks of the component *)

(** [startRecording]: the stabilization timeout is set (its handle is
    dropped) and [isRecording] is raised at once. *)
Definition startRecording (s : State) : State :=
  setIsRecording true (snd (setTimer StabilizationTimeout s)).

(** The callback of the stabilization timeout, run at [Date.now() = now]. *)
Definition stabilized (now : Q) (s : State) : State :=
  let s1 := setFrameTimestampsRef [] s in
  let (h, s2) := setTimer (FrameCollector (fresh now)) s1 in
  setFrameCollectorRef (Some h) s2.

(** The callback of the sampling interval [h], whose closure is [c], run
    at [Date.now() = currentTime] with [capture() = shot]. *)
Definition collect (h : Handle) (currentTime : Q) (shot : option Frame)
    (c : Closure) (s : State) : State :=
  let c1 := sample currentTime shot c in
  let s1 :=
    if accepts currentTime shot c
    then setFrameTimestampsRef (frameTimestampsRef s ++ [currentTime]) s
    else s in
  let s2 := setTimers (store h (FrameCollector c1) (timers s1)) s1 in
  let elapsed := currentTime - startTime c in
  let s3 := setRecordingProgress (progressOf elapsed) s2 in
  if expired currentTime c then
    let s4 :=
      match frameCollectorRef s3 with
      | Some r => clearTimer r s3
      | None => s3
      end in
    onCapture (frames c1) (setRecordingProgress 0 (setIsRecording false s4))
  else s3.

Definition handleTry (s : State) : State :=
  setCountdown 5 (setIsCountingDown true s).

Definition handleCancel (s : State) : State :=
  let s1 := setCountdown 0 (setIsCountingDown false s) in
  match frameCollectorRef s1 with
  | Some h => setRecordingProgress 0 (setIsRecording false (clearTimer h s1))
  | None => s1
  end.

(** The cleanup of the countdown effect: [clearTimeout(timer)]. *)
Definition cleanup (s : State) : State :=
  match effectTimer s with
  | Some h => clearTimer h s
  | None => s
  end.

(** One run of the countdown effect, after the cleanup of the run before. *)
Definition effect (s : State) : State :=
  let s0 := cleanup s in
  if isCountingDown s0 && (0 <? countdown s0)%Z then
    let (h, s1) := setTimer (CountdownTimeout (countdown s0)) s0 in
    setEffectTimer (Some h) s1
  else if isCountingDown s0 && (countdown s0 =? 0)%Z then
    setIsCountingDown false (startRecording (setEffectTimer None s0))
  else setEffectTimer None s0.

(** The effect depends on [countdown] and [isCountingDown]
    ([startRecording] keeps its identity while the parent's [onCapture]
    does). *)
Definition depsChanged (old new : State) : bool :=
  negb ((countdown old =? countdown new)%Z
        && Bool.eqb (isCountingDown old) (isCountingDown new)).

(** The render that follows a callback: the effect runs when a dependency
    changed, and once more when it changed one itself. *)
Definition commit (old new : State) : State :=
  if depsChanged old new then
    let s1 := effect new in
    if depsChanged new s1 then effect s1 else s1
  else new.

(** A timer fires: a timeout leaves the table, an interval stays. *)
Definition fires (h : Handle) (now : Q) (shot : option Frame) (s : State)
  : option State :=
  match lookup h (timers s) with
  | None => None
  | Some (CountdownTimeout n) => Some (setCountdown (n - 1) (clearTimer h s))
  | Some StabilizationTimeout => Some (stabilized now (clearTimer h s))
  | Some (FrameCollector c) => Some (collect h now shot c s)
  end.

(** [disabled={disabled || !!error || isCountingDown || isRecording}] *)
Definition tryDisabled (disabled : bool) (s : State) : bool :=
  disabled
  || (match error s with Some _ => true | None => false end)
  || isCountingDown s || isRecording s.

(** The cancel button is rendered when [isCountingDown || isRecording]. *)
Definition cancelShown (s : State) : bool :=
  isCountingDown s || isRecording s.

Inductive Event :=
| ClickTry (disabled : bool)
| ClickCancel
| UserMediaError (message : string)
| Fires (h : Handle) (now : Q) (shot : option Frame).

(** [None] when the event cannot happen in [s]: a click on a button that
    is disabled or absent, a timer that is not set. *)
Definition step (s : State) (e : Event) : option State :=
  match e with
  | ClickTry disabled =>
      if tryDisabled disabled s then None else Some (commit s (handleTry s))
  | ClickCancel =>
      if cancelShown s then Some (commit s (handleCancel s)) else None
  | UserMediaError message => Some (setError (Some message) s)
  | Fires h now shot =>
      match fires h now shot s with
      | Some s1 => Some (commit s s1)
      | None => None
      end
  end.

Fixpoint run (s : State) (es : list Event) : option State :=
  match es with
  | [] => Some s
  | e :: es' =>
      match step s e with
      | Some s1 => run s1 es'
      | None => None
      end
  end.

(** Nothing is going on: no countdown, no recording, no timer left. *)
Definition idle (s : State) : bool :=
  negb (isCountingDown s) && negb (isRecording s)
  && match timers s with [] => true | _ => false end.

(** One session seen from its closure: the interval callback runs at
    every tick of the list until the tick that finds the duration
    elapsed, which clears the interval.  The boolean tells whether that
    tick was reached. *)
Fixpoint record (ticks : list (Q * option Frame)) (c : Closure) : Closure * bool :=
  match ticks with
  | [] => (c, false)
  | (currentTime, shot) :: rest =>
      if expired currentTime c
      then (sample currentTime shot c, true)
      else record rest (sample currentTime shot c)
  end.

(** The ticks of a clock that advances by [period] from [start], with the
    screenshots [shots]: tick [k] (from 1) is at [start + k * period]. *)
Fixpoint clock (start period : Q) (k : nat) (shots : list (option Frame))
  : list (Q * option Frame) :=
  match shots with
  | [] => []
  | shot :: shots' =>
      (start + inject_Z (Z.of_nat (S k)) * period, shot)
        :: clock start period (S k) shots'
  end.

(** The ticks of one interval as events of the component. *)
Definition sampling (h : Handle) (ticks : list (Q * option Frame)) : list Event :=
  map (fun tk => Fires h (fst tk) (snd tk)) ticks.

(** Every handle in the timer table was handed out before. *)
Definition handlesFresh (s : State) : Prop :=
  Forall (fun kt => (fst kt < nextHandle s)%positive) (timers s).

(** A click on the enabled button and the five ticks of the countdown:
    the effect's timeouts get the handles 1 to 5, and the stabilization
    timeout that [startRecording] sets gets 6. *)
Definition tryAndCountDown : list Event :=
  [ClickTry false;
   Fires 1 0 None; Fires 2 0 None; Fires 3 0 None; Fires 4 0 None;
   Fires 5 0 None].

(** The component when the stabilization delay of a first session has
    passed at time 0: the sampling interval has the handle 7. *)
Definition recordingFromZero : option State :=
  run initial (tryAndCountDown ++ [Fires 6 0 None]).

(** A first session that ends at 3000 ms and leaves the handle 7 in
    [frameCollectorRef]; a second click on Try and its countdown (the
    timeouts 8 to 12); a click on Cancel while the stabilization timeout
    13 is pending; and that timeout, whose callback sets the interval
    14. *)
Definition cancelledInTheDelay : list Event :=
  tryAndCountDown
    ++ [Fires 6 0 None; Fires 7 3000 None;
        ClickTry false;
        Fires 8 0 None; Fires 9 0 None; Fires 10 0 None; Fires 11 0 None;
        Fires 12 0 None;
        ClickCancel;
        Fires 13 0 None].

(** *** What the runs of the component keep *)

Definition isCountdown (kt : Handle * Timer) : bool :=
  match snd kt with
  | CountdownTimeout _ => true
  | _ => false
  end.

(** The countdown timeouts that are set. *)
Definition countdowns (s : State) : list (Handle * Timer) :=
  filter isCountdown (timers s).

(** The handles of the table are distinct and were handed out, and the
    handle in [frameCollectorRef] was handed out for an interval. *)
Definition handlesSound (s : State) : Prop :=
  handlesFresh s
  /\ NoDup (map fst (timers s))
  /\ match frameCollectorRef s with
     | Some r => (r < nextHandle s)%positive
                 /\ forall n, ~ In (r, CountdownTimeout n) (timers s)
     | None => True
     end.

(** The countdown timeout follows the two pieces of state the effect
    depends on: it is set, once and with the current count, exactly
    while the component counts down. *)
Definition countdownSound (s : State) : Prop :=
  if isCountingDown s
  then (1 <= countdown s <= 5)%Z
       /\ isRecording s = false
       /\ exists h, effectTimer s = Some h
                    /\ countdowns s = [(h, CountdownTimeout (countdown s))]
  else countdown s = 0%Z /\ countdowns s = [].

(** The screenshots that the events of a run offer. *)
Definition shotsOf (es : list Event) : list Frame :=
  flat_map (fun e => match e with
                     | Fires _ _ (Some frame) => [frame]
                     | _ => []
                     end) es.

(** Every time of the list passes the test of the interval callback
    against the time before it, the first one against [prev]. *)
Fixpoint paced (prev : Q) (ts : list Q) : Prop :=
  match ts with
  | [] => True
  | t :: ts' => inBand (t - prev) = true /\ paced t ts'
  end.

End WebcamField.


(** * Properties *)

(** ** Boolean comparisons *)

Lemma Qltb_lt (x y : Q) : Qltb x y = true <-> x < y.
Proof.
  unfold Qltb. rewrite negb_true_iff, <- not_true_iff_false, Qle_bool_iff.
  split; [apply Qnot_le_lt | apply Qlt_not_le].
Qed.

Lemma Qltb_ge (x y : Q) : Qltb x y = false <-> y <= x.
Proof.
  unfold Qltb. rewrite negb_false_iff. apply Qle_bool_iff.
Qed.

Lemma Qgeb_le (x y : Q) : Qgeb x y = true <-> y <= x.
Proof. apply Qle_bool_iff. Qed.

Lemma Qgeb_lt (x y : Q) : Qgeb x y = false <-> x < y.
Proof.
  unfold Qgeb. rewrite <- not_true_iff_false, Qle_bool_iff.
  split; [apply Qnot_le_lt | apply Qlt_not_le].
Qed.

(** ** Doubles *)

Lemma two_nonzero : ~ 2 == 0.
Proof. discriminate. Qed.

Lemma pow2_pos (k : Z) : 0 < 2 ^ k.
Proof. apply Qpower_0_lt. reflexivity. Qed.

Lemma pow2_succ (k : Z) : 2 ^ (k + 1) == 2 * 2 ^ k.
Proof. rewrite Qpower_plus by apply two_nonzero. rewrite Qpower_1_r. ring. Qed.

Lemma pow2_inject (k : Z) : (0 <= k)%Z -> inject_Z (2 ^ k) == 2 ^ k.
Proof. intros K. now rewrite Zpower_Qpower. Qed.

Lemma Qdiv_le_cross (x y u v : Q) :
  0 < y -> 0 < v -> x * v <= u * y -> x / y <= u / v.
Proof.
  intros Y V H. apply Qle_shift_div_l; [exact V |].
  setoid_replace (x / y * v) with (x * v / y) by (field; lra).
  now apply Qle_shift_div_r.
Qed.

Lemma Qdiv_lt_cross (x y u v : Q) :
  0 < y -> 0 < v -> x * v < u * y -> x / y < u / v.
Proof.
  intros Y V H. apply Qlt_shift_div_l; [exact V |].
  setoid_replace (x / y * v) with (x * v / y) by (field; lra).
  now apply Qlt_shift_div_r.
Qed.

(** The quotient of two positive whole numbers lies between the powers
    of two that their binary lengths give. *)
Lemma log2_quotient (n : Z) (d : positive) :
  (0 < n)%Z ->
  2 ^ (Z.log2 n - Z.log2 (Zpos d) - 1) <= n # d
  /\ n # d < 2 ^ (Z.log2 n - Z.log2 (Zpos d) + 1).
Proof.
  intros N.
  destruct (Z.log2_spec n N) as [A1 A2].
  destruct (Z.log2_spec (Zpos d) eq_refl) as [B1 B2].
  pose proof (Z.log2_nonneg n) as A0. pose proof (Z.log2_nonneg (Zpos d)) as B0.
  set (a := Z.log2 n) in *. set (b := Z.log2 (Zpos d)) in *.
  rewrite Zle_Qle in A1, B1. rewrite Zlt_Qlt in A2, B2.
  unfold Z.succ in A2, B2.
  rewrite pow2_inject in A1, A2, B1, B2 by lia.
  rewrite pow2_succ in A2, B2.
  pose proof (pow2_pos a) as Pa. pose proof (pow2_pos b) as Pb.
  assert (0 < inject_Z (Zpos d)) as D by reflexivity.
  rewrite (Qmake_Qdiv n d).
  replace (a - b - 1)%Z with (a - (b + 1))%Z by lia.
  replace (a - b + 1)%Z with ((a + 1) - b)%Z by lia.
  rewrite !Qpower_minus by apply two_nonzero. rewrite !pow2_succ.
  split.
  - apply Qdiv_le_cross; [lra | exact D | nra].
  - apply Qdiv_lt_cross; [exact D | exact Pb | nra].
Qed.

Lemma exponent_spec (x : Q) :
  0 < x -> 2 ^ exponent x <= x /\ x < 2 ^ (exponent x + 1).
Proof.
  intros X. destruct x as [n d].
  assert (0 < n)%Z as N by (unfold Qlt in X; simpl in X; lia).
  destruct (log2_quotient n d N) as [L U].
  unfold exponent. cbn [Qnum Qden].
  set (k := (Z.log2 n - Z.log2 (Zpos d))%Z) in *.
  destruct (Qle_bool (2 ^ k) (n # d)) eqn:E.
  - apply Qle_bool_iff in E. split; [exact E | exact U].
  - split; [exact L |].
    replace (k - 1 + 1)%Z with k by lia.
    apply Qnot_le_lt. intros C. apply Qle_bool_iff in C. congruence.
Qed.

Lemma roundHalfEven_floor (x : Q) : (Qfloor x <= roundHalfEven x)%Z.
Proof.
  unfold roundHalfEven.
  destruct (Qltb _ _); [lia |]. destruct (Qltb _ _); [lia |].
  destruct (Z.even _); lia.
Qed.

(** Rounding does not take a number below a power of two that it
    reaches. *)
Lemma double_above (x : Q) (k : Z) : 2 ^ k <= Qabs x -> 2 ^ k <= Qabs (double x).
Proof.
  intros K. pose proof (pow2_pos k) as Pk.
  assert (0 < Qabs x) as A by lra.
  assert (~ x == 0) as NZ.
  { intros Z0. rewrite Z0 in A. apply (Qlt_irrefl 0). exact A. }
  unfold double.
  destruct (Qeq_bool x 0) eqn:E0; [apply Qeq_bool_iff in E0; contradiction |].
  destruct (exponent_spec (Qabs x) A) as [L U].
  set (e := exponent (Qabs x)) in *.
  assert (k <= e)%Z as KE.
  { assert (k < e + 1)%Z; [| lia].
    apply (Qpower_lt_compat_l_inv 2); [lra | reflexivity]. }
  pose proof (pow2_pos (e - 52)) as Pu.
  set (ulp := 2 ^ (e - 52)) in *.
  assert (2 ^ e == inject_Z (2 ^ 52) * ulp) as Split.
  { unfold ulp. rewrite pow2_inject by lia.
    rewrite <- Qpower_plus by apply two_nonzero.
    now replace (52 + (e - 52))%Z with e by lia. }
  assert (inject_Z (2 ^ 52) <= Qabs x / ulp) as Q1.
  { apply Qle_shift_div_l; [exact Pu |]. now rewrite <- Split. }
  assert (2 ^ 52 <= roundHalfEven (Qabs x / ulp))%Z as M.
  { pose proof (roundHalfEven_floor (Qabs x / ulp)).
    pose proof (Qfloor_resp_le _ _ Q1) as F. rewrite Qfloor_Z in F. lia. }
  rewrite Zle_Qle in M.
  set (m := inject_Z (roundHalfEven (Qabs x / ulp))) in *.
  assert (2 ^ e <= m * ulp) as Big by (rewrite Split; nra).
  assert (2 ^ k <= 2 ^ e) as Mono by (apply Qpower_le_compat_l; [exact KE | lra]).
  rewrite Qred_correct.
  destruct (Qltb x 0).
  - rewrite Qabs_opp, Qabs_pos; [lra | nra].
  - rewrite Qabs_pos; [lra | nra].
Qed.

(** The numbers of the page that are no doubles, as the program holds
    them: 0.1 + 0.2 is 0.30000000000000004. *)
Example double_values :
  double 80 == 80
  /\ double 0.2 == 3602879701896397 # 18014398509481984
  /\ double (double 0.1 + double 0.2) == 1351079888211149 # 4503599627370496
  /\ double (- (1 # 3)) == - (6004799503160661 # 18014398509481984).
Proof. vm_compute. repeat split. Qed.

(** ** The detection loop *)

Module HandDetectionOverlayFacts.

Import HandDetectionOverlay.

Lemma minInterval_value : minInterval == 100.
Proof. reflexivity. Qed.

(** The three ways through the first half of [loop]. *)
Lemma loop_cases (readyState : Z) (now : Q) (r : Refs) :
  loop readyState now r = (r, [RequestAnimationFrame])
  \/ (readyState = 4%Z
      /\ minInterval <= now - lastEstimateRef r
      /\ isEstimatingRef r = false
      /\ loop readyState now r
         = ({| isEstimatingRef := true; lastEstimateRef := now;
               pending := S (pending r) |}, [EstimateHands])).
Proof.
  unfold loop.
  destruct (Z.eqb_spec readyState 4) as [E | E]; [| now left].
  destruct (Qltb (now - lastEstimateRef r) minInterval) eqn:L; [now left |].
  destruct (isEstimatingRef r) eqn:F; [now left |].
  right. apply Qltb_ge in L. repeat split; trivial.
Qed.

Lemma loop_exclusive (readyState : Z) (now : Q) (r : Refs) :
  exclusive r -> exclusive (fst (loop readyState now r)).
Proof.
  intros X. destruct (loop_cases readyState now r) as [E | (_ & _ & F & E)];
    rewrite E; simpl; trivial.
  unfold exclusive in *. rewrite F in X. simpl. now rewrite X.
Qed.

Lemma resume_exclusive (canvas off : Size) (o : Outcome) (r : Refs) :
  exclusive r -> pending r <> 0%nat ->
  exclusive (fst (resume canvas off o r)).
Proof.
  unfold exclusive. intros X P.
  destruct (isEstimatingRef r); [| contradiction].
  destruct o; simpl; now rewrite X.
Qed.

Lemma step_exclusive (r r' : Refs) (e : Event) (out : list Effect) :
  exclusive r -> step r e = Some (r', out) -> exclusive r'.
Proof.
  intros X S. destruct e as [readyState now | canvas off o]; simpl in S.
  - injection S as S.
    pose proof (loop_exclusive readyState now r X) as H.
    now rewrite S in H.
  - destruct (pending r) eqn:P; [discriminate |].
    injection S as S.
    assert (pending r <> 0%nat) as N by now rewrite P.
    pose proof (resume_exclusive canvas off o r X N) as H.
    now rewrite S in H.
Qed.

Lemma run_app (es1 es2 : list Event) :
  forall (r r' : Refs) (out : list Effect),
    run r (es1 ++ es2) = Some (r', out) ->
    exists r1 out1 out2,
      run r es1 = Some (r1, out1)
      /\ run r1 es2 = Some (r', out2)
      /\ out = out1 ++ out2.
Proof.
  induction es1 as [| e es1 IH]; intros r r' out R; simpl in *.
  - exists r, [], out. now rewrite R.
  - destruct (step r e) as [[ra outa] |]; [| discriminate].
    destruct (run ra (es1 ++ es2)) as [[rb outb] |] eqn:Rb; [| discriminate].
    injection R as <- <-.
    destruct (IH _ _ _ Rb) as (r1 & out1 & out2 & R1 & R2 & ->).
    exists r1, (outa ++ out1), out2. rewrite R1.
    repeat split; trivial. now rewrite app_assoc.
Qed.

Lemma run_exclusive (es : list Event) :
  forall (r r' : Refs) (out : list Effect),
    exclusive r -> run r es = Some (r', out) -> exclusive r'.
Proof.
  induction es as [| e es IH]; intros r r' out X R; simpl in R.
  - now injection R as <- _.
  - destruct (step r e) as [[ra outa] |] eqn:S; [| discriminate].
    destruct (run ra es) as [[rb outb] |] eqn:Rb; [| discriminate].
    injection R as <- _.
    eapply IH; [| exact Rb]. eapply step_exclusive; eauto.
Qed.

Lemma exclusive_initial : exclusive initial.
Proof. reflexivity. Qed.

(** C1. Whatever the schedule of ticks and settled promises, at every
    point of it at most one [estimateHands] call is pending, and one is
    pending exactly when [isEstimatingRef] is set.  From such a point a
    tick calls the estimator only with the flag down and nothing pending,
    and leaves the flag up with one call pending; when that call settles
    the flag is down again and nothing is pending. *)
Theorem at_most_one_estimation_in_flight
    (es es' : list Event) (r' : Refs) (out : list Effect) :
  run initial (es ++ es') = Some (r', out) ->
  exists r out1,
    run initial es = Some (r, out1)
    /\ (pending r <= 1)%nat
    /\ (isEstimatingRef r = true <-> pending r = 1%nat)
    /\ (forall readyState now,
          In EstimateHands (snd (loop readyState now r)) ->
          isEstimatingRef r = false /\ pending r = 0%nat
          /\ isEstimatingRef (fst (loop readyState now r)) = true
          /\ pending (fst (loop readyState now r)) = 1%nat)
    /\ (forall canvas off o,
          pending r = 1%nat ->
          isEstimatingRef (fst (resume canvas off o r)) = false
          /\ pending (fst (resume canvas off o r)) = 0%nat).
Proof.
  intros R. destruct (run_app _ _ _ _ _ R) as (r & out1 & out2 & R1 & _ & _).
  exists r, out1. split; [exact R1 |].
  pose proof (run_exclusive _ _ _ _ exclusive_initial R1) as X.
  unfold exclusive in X.
  split; [destruct (isEstimatingRef r); lia |].
  split; [destruct (isEstimatingRef r); split; intros; (lia || congruence) |].
  split.
  - intros readyState now I.
    destruct (loop_cases readyState now r) as [E | (_ & _ & F & E)];
      rewrite E in *; simpl in *.
    + destruct I as [I | []]; discriminate.
    + rewrite F in X. rewrite X. auto.
  - intros canvas off o P. destruct o; simpl; rewrite P; auto.
Qed.

(** A schedule in which a second run of the loop ticks while the first
    one awaits the detector. *)
Lemma at_most_one_estimation_in_flight_witness :
  exists r out1,
    run initial [Tick 4 100; Tick 4 250] = Some (r, out1)
    /\ (pending r <= 1)%nat
    /\ (isEstimatingRef r = true <-> pending r = 1%nat)
    /\ (forall readyState now,
          In EstimateHands (snd (loop readyState now r)) ->
          isEstimatingRef r = false /\ pending r = 0%nat
          /\ isEstimatingRef (fst (loop readyState now r)) = true
          /\ pending (fst (loop readyState now r)) = 1%nat)
    /\ (forall canvas off o,
          pending r = 1%nat ->
          isEstimatingRef (fst (resume canvas off o r)) = false
          /\ pending (fst (resume canvas off o r)) = 0%nat).
Proof.
  apply (at_most_one_estimation_in_flight
           [Tick 4 100; Tick 4 250]
           [Settle {| width := 640; height := 480 |}
                   {| width := 320; height := 240 |} Rejected;
            Tick 4 300]
           {| isEstimatingRef := true; lastEstimateRef := 300; pending := 1 |}
           [EstimateHands; RequestAnimationFrame;
            ConsoleError; RequestAnimationFrame; EstimateHands]).
  reflexivity.
Defined.

(** C5. A tick less than [minInterval] (1000/10 ms) after the estimate
    recorded last only reschedules: no call is made and no ref changes,
    whatever the state of the video.  A tick at least [minInterval] after
    it, with the video ready and no call pending, calls the estimator,
    raises the flag and records its own time. *)
Theorem rate_limit (readyState : Z) (now : Q) (r : Refs) :
  minInterval == 1000 / 10
  /\ (now - lastEstimateRef r < minInterval ->
      loop readyState now r = (r, [RequestAnimationFrame]))
  /\ (minInterval <= now - lastEstimateRef r ->
      readyState = 4%Z -> exclusive r -> pending r = 0%nat ->
      loop readyState now r
      = ({| isEstimatingRef := true; lastEstimateRef := now; pending := 1 |},
         [EstimateHands])).
Proof.
  split; [reflexivity |]. split.
  - intros L. unfold loop. apply Qltb_lt in L. rewrite L.
    now destruct (readyState =? 4)%Z.
  - intros G -> X P. unfold loop. simpl.
    apply Qltb_ge in G. rewrite G.
    unfold exclusive in X. rewrite P in X.
    destruct (isEstimatingRef r); [discriminate |]. now rewrite P.
Qed.

(** Ticks 50 ms and 100 ms after an estimate made at 100 ms. *)
Lemma rate_limit_witness :
  let r := {| isEstimatingRef := false; lastEstimateRef := 100; pending := 0 |} in
  loop 4 150 r = (r, [RequestAnimationFrame])
  /\ loop 4 200 r
     = ({| isEstimatingRef := true; lastEstimateRef := 200; pending := 1 |},
        [EstimateHands]).
Proof.
  intros r. split.
  - apply (proj1 (proj2 (rate_limit 4 150 r))). reflexivity.
  - apply (proj2 (proj2 (rate_limit 4 200 r))).
    + discriminate.
    + reflexivity.
    + reflexivity.
    + reflexivity.
Defined.

(** C4. A landmark [(wx, wy, wz)] of the offscreen canvas is drawn at
    [(wx * dw / ww, wy * dh / wh)], with [(dw, dh)] the size of the
    visible canvas and [(ww, wh)] that of the offscreen one, and keeps its
    depth; a resolved estimate draws every landmark of every prediction
    remapped so. *)
Theorem remap_scales_each_axis (canvas off : Size) :
  (forall wx wy wz : Q,
      kx (remap canvas off (wx, wy, wz)) == wx * width canvas / width off
      /\ ky (remap canvas off (wx, wy, wz)) == wy * height canvas / height off
      /\ kz (remap canvas off (wx, wy, wz)) = wz)
  /\ (forall (predictions : list Prediction) (r : Refs),
         snd (resume canvas off (Resolved predictions) r)
         = ClearRect
             :: map (fun pred => DrawHand (map (remap canvas off) (landmarks pred)))
                    predictions
             ++ [RequestAnimationFrame]).
Proof.
  split.
  - intros wx wy wz. simpl. repeat split; unfold Qdiv; ring.
  - reflexivity.
Qed.

(** A 1280x720 canvas over the 320x180 offscreen canvas. *)
Example remap_widescreen :
  remap {| width := 1280; height := 720 |} {| width := 320; height := 180 |}
        (100, 45, 7)
  = {| kx := 100 * (1280 / 320); ky := 45 * (720 / 180); kz := 7 |}
  /\ 100 * (1280 / 320) == 400 /\ 45 * (720 / 180) == 180.
Proof. repeat split. Qed.




(** *** Estimates over a whole schedule *)

Lemma apart_weaken (d prev prev' : Q) (ts : list Q) :
  prev' <= prev -> apart d prev ts -> apart d prev' ts.
Proof.
  destruct ts as [| t ts]; simpl; [trivial |].
  intros L [A B]. split; [lra | exact B].
Qed.

(** The estimates of a schedule start at least [minInterval] after the
    time in [lastEstimateRef] and at least [minInterval] apart. *)
Lemma estimateTimes_apart (es : list Event) :
  forall r : Refs, apart minInterval (lastEstimateRef r) (estimateTimes r es).
Proof.
  induction es as [| e es IH]; intros r; [exact I |].
  cbn [estimateTimes]. destruct e as [readyState now | canvas off o]; cbn [step].
  - destruct (loop_cases readyState now r) as [E | (_ & G & _ & E)]; rewrite E.
    + cbn [existsb isEstimate orb]. apply IH.
    + cbn [existsb isEstimate orb]. split.
      * unfold minInterval, targetFps in *. lra.
      * apply (IH {| isEstimatingRef := true; lastEstimateRef := now;
                     pending := S (pending r) |}).
  - destruct (pending r); [exact I |].
    destruct o; cbn [resume];
      match goal with |- apart _ _ (estimateTimes ?r1 _) => exact (IH r1) end.
Qed.

Lemma apart_bound (d prev : Q) (ts : list Q) :
  forall T : Q,
    0 <= d -> apart d prev ts -> Forall (fun t => t <= T) ts ->
    ts = [] \/ prev + inject_Z (Z.of_nat (length ts)) * d <= T.
Proof.
  revert prev. induction ts as [| t ts IH]; intros prev T D A F; [now left |].
  right. destruct A as [A1 A2]. inversion F as [| ? ? F1 F2]; subst.
  destruct (IH t T D A2 F2) as [-> | B].
  - change (inject_Z (Z.of_nat (length [t]))) with 1. lra.
  - change (length (t :: ts)) with (S (length ts)).
    rewrite Nat2Z.inj_succ. unfold Z.succ. rewrite inject_Z_plus. 
    change (inject_Z 1) with 1. lra.
Qed.

Lemma run_requests (es : list Event) :
  forall (r r' : Refs) (out : list Effect),
    run r es = Some (r', out) ->
    (length (filter isRequest out) + pending r'
     = length (filter isTick es) + pending r)%nat.
Proof.
  induction es as [| e es IH]; intros r r' out R; cbn [run] in R.
  - injection R as <- <-. reflexivity.
  - destruct (step r e) as [[r1 out1] |] eqn:S; [| discriminate].
    destruct (run r1 es) as [[r2 out2] |] eqn:R2; [| discriminate].
    injection R as <- <-. specialize (IH _ _ _ R2).
    rewrite filter_app, length_app.
    destruct e as [readyState now | canvas off o]; cbn [step] in S; cbn [filter isTick].
    + injection S as S.
      destruct (loop_cases readyState now r) as [E | (_ & _ & _ & E)];
        rewrite E in S; injection S as <- <-; cbn in *; lia.
    + destruct (pending r) as [| n] eqn:P; [discriminate |].
      injection S as S.
      destruct o; cbn [resume] in S; injection S as <- <-; cbn [pending] in IH.
      * rewrite P in IH. cbn [Nat.pred] in IH.
        cbn [filter isRequest]. rewrite filter_app, length_app.
        assert (filter isRequest
                  (map (fun pred => DrawHand (keypoints canvas off pred)) predictions)
                = []) as Z.
        { induction predictions as [| p ps IHp]; [reflexivity | exact IHp]. }
        rewrite Z. cbn. lia.
      * rewrite P in IH. cbn in *. lia.
Qed.

Lemma draws_no_estimate (canvas off : Size) (ps : list Prediction) :
  filter isEstimate (map (fun pred => DrawHand (keypoints canvas off pred)) ps) = [].
Proof. induction ps as [| p ps IH]; [reflexivity | exact IH]. Qed.

Lemma estimateTimes_length (es : list Event) :
  forall (r r' : Refs) (out : list Effect),
    run r es = Some (r', out) ->
    length (filter isEstimate out) = length (estimateTimes r es).
Proof.
  induction es as [| e es IH]; intros r r' out R; cbn [run estimateTimes] in *.
  - now injection R as <- <-.
  - destruct (step r e) as [[r1 out1] |] eqn:S; [| discriminate].
    destruct (run r1 es) as [[r2 out2] |] eqn:R2; [| discriminate].
    injection R as <- <-. rewrite filter_app, length_app, (IH _ _ _ R2).
    destruct e as [readyState now | canvas off o]; cbn [step] in S.
    + injection S as S.
      destruct (loop_cases readyState now r) as [E | (_ & _ & _ & E)];
        rewrite E in S; injection S as <- <-; reflexivity.
    + destruct (pending r); [discriminate |]. injection S as S.
      destruct o; cbn [resume] in S; injection S as <- <-; cbn [filter isEstimate].
      * now rewrite filter_app, draws_no_estimate.
      * reflexivity.
Qed.

(** X1. In every schedule the estimator is called at most once per
    [minInterval]: the first call comes at least 100 ms after the time
    origin, each later one at least 100 ms after the one before, so that
    up to a time [T] at most [T / 100] calls are made.  The clock need
    not be monotone for this. *)
Theorem estimates_at_least_an_interval_apart
    (es : list Event) (r : Refs) (out : list Effect) (T : Q) :
  run initial es = Some (r, out) ->
  0 <= T ->
  Forall (fun t => t <= T) (estimateTimes initial es) ->
  apart minInterval 0 (estimateTimes initial es)
  /\ length (filter isEstimate out) = length (estimateTimes initial es)
  /\ inject_Z (Z.of_nat (length (filter isEstimate out))) * minInterval <= T.
Proof.
  intros R T0 F.
  pose proof (estimateTimes_apart es initial) as A. cbn [initial lastEstimateRef] in A.
  split; [exact A |]. split; [exact (estimateTimes_length es _ _ _ R) |].
  rewrite (estimateTimes_length es _ _ _ R).
  destruct (apart_bound minInterval 0 (estimateTimes initial es) T) as [E | B];
    trivial.
  - discriminate.
  - rewrite E. change (inject_Z (Z.of_nat (length []))) with 0. lra.
  - lra.
Qed.

(** Two loops tick in turn; two of the six ticks estimate. *)
Lemma estimates_at_least_an_interval_apart_witness :
  let canvas := {| width := 640; height := 480 |} in
  let off := {| width := 320; height := 240 |} in
  let es := [Tick 4 100; Tick 4 116; Settle canvas off (Resolved []);
             Tick 4 133; Tick 4 150; Tick 4 216; Tick 4 233] in
  apart minInterval 0 (estimateTimes initial es)
  /\ estimateTimes initial es = [100; 216]
  /\ inject_Z 2 * minInterval <= 233.
Proof.
  intros canvas off es.
  destruct (estimates_at_least_an_interval_apart
              es
              {| isEstimatingRef := true; lastEstimateRef := 216; pending := 1 |}
              [EstimateHands; RequestAnimationFrame; ClearRect;
               RequestAnimationFrame; RequestAnimationFrame;
               RequestAnimationFrame; EstimateHands; RequestAnimationFrame]
              233) as (A & _ & B).
  - reflexivity.
  - discriminate.
  - repeat constructor; discriminate.
  - split; [exact A |]. split; [reflexivity | exact B].
Defined.

(** X2. Every run of [loop] asks for exactly one next frame, at once
    when it does not estimate and else when its estimate settles: in a
    schedule the frames requested and the estimates still pending add up
    to the ticks.  No tick ends the loop and none forks it. *)
Theorem every_tick_requests_one_frame
    (es : list Event) (r : Refs) (out : list Effect) :
  run initial es = Some (r, out) ->
  (length (filter isRequest out) + pending r = length (filter isTick es))%nat.
Proof.
  intros R. rewrite (run_requests es _ _ _ R). cbn. lia.
Qed.

Lemma every_tick_requests_one_frame_witness :
  (length (filter isRequest
             [EstimateHands; RequestAnimationFrame; ConsoleError;
              RequestAnimationFrame; EstimateHands])
   + 1
   = length (filter isTick
               [Tick 4 100; Tick 4 250;
                Settle {| width := 640; height := 480 |}
                       {| width := 320; height := 240 |} Rejected;
                Tick 4 300]))%nat.
Proof.
  apply (every_tick_requests_one_frame
           [Tick 4 100; Tick 4 250;
            Settle {| width := 640; height := 480 |}
                   {| width := 320; height := 240 |} Rejected;
            Tick 4 300]
           {| isEstimatingRef := true; lastEstimateRef := 300; pending := 1 |}).
  reflexivity.
Defined.

(** *** Sizes of the canvases *)

Lemma round_near (x : Q) :
  x - (1 # 2) < inject_Z (round x) /\ inject_Z (round x) <= x + (1 # 2).
Proof.
  unfold round. pose proof (Qfloor_le (x + (1 # 2))) as A.
  pose proof (Qlt_floor (x + (1 # 2))) as B.
  rewrite inject_Z_plus in B. change (inject_Z 1) with 1 in B. split; lra.
Qed.

Lemma inject_N_pos (n : N) : n <> 0%N -> 0 < inject_Z (Z.of_N n).
Proof. intros H. change 0 with (inject_Z 0). rewrite <- Zlt_Qlt. lia. Qed.

(** X3. The offscreen canvas is 320 wide.  With both dimensions of
    the video known its height is within half a pixel of
    320 * videoHeight / videoWidth, so the frame keeps its proportions;
    without a width it is 240 (4:3); with a width and the height 0 it
    is 0. *)
Theorem offscreen_keeps_aspect (videoWidth videoHeight : N) :
  width (offscreen videoWidth videoHeight) = 320
  /\ (videoWidth <> 0%N -> videoHeight <> 0%N ->
      Qabs (height (offscreen videoWidth videoHeight)
            - 320 * inject_Z (Z.of_N videoHeight) / inject_Z (Z.of_N videoWidth))
      <= 1 # 2)
  /\ (videoWidth = 0%N -> height (offscreen videoWidth videoHeight) = 240)
  /\ (videoWidth <> 0%N -> videoHeight = 0%N ->
      height (offscreen videoWidth videoHeight) = 0).
Proof.
  split; [reflexivity |]. split; [| split].
  - intros W H. unfold offscreen, targetH, aspect. cbn [height].
    destruct (N.eqb_spec videoWidth 0) as [| _]; [contradiction |].
    destruct (N.eqb_spec videoHeight 0) as [| _]; [contradiction |].
    pose proof (inject_N_pos _ W) as Wp. pose proof (inject_N_pos _ H) as Hp.
    set (w := inject_Z (Z.of_N videoWidth)) in *.
    set (h := inject_Z (Z.of_N videoHeight)) in *.
    assert (targetW / (w / h) == 320 * h / w) as E
        by (unfold targetW; field; split; lra).
    destruct (round_near (targetW / (w / h))) as [A B].
    apply Qabs_Qle_condition. rewrite <- E. split; lra.
  - intros ->. reflexivity.
  - intros W ->. unfold offscreen, targetH, aspect. cbn [height].
    destruct (N.eqb_spec videoWidth 0) as [| _]; [contradiction |]. reflexivity.
Qed.

Lemma Qdiv_nonneg (a b : Q) : 0 <= a -> 0 < b -> 0 <= a / b.
Proof.
  intros A B. unfold Qdiv. apply Qmult_le_0_compat; [exact A |].
  apply Qlt_le_weak, Qinv_lt_0_compat, B.
Qed.

Lemma scale_inside (p c o : Q) :
  0 < o -> 0 <= c -> 0 <= p -> p <= o -> 0 <= p * (c / o) /\ p * (c / o) <= c.
Proof.
  intros O C P L. pose proof (Qdiv_nonneg c o C O) as D. split.
  - now apply Qmult_le_0_compat.
  - assert (o * (c / o) == c) as E by (field; lra).
    rewrite <- E at 2. apply Qmult_le_compat_r; trivial.
Qed.

(** X4. A landmark inside the offscreen canvas is drawn inside the
    visible canvas, and the far corner of the one goes to the far corner
    of the other. *)
Theorem remap_stays_inside_canvas (canvas off : Size) (px py pz : Q) :
  0 < width off -> 0 < height off ->
  0 <= width canvas -> 0 <= height canvas ->
  0 <= px <= width off -> 0 <= py <= height off ->
  (0 <= kx (remap canvas off (px, py, pz)) <= width canvas)
  /\ (0 <= ky (remap canvas off (px, py, pz)) <= height canvas)
  /\ kx (remap canvas off (width off, height off, pz)) == width canvas
  /\ ky (remap canvas off (width off, height off, pz)) == height canvas.
Proof.
  intros OW OH CW CH [X0 X1] [Y0 Y1]. cbn [remap kx ky].
  split; [now apply scale_inside |]. split; [now apply scale_inside |].
  split; field; lra.
Qed.

(** A 1280x720 video. *)
Lemma offscreen_keeps_aspect_witness :
  Qabs (height (offscreen 1280 720) - 320 * inject_Z (Z.of_N 720) / inject_Z (Z.of_N 1280))
  <= 1 # 2
  /\ height (offscreen 0 720) = 240
  /\ height (offscreen 1280 0) = 0.
Proof.
  split; [| split].
  - apply (proj1 (proj2 (offscreen_keeps_aspect 1280 720))); discriminate.
  - apply (proj1 (proj2 (proj2 (offscreen_keeps_aspect 0 720)))). reflexivity.
  - apply (proj2 (proj2 (proj2 (offscreen_keeps_aspect 1280 0)))).
    + discriminate.
    + reflexivity.
Defined.

(** The canvases of a 1280x720 video. *)
Lemma remap_stays_inside_canvas_witness :
  (0 <= kx (remap (resizeCanvas 1280 720) (offscreen 1280 720) (100, 45, 7))
   <= width (resizeCanvas 1280 720))
  /\ (0 <= ky (remap (resizeCanvas 1280 720) (offscreen 1280 720) (100, 45, 7))
      <= height (resizeCanvas 1280 720)).
Proof.
  destruct (remap_stays_inside_canvas
              (resizeCanvas 1280 720) (offscreen 1280 720) 100 45 7)
    as (X & Y & _); try reflexivity; try discriminate.
  - split; discriminate.
  - split; discriminate.
  - split; [exact X | exact Y].
Defined.

(** *** The box around a hand *)

Lemma minimum_le (xs : list Q) :
  forall x : Q, minimum x xs <= x /\ Forall (fun y => minimum x xs <= y) xs.
Proof.
  induction xs as [| y ys IH]; intros x; cbn [minimum fold_left].
  - split; [apply Qle_refl | constructor].
  - destruct (IH (Qmin x y)) as [A B]. fold (minimum (Qmin x y) ys) in *.
    pose proof (Q.le_min_l x y). pose proof (Q.le_min_r x y).
    split; [lra |]. constructor; [lra | exact B].
Qed.

Lemma maximum_ge (xs : list Q) :
  forall x : Q, x <= maximum x xs /\ Forall (fun y => y <= maximum x xs) xs.
Proof.
  induction xs as [| y ys IH]; intros x; cbn [maximum fold_left].
  - split; [apply Qle_refl | constructor].
  - destruct (IH (Qmax x y)) as [A B]. fold (maximum (Qmax x y) ys) in *.
    pose proof (Q.le_max_l x y). pose proof (Q.le_max_r x y).
    split; [lra |]. constructor; [lra | exact B].
Qed.

Lemma Qmin_either (x y : Q) : Qmin x y = x \/ Qmin x y = y.
Proof.
  unfold Qmin, GenericMinMax.gmin. destruct (x ?= y); auto.
Qed.

Lemma Qmax_either (x y : Q) : Qmax x y = x \/ Qmax x y = y.
Proof.
  unfold Qmax, GenericMinMax.gmax. destruct (x ?= y); auto.
Qed.

Lemma minimum_in (xs : list Q) : forall x : Q, In (minimum x xs) (x :: xs).
Proof.
  induction xs as [| y ys IH]; intros x; cbn [minimum fold_left]; [now left |].
  fold (minimum (Qmin x y) ys). destruct (IH (Qmin x y)) as [E | I].
  - rewrite <- E. destruct (Qmin_either x y) as [-> | ->]; cbn; auto.
  - right. now right.
Qed.

Lemma maximum_in (xs : list Q) : forall x : Q, In (maximum x xs) (x :: xs).
Proof.
  induction xs as [| y ys IH]; intros x; cbn [maximum fold_left]; [now left |].
  fold (maximum (Qmax x y) ys). destruct (IH (Qmax x y)) as [E | I].
  - rewrite <- E. destruct (Qmax_either x y) as [-> | ->]; cbn; auto.
  - right. now right.
Qed.

Lemma minimum_bounds (f : Keypoint -> Q) (k : Keypoint) (ks : list Keypoint) :
  (forall j, In j (k :: ks) -> minimum (f k) (map f ks) <= f j)
  /\ exists j, In j (k :: ks) /\ f j = minimum (f k) (map f ks).
Proof.
  split.
  - intros j [<- | I]; [apply minimum_le |].
    destruct (minimum_le (map f ks) (f k)) as [_ F].
    rewrite Forall_forall in F. apply F. now apply in_map.
  - destruct (minimum_in (map f ks) (f k)) as [E | I].
    + exists k. split; [now left | exact E].
    + apply in_map_iff in I. destruct I as (j & E & I).
      exists j. split; [now right | exact E].
Qed.

Lemma maximum_bounds (f : Keypoint -> Q) (k : Keypoint) (ks : list Keypoint) :
  (forall j, In j (k :: ks) -> f j <= maximum (f k) (map f ks))
  /\ exists j, In j (k :: ks) /\ f j = maximum (f k) (map f ks).
Proof.
  split.
  - intros j [<- | I]; [apply maximum_ge |].
    destruct (maximum_ge (map f ks) (f k)) as [_ F].
    rewrite Forall_forall in F. apply F. now apply in_map.
  - destruct (maximum_in (map f ks) (f k)) as [E | I].
    + exists k. split; [now left | exact E].
    + apply in_map_iff in I. destruct I as (j & E & I).
      exists j. split; [now right | exact E].
Qed.

(** X5. The rectangle stroked around a hand leaves [padding] (10 px)
    between its edges and every keypoint, on each of its four sides a
    keypoint is exactly [padding] away, and it is at least 20 px wide and
    high. *)
Theorem bounding_box_contains_keypoints (kps : list Keypoint) (box : Rect) :
  boundingBox kps = Some box ->
  (forall k, In k kps ->
     boxLeft box + padding <= kx k <= boxLeft box + boxWidth box - padding
     /\ boxTop box + padding <= ky k <= boxTop box + boxHeight box - padding)
  /\ (exists k, In k kps /\ kx k == boxLeft box + padding)
  /\ (exists k, In k kps /\ kx k == boxLeft box + boxWidth box - padding)
  /\ (exists k, In k kps /\ ky k == boxTop box + padding)
  /\ (exists k, In k kps /\ ky k == boxTop box + boxHeight box - padding)
  /\ 2 * padding <= boxWidth box
  /\ 2 * padding <= boxHeight box.
Proof.
  destruct kps as [| k ks]; [discriminate |]. cbn [boundingBox].
  intros E. injection E as <-. cbn [boxLeft boxTop boxWidth boxHeight].
  destruct (minimum_bounds kx k ks) as [LX (ax & IaX & EaX)].
  destruct (maximum_bounds kx k ks) as [UX (bx & IbX & EbX)].
  destruct (minimum_bounds ky k ks) as [LY (ay & IaY & EaY)].
  destruct (maximum_bounds ky k ks) as [UY (by' & IbY & EbY)].
  set (minX := minimum (kx k) (map kx ks)) in *.
  set (maxX := maximum (kx k) (map kx ks)) in *.
  set (minY := minimum (ky k) (map ky ks)) in *.
  set (maxY := maximum (ky k) (map ky ks)) in *.
  unfold padding.
  split.
  { intros j I. pose proof (LX j I). pose proof (UX j I).
    pose proof (LY j I). pose proof (UY j I). repeat split; lra. }
  split; [exists ax; split; [exact IaX | rewrite EaX; ring] |].
  split; [exists bx; split; [exact IbX | rewrite EbX; ring] |].
  split; [exists ay; split; [exact IaY | rewrite EaY; ring] |].
  split; [exists by'; split; [exact IbY | rewrite EbY; ring] |].
  pose proof (LX k (or_introl eq_refl)). pose proof (UX k (or_introl eq_refl)).
  pose proof (LY k (or_introl eq_refl)). pose proof (UY k (or_introl eq_refl)).
  split; lra.
Qed.

Lemma bounding_box_contains_keypoints_witness :
  let k := {| kx := 30; ky := 50; kz := 0 |} in
  let kps := [ k; {| kx := 10; ky := 80; kz := 0 |};
               {| kx := 40; ky := 20; kz := 0 |} ] in
  let box := {| boxLeft := 10 - padding; boxTop := 20 - padding;
                boxWidth := (40 - 10) + padding * 2;
                boxHeight := (80 - 20) + padding * 2 |} in
  boxLeft box + padding <= kx k <= boxLeft box + boxWidth box - padding
  /\ boxTop box + padding <= ky k <= boxTop box + boxHeight box - padding.
Proof.
  intros k kps box.
  apply (proj1 (bounding_box_contains_keypoints kps box eq_refl) k).
  now left.
Defined.

(** The label stays on the canvas and below the top edge of the box. *)
Lemma label_position (kps : list Keypoint) (box : Rect) (x y : Q) :
  boundingBox kps = Some box -> labelAt kps = Some (x, y) ->
  0 <= x /\ 16 <= y /\ boxLeft box + padding <= x /\ boxTop box + 2 <= y.
Proof.
  destruct kps as [| k ks]; [discriminate |]. cbn [boundingBox labelAt].
  intros B L. injection B as <-. injection L as <- <-.
  cbn [boxLeft boxTop]. unfold padding.
  set (minX := minimum (kx k) (map kx ks)).
  set (minY := minimum (ky k) (map ky ks)).
  pose proof (Q.le_max_l 0 minX). pose proof (Q.le_max_r 0 minX).
  pose proof (Q.le_max_l 16 (minY - 8)). pose proof (Q.le_max_r 16 (minY - 8)).
  repeat split; lra.
Qed.

Lemma minimum_wd (xs : list Q) :
  forall x x' : Q, x == x' -> minimum x xs == minimum x' xs.
Proof.
  induction xs as [| y ys IH]; intros x x' E; cbn [minimum fold_left]; [exact E |].
  apply IH. now rewrite E.
Qed.

Lemma maximum_wd (xs : list Q) :
  forall x x' : Q, x == x' -> maximum x xs == maximum x' xs.
Proof.
  induction xs as [| y ys IH]; intros x x' E; cbn [maximum fold_left]; [exact E |].
  apply IH. now rewrite E.
Qed.

Lemma Qmin_scale (k x y : Q) : 0 <= k -> Qmin (x * k) (y * k) == Qmin x y * k.
Proof.
  intros K. destruct (Qlt_le_dec y x) as [L | L].
  - rewrite (Q.min_r x y) by lra. apply Q.min_r.
    apply Qmult_le_compat_r; [lra | exact K].
  - rewrite (Q.min_l x y) by lra. apply Q.min_l.
    now apply Qmult_le_compat_r.
Qed.

Lemma Qmax_scale (k x y : Q) : 0 <= k -> Qmax (x * k) (y * k) == Qmax x y * k.
Proof.
  intros K. destruct (Qlt_le_dec y x) as [L | L].
  - rewrite (Q.max_l x y) by lra. apply Q.max_l.
    apply Qmult_le_compat_r; [lra | exact K].
  - rewrite (Q.max_r x y) by lra. apply Q.max_r.
    now apply Qmult_le_compat_r.
Qed.

Lemma minimum_scale (k : Q) (xs : list Q) :
  0 <= k ->
  forall x : Q, minimum (x * k) (map (fun y => y * k) xs) == minimum x xs * k.
Proof.
  intros K. induction xs as [| y ys IH]; intros x; cbn [minimum fold_left map];
    [reflexivity |].
  fold (minimum (Qmin (x * k) (y * k)) (map (fun y => y * k) ys)).
  fold (minimum (Qmin x y) ys).
  rewrite (minimum_wd _ _ _ (Qmin_scale k x y K)). apply IH.
Qed.

Lemma maximum_scale (k : Q) (xs : list Q) :
  0 <= k ->
  forall x : Q, maximum (x * k) (map (fun y => y * k) xs) == maximum x xs * k.
Proof.
  intros K. induction xs as [| y ys IH]; intros x; cbn [maximum fold_left map];
    [reflexivity |].
  fold (maximum (Qmax (x * k) (y * k)) (map (fun y => y * k) ys)).
  fold (maximum (Qmax x y) ys).
  rewrite (maximum_wd _ _ _ (Qmax_scale k x y K)). apply IH.
Qed.

Lemma kx_remap (canvas off : Size) (ps : list Point) :
  map kx (map (remap canvas off) ps)
  = map (fun x => x * (width canvas / width off)) (map (fun pt => fst (fst pt)) ps).
Proof.
  rewrite !map_map. apply map_ext. now intros [[x y] z].
Qed.

Lemma ky_remap (canvas off : Size) (ps : list Point) :
  map ky (map (remap canvas off) ps)
  = map (fun y => y * (height canvas / height off)) (map (fun pt => snd (fst pt)) ps).
Proof.
  rewrite !map_map. apply map_ext. now intros [[x y] z].
Qed.

(** X6. The rectangle is the extent of the landmarks on the offscreen
    canvas, scaled to the visible canvas, plus the margin: the margin is
    not scaled. *)
Theorem bounding_box_scales_with_canvas
    (canvas off : Size) (p : Point) (ps : list Point) :
  0 <= width canvas / width off ->
  0 <= height canvas / height off ->
  exists box,
    boundingBox (keypoints canvas off {| landmarks := p :: ps |}) = Some box
    /\ boxLeft box
       == minimum (fst (fst p)) (map (fun pt => fst (fst pt)) ps)
          * (width canvas / width off) - padding
    /\ boxTop box
       == minimum (snd (fst p)) (map (fun pt => snd (fst pt)) ps)
          * (height canvas / height off) - padding
    /\ boxWidth box
       == (maximum (fst (fst p)) (map (fun pt => fst (fst pt)) ps)
           - minimum (fst (fst p)) (map (fun pt => fst (fst pt)) ps))
          * (width canvas / width off) + 2 * padding
    /\ boxHeight box
       == (maximum (snd (fst p)) (map (fun pt => snd (fst pt)) ps)
           - minimum (snd (fst p)) (map (fun pt => snd (fst pt)) ps))
          * (height canvas / height off) + 2 * padding.
Proof.
  intros SX SY. unfold keypoints. cbn [landmarks map boundingBox].
  eexists. split; [reflexivity |]. cbn [boxLeft boxTop boxWidth boxHeight].
  rewrite kx_remap, ky_remap. destruct p as [[x y] z]. cbn [remap kx ky fst snd].
  rewrite (minimum_scale _ _ SX), (maximum_scale _ _ SX),
    (minimum_scale _ _ SY), (maximum_scale _ _ SY).
  repeat split; ring.
Qed.

Lemma bounding_box_scales_with_canvas_witness :
  exists box,
    boundingBox (keypoints {| width := 640; height := 480 |}
                           {| width := 320; height := 240 |}
                           {| landmarks := [(30, 50, 0); (10, 80, 0)] |})
    = Some box
    /\ boxLeft box == 10 * 2 - padding
    /\ boxWidth box == (30 - 10) * 2 + 2 * padding.
Proof.
  destruct (bounding_box_scales_with_canvas
              {| width := 640; height := 480 |} {| width := 320; height := 240 |}
              (30, 50, 0) [(10, 80, 0)]) as (box & E & L & _ & W & _).
  - discriminate.
  - discriminate.
  - exists box. split; [exact E |].
    split; [rewrite L; reflexivity | rewrite W; reflexivity].
Defined.

(** *** The runs of the loop in the component *)

Lemma fresh_request (o : Overlay) :
  requestsFresh o -> requestsFresh (requestAnimationFrame o).
Proof.
  intros [N F]. split; cbn.
  - apply NoDup_app; [exact N | repeat constructor; intros [] |].
    intros k I [<- | []]. rewrite Forall_forall in F. specialize (F _ I). lia.
  - apply Forall_app. split.
    + eapply Forall_impl; [| exact F]. cbn. intros a A. lia.
    + repeat constructor. lia.
Qed.

Lemma fresh_cancel (h : positive) (o : Overlay) :
  requestsFresh o -> requestsFresh (cancelAnimationFrame h o).
Proof.
  intros [N F]. split; cbn.
  - now apply NoDup_filter.
  - rewrite Forall_forall in *. intros k I. apply filter_In in I. now apply F.
Qed.

Lemma cancel_length (h : positive) (l : list positive) :
  NoDup l ->
  length (filter (fun k => negb (k =? h)%positive) l)
  = if existsb (fun k => (k =? h)%positive) l then Nat.pred (length l) else length l.
Proof.
  induction 1 as [| k l NI N IH]; [reflexivity |].
  cbn. destruct (Pos.eqb_spec k h) as [-> | D]; cbn.
  - assert (existsb (fun k => (k =? h)%positive) l = false) as E.
    { apply not_true_iff_false. intros E. apply existsb_exists in E.
      destruct E as (j & I & J). apply Pos.eqb_eq in J. now subst. }
    rewrite E in IH. exact IH.
  - rewrite IH. destruct (existsb (fun k => (k =? h)%positive) l) eqn:E; [| reflexivity].
    destruct l; [discriminate | reflexivity].
Qed.

(** A call of [loop] that is not the run of a requested frame is one
    more live run. *)
Lemma enter_loops (readyState : Z) (now : Q) (o : Overlay) :
  loops (enter readyState now o) = S (loops o)
  /\ detectorRef (enter readyState now o) = detectorRef o
  /\ unmounted (enter readyState now o) = unmounted o
  /\ (requestsFresh o -> requestsFresh (enter readyState now o)).
Proof.
  unfold enter.
  destruct (loop_cases readyState now (refs o)) as [E | (_ & _ & _ & E)];
    rewrite E; cbn [fst snd fold_left perform].
  - split; [| split; [reflexivity | split; [reflexivity |]]].
    + unfold loops. cbn. rewrite length_app. cbn. lia.
    + intros F. exact (fresh_request (withRefs (refs o) o) F).
  - split; [| split; [reflexivity | split; [reflexivity |]]].
    + unfold loops. cbn. lia.
    + intros F. exact F.
Qed.

Lemma perform_draws (canvas off : Size) (ps : list Prediction) :
  forall o : Overlay,
    fold_left perform (map (fun pred => DrawHand (keypoints canvas off pred)) ps) o = o.
Proof. induction ps as [| p ps IH]; intros o; [reflexivity | apply IH]. Qed.

Lemma settled_loops (canvas off : Size) (oc : Outcome) (o : Overlay) (n : nat) :
  pending (refs o) = S n ->
  let o' := fold_left perform (snd (resume canvas off oc (refs o)))
                      (withRefs (fst (resume canvas off oc (refs o))) o) in
  loops o' = loops o
  /\ detectorRef o' = detectorRef o
  /\ unmounted o' = unmounted o
  /\ (requestsFresh o -> requestsFresh o').
Proof.
  intros P. destruct oc as [ps |]; cbn [resume fst snd fold_left perform].
  - rewrite fold_left_app, perform_draws. cbn [fold_left perform].
    split; [| split; [reflexivity | split; [reflexivity |]]].
    + unfold loops. cbn. rewrite length_app, P. cbn. lia.
    + intros F. exact (fresh_request (withRefs _ o) F).
  - split; [| split; [reflexivity | split; [reflexivity |]]].
    + unfold loops. cbn. rewrite length_app, P. cbn. lia.
    + intros F. exact (fresh_request (withRefs _ o) F).
Qed.

Lemma start_loops (video : option Z) (canvas : bool) (now : Q) (o : Overlay) :
  let o' := startDetectionLoop video canvas now o in
  loops o'
  = (loops o
     + if match video with Some _ => canvas && detectorRef o | None => false end
       then 1 else 0)%nat
  /\ detectorRef o' = detectorRef o
  /\ unmounted o' = unmounted o
  /\ (requestsFresh o -> requestsFresh o').
Proof.
  unfold startDetectionLoop. destruct video as [readyState |]; cbn zeta.
  - destruct (canvas && detectorRef o).
    + match goal with |- context [enter readyState now ?x] =>
        destruct (enter_loops readyState now x) as (L & D & U & F) end.
      rewrite L, D, U.
      split; [unfold loops; cbn; lia |].
      split; [reflexivity |]. split; [reflexivity | exact F].
    + split; [lia |]. split; [reflexivity |]. split; [reflexivity | trivial].
  - split; [lia |]. split; [reflexivity |]. split; [reflexivity | trivial].
Qed.

Lemma pageStep_loops (o o' : Overlay) (e : PageEvent) :
  requestsFresh o ->
  pageStep o e = Some o' ->
  requestsFresh o'
  /\ (detectorRef o = true -> detectorRef o' = true)
  /\ (isUnmount e = false ->
      (loops o <= loops o')%nat
      /\ (detectorRef o = true ->
          loops o' = (loops o + if startsLoop e then 1 else 0)%nat))
  /\ (isUnmount e = true -> (loops o <= S (loops o'))%nat).
Proof.
  intros F S. destruct e as [video canvas now | video canvas now | h rs now
                            | canvas off oc |]; cbn [pageStep] in S.
  - injection S as <-. unfold loaded.
    match goal with |- context [startDetectionLoop video canvas now ?x] =>
      destruct (start_loops video canvas now x) as (L & D & U & G) end.
    cbn zeta in *. cbn [detectorRef] in *. rewrite L, D.
    split; [exact (G F) |]. split; [reflexivity |].
    split; [| discriminate]. intros _. unfold loops at 2 4. cbn.
    fold (loops o). split; [lia |].
    intros _. destruct video, canvas; cbn; lia.
  - destruct (unmounted o); [discriminate |]. injection S as <-.
    unfold tryStart.
    destruct (start_loops video canvas now o) as (L & D & U & G). cbn zeta in *.
    destruct video as [rs |].
    + destruct (detectorRef o) eqn:Det.
      * rewrite L, D. split; [exact (G F) |]. split; [reflexivity |].
        split; [| discriminate]. intros _. split; [lia |].
        intros _. rewrite andb_true_r. destruct canvas; cbn; lia.
      * split; [exact F |]. split; [discriminate |].
        split; [| discriminate]. intros _. split; [lia | discriminate].
    + split; [exact F |]. split; [trivial |]. split; [| discriminate].
      intros _. split; [lia |]. intros _. cbn. lia.
  - destruct (existsb (fun k => (k =? h)%positive) (requested o)) eqn:E;
      [| discriminate].
    injection S as <-.
    destruct (enter_loops rs now (cancelAnimationFrame h o)) as (L & D & U & G).
    rewrite L, D. split; [exact (G (fresh_cancel h o F)) |].
    split; [trivial |]. split; [| discriminate]. intros _.
    assert (S (loops (cancelAnimationFrame h o)) = loops o) as C.
    { unfold loops. cbn. rewrite (cancel_length h _ (proj1 F)), E.
      destruct (requested o); [discriminate | cbn; lia]. }
    rewrite C. split; [lia |]. intros _. cbn. lia.
  - destruct (pending (refs o)) as [| n] eqn:P; [discriminate |].
    injection S as <-.
    destruct (settled_loops canvas off oc o n P) as (L & D & U & G).
    cbn zeta in *. rewrite L, D. split; [exact (G F) |].
    split; [trivial |]. split; [| discriminate]. intros _.
    split; [lia |]. intros _. cbn. lia.
  - destruct (unmounted o); [discriminate |]. injection S as <-.
    unfold unmount. destruct (rafRef o) as [h |].
    + split; [exact (fresh_cancel h o F) |]. split; [trivial |].
      split; [discriminate |]. intros _. unfold loops. cbn.
      rewrite (cancel_length h _ (proj1 F)).
      destruct (existsb (fun k => (k =? h)%positive) (requested o)); lia.
    + split; [exact F |]. split; [trivial |]. split; [discriminate |].
      intros _. unfold loops. cbn. lia.
Qed.

Lemma pageRun_fresh (es : list PageEvent) :
  forall o o' : Overlay, requestsFresh o -> pageRun o es = Some o' -> requestsFresh o'.
Proof.
  induction es as [| e es IH]; intros o o' F R; cbn [pageRun] in R.
  - now injection R as <-.
  - destruct (pageStep o e) as [o1 |] eqn:S; [| discriminate].
    eapply IH; [| exact R]. exact (proj1 (pageStep_loops o o1 e F S)).
Qed.

Lemma mounted_fresh : requestsFresh mounted.
Proof. split; constructor. Qed.

Lemma pageRun_loops (es : list PageEvent) :
  forall o o' : Overlay,
    requestsFresh o ->
    existsb isUnmount es = false ->
    pageRun o es = Some o' ->
    (loops o <= loops o')%nat
    /\ (detectorRef o = true ->
        loops o' = (loops o + length (filter startsLoop es))%nat).
Proof.
  induction es as [| e es IH]; intros o o' F U R; cbn [pageRun] in R.
  - injection R as <-. cbn. split; [lia |]. intros _. lia.
  - destruct (pageStep o e) as [o1 |] eqn:S; [| discriminate].
    cbn [existsb] in U. apply orb_false_iff in U. destruct U as [U1 U2].
    destruct (pageStep_loops o o1 e F S) as (F1 & D1 & L1 & _).
    destruct (L1 U1) as [Le Eq].
    destruct (IH o1 o' F1 U2 R) as [Le' Eq'].
    split; [lia |]. intros D. rewrite (Eq' (D1 D)), (Eq D).
    cbn [filter]. destruct (startsLoop e); cbn; lia.
Qed.

(** X7. Once the model is loaded, every call of [startDetectionLoop]
    that finds a video and the canvas starts one more run of [loop], and
    no tick and no settled estimate ends one: until the component
    unmounts, the live runs are those there were plus one for every such
    call.  [tryStart] makes such a call every 500 ms. *)
Theorem every_start_adds_a_loop
    (es : list PageEvent) (o o' : Overlay) :
  requestsFresh o ->
  detectorRef o = true ->
  existsb isUnmount es = false ->
  pageRun o es = Some o' ->
  loops o' = (loops o + length (filter startsLoop es))%nat.
Proof.
  intros F D U R. exact (proj2 (pageRun_loops es o o' F U R) D).
Qed.

(** The model loads, [tryStart] fires three times, frames run between. *)
Lemma every_start_adds_a_loop_witness :
  exists o',
    pageRun (loaded (Some 4%Z) true 50 mounted)
            [TryStart (Some 4%Z) true 500; AnimationFrame 1 4%Z 516;
             TryStart (Some 4%Z) true 1000; AnimationFrame 2 4%Z 1016;
             TryStart (Some 4%Z) true 1500]
    = Some o'
    /\ loops o' = 4%nat.
Proof.
  eexists. split; [vm_compute; reflexivity |].
  apply (every_start_adds_a_loop
           [TryStart (Some 4%Z) true 500; AnimationFrame 1 4%Z 516;
            TryStart (Some 4%Z) true 1000; AnimationFrame 2 4%Z 1016;
            TryStart (Some 4%Z) true 1500]
           (loaded (Some 4%Z) true 50 mounted)).
  - split; [repeat constructor; intros [] | repeat constructor].
  - reflexivity.
  - reflexivity.
  - vm_compute. reflexivity.
Defined.

Lemma pageStep_unmounted (o o' : Overlay) (e : PageEvent) :
  unmounted o = true -> pageStep o e = Some o' ->
  unmounted o' = true /\ isUnmount e = false.
Proof.
  intros U S. destruct e as [video canvas now | video canvas now | h rs now
                            | canvas off oc |]; cbn [pageStep] in S.
  - injection S as <-. split; [| reflexivity]. unfold loaded.
    match goal with |- context [startDetectionLoop video canvas now ?x] =>
      destruct (start_loops video canvas now x) as (_ & _ & V & _) end.
    cbn zeta in V. now rewrite V.
  - rewrite U in S. discriminate.
  - destruct (existsb _ _); [| discriminate]. injection S as <-.
    split; [| reflexivity].
    destruct (enter_loops rs now (cancelAnimationFrame h o)) as (_ & _ & V & _).
    now rewrite V.
  - destruct (pending (refs o)) as [| n] eqn:P; [discriminate |].
    injection S as <-. split; [| reflexivity].
    destruct (settled_loops canvas off oc o n P) as (_ & _ & V & _).
    cbn zeta in V. now rewrite V.
  - rewrite U in S. discriminate.
Qed.

Lemma pageRun_unmounted (es : list PageEvent) :
  forall o o' : Overlay,
    unmounted o = true -> pageRun o es = Some o' -> existsb isUnmount es = false.
Proof.
  induction es as [| e es IH]; intros o o' U R; [reflexivity |].
  cbn [pageRun] in R. destruct (pageStep o e) as [o1 |] eqn:S; [| discriminate].
  destruct (pageStep_unmounted o o1 e U S) as [U1 N].
  cbn [existsb]. rewrite N. exact (IH o1 o' U1 R).
Qed.

(** X8. Unmounting cancels the one frame whose handle is in [rafRef]
    and nothing else: at most one run of [loop] ends, and whatever
    happens afterwards, the others go on asking for frames. *)
Theorem loops_outlive_unmount
    (es : list PageEvent) (o o' : Overlay) :
  requestsFresh o ->
  pageRun o (Unmount :: es) = Some o' ->
  (loops o <= S (loops o'))%nat.
Proof.
  intros F R. cbn [pageRun] in R.
  destruct (pageStep o Unmount) as [o1 |] eqn:S; [| discriminate].
  destruct (pageStep_loops o o1 Unmount F S) as (F1 & _ & _ & L).
  specialize (L eq_refl).
  assert (unmounted o1 = true) as U.
  { cbn [pageStep] in S. destruct (unmounted o); [discriminate |].
    now injection S as <-. }
  pose proof (pageRun_unmounted es o1 o' U R) as N.
  destruct (pageRun_loops es o1 o' F1 N R) as [Le _]. lia.
Qed.

(** Three runs are alive when the component unmounts; two go on. *)
Lemma loops_outlive_unmount_witness :
  exists o o',
    pageRun (loaded (Some 4%Z) true 50 mounted)
            [TryStart (Some 4%Z) true 500; TryStart (Some 4%Z) true 1000]
    = Some o
    /\ loops o = 3%nat
    /\ pageRun o [Unmount; AnimationFrame 1 4%Z 1016] = Some o'
    /\ loops o' = 2%nat
    /\ (loops o <= S (loops o'))%nat.
Proof.
  eexists. eexists. split; [vm_compute; reflexivity |]. split; [reflexivity |].
  split; [vm_compute; reflexivity |]. split; [reflexivity |].
  apply (loops_outlive_unmount [AnimationFrame 1 4%Z 1016]).
  - split.
    + repeat (constructor; [cbn; intuition discriminate |]). constructor.
    + repeat constructor.
  - vm_compute. reflexivity.
Defined.

End HandDetectionOverlayFacts.

(** ** The recorder *)

Module WebcamFieldFacts.

Import WebcamField.

Lemma frameInterval_value : frameInterval == 200 # 3.
Proof. reflexivity. Qed.

Lemma tickPeriod_value : tickPeriod = 53%Z.
Proof. reflexivity. Qed.

(** 66.66666666666667: the double next above 200/3. *)
Lemma frameIntervalDouble_value :
  frameIntervalDouble == (200 # 3) + (1 # 211106232532992).
Proof. vm_compute. reflexivity. Qed.

(** 13.333333333333336: 40/3 and a third of 2^-47. *)
Lemma toleranceDouble_value :
  toleranceDouble == (40 # 3) + (1 # 422212465065984).
Proof. vm_compute. reflexivity. Qed.

(** The two edges of the test, with the difference taken exactly. *)
Lemma band_edges :
  frameIntervalDouble - toleranceDouble == (160 # 3) + (1 # 422212465065984)
  /\ frameIntervalDouble + toleranceDouble == 80 + (1 # 140737488355328).
Proof. split; vm_compute; reflexivity. Qed.

(** The tolerance band in numbers: more than 53 1/3 ms (and a third of
    2^-47) and at most 80 ms since the frame taken last. *)
Lemma inBand_iff (d : Q) :
  inBand d = true <-> (160 # 3) + (1 # 422212465065984) < d /\ d <= 80.
Proof.
  unfold inBand.
  rewrite andb_true_iff, Qltb_lt, Qle_bool_iff,
    frameIntervalDouble_value, toleranceDouble_value, frameInterval_value.
  split; intros [A B]; split; lra.
Qed.

Lemma inBand_false_iff (d : Q) :
  inBand d = false <-> d <= (160 # 3) + (1 # 422212465065984) \/ 80 < d.
Proof.
  rewrite <- not_true_iff_false, inBand_iff. split.
  - intros N.
    destruct (Qlt_le_dec ((160 # 3) + (1 # 422212465065984)) d) as [A | A];
      [| now left].
    destruct (Qlt_le_dec 80 d) as [B | B]; [now right |].
    exfalso. now apply N.
  - intros [A | A] [B C]; lra.
Qed.

(** On times in whole milliseconds the band is 54 ms to 80 ms. *)
Lemma inBand_whole (ms : Z) : inBand (inject_Z ms) = true <-> (54 <= ms <= 80)%Z.
Proof.
  rewrite inBand_iff. split.
  - intros [A B]. split.
    + assert (inject_Z 53 < inject_Z ms) as L by (change (inject_Z 53) with 53; lra).
      rewrite <- Zlt_Qlt in L. lia.
    + change 80 with (inject_Z 80) in B. now rewrite <- Zle_Qle in B.
  - intros [A B]. rewrite Zle_Qle in A, B.
    change (inject_Z 54) with 54 in A. change (inject_Z 80) with 80 in B.
    split; lra.
Qed.

(** A time that is 16 ms or more from [frameInterval] fails the test of
    the doubles, whatever the rounding of the difference. *)
Lemma inBandDouble_far (d : Q) :
  16 <= Qabs (d - frameIntervalDouble) -> inBandDouble d = false.
Proof.
  intros F. unfold inBandDouble. apply Qltb_ge.
  pose proof (double_above (d - frameIntervalDouble) 4 F) as G.
  change (2 ^ 4) with 16 in G. rewrite toleranceDouble_value. lra.
Qed.

(** On every time in whole milliseconds, which is what [Date.now()]
    gives, the band is the test as the doubles compute it. *)
Lemma inBand_whole_ms (ms : Z) : inBand (inject_Z ms) = inBandDouble (inject_Z ms).
Proof.
  destruct (Z_lt_le_dec ms 0) as [Neg | Pos];
    [| destruct (Z_lt_le_dec 200 ms) as [Big | Small]].
  - rewrite Zlt_Qlt in Neg. change (inject_Z 0) with 0 in Neg.
    rewrite inBandDouble_far.
    + apply not_true_iff_false. rewrite inBand_iff. intros [A _]. lra.
    + rewrite frameIntervalDouble_value, Qabs_neg; lra.
  - rewrite Zlt_Qlt in Big. change (inject_Z 200) with 200 in Big.
    rewrite inBandDouble_far.
    + apply not_true_iff_false. rewrite inBand_iff. intros [_ A]. lra.
    + rewrite frameIntervalDouble_value, Qabs_pos; lra.
  - assert (In ms (map Z.of_nat (seq 0 201))) as I.
    { apply in_map_iff. exists (Z.to_nat ms). split; [lia |]. apply in_seq. lia. }
    assert (forallb (fun n => Bool.eqb (inBand (inject_Z n)) (inBandDouble (inject_Z n)))
                    (map Z.of_nat (seq 0 201)) = true) as All
        by (vm_compute; reflexivity).
    rewrite forallb_forall in All. apply eqb_prop. now apply All.
Qed.

Lemma inBand_wd (d d' : Q) : d == d' -> inBand d = inBand d'.
Proof.
  intros E. apply eq_true_iff_eq. rewrite !inBand_iff, E. reflexivity.
Qed.

(** Between two readings of [Date.now()] the tick takes a frame exactly
    when the test of the doubles passes on their difference. *)
Lemma accepts_whole_ms (now last : Z) (shot : option Frame) (c : Closure) :
  lastFrameTime c = inject_Z last ->
  accepts (inject_Z now) shot c
  = truthy shot && inBandDouble (inject_Z (now - last)).
Proof.
  intros L. unfold accepts. rewrite L, <- inBand_whole_ms. f_equal.
  apply inBand_wd. unfold Zminus. rewrite inject_Z_plus, inject_Z_opp. ring.
Qed.

(** The doubles next to the two edges: 53.333333333333336 fails and the
    double after it passes; 80 passes and the double after it fails. *)
Example inBand_at_the_edges :
  let ulp := 1 # 140737488355328 in
  let low := (160 # 3) + (1 # 422212465065984) in
  double low == low
  /\ inBandDouble low = false /\ inBand low = false
  /\ inBandDouble (low + ulp) = true /\ inBand (low + ulp) = true
  /\ double (80 + 2 * ulp) == 80 + 2 * ulp
  /\ inBandDouble 80 = true /\ inBand 80 = true
  /\ inBandDouble (80 + 2 * ulp) = false /\ inBand (80 + 2 * ulp) = false.
Proof. vm_compute. repeat split. Qed.

Lemma truthy_some (shot : option Frame) :
  truthy shot = true -> exists frame, shot = Some frame /\ frame <> EmptyString.
Proof.
  destruct shot as [[| a f] |]; simpl; try discriminate.
  intros _. exists (String a f). split; [reflexivity | discriminate].
Qed.

(** The two outcomes of the first half of a tick. *)
Lemma sample_cases (currentTime : Q) (shot : option Frame) (c : Closure) :
  (accepts currentTime shot c = true
   /\ exists frame,
       shot = Some frame
       /\ sample currentTime shot c
          = {| frames := frames c ++ [frame]; startTime := startTime c;
               lastFrameTime := currentTime |})
  \/ (accepts currentTime shot c = false /\ sample currentTime shot c = c).
Proof.
  unfold sample. destruct (accepts currentTime shot c) eqn:A.
  - left. split; [reflexivity |].
    destruct shot as [frame |]; [| discriminate A]. now exists frame.
  - right. split; [reflexivity |]. now destruct shot.
Qed.

Lemma sample_startTime (currentTime : Q) (shot : option Frame) (c : Closure) :
  startTime (sample currentTime shot c) = startTime c.
Proof.
  destruct (sample_cases currentTime shot c) as [(_ & f & _ & ->) | (_ & ->)];
    reflexivity.
Qed.

Lemma expired_sample (t currentTime : Q) (shot : option Frame) (c : Closure) :
  expired t (sample currentTime shot c) = expired t c.
Proof. unfold expired. now rewrite sample_startTime. Qed.

Lemma inject_succ (k : nat) :
  inject_Z (Z.of_nat (S k)) == inject_Z (Z.of_nat k) + 1.
Proof. rewrite Nat2Z.inj_succ. unfold Z.succ. now rewrite inject_Z_plus. Qed.

Lemma inject_le (k n : nat) :
  (k <= n)%nat -> inject_Z (Z.of_nat k) <= inject_Z (Z.of_nat n).
Proof. intros L. rewrite <- Zle_Qle. lia. Qed.

(** A clock that advances by 66.7 ms: as long as the session lasts
    (45 ticks) every tick with a screenshot adds a frame. *)
Lemma record_steady (start : Q) (shots : list (option Frame)) :
  forall (k : nat) (c : Closure),
    Forall (fun shot => truthy shot = true) shots ->
    (k + length shots <= 45)%nat ->
    startTime c = start ->
    lastFrameTime c == start + inject_Z (Z.of_nat k) * 66.7 ->
    length (frames (fst (record (clock start 66.7 k shots) c)))
    = (length (frames c) + length shots)%nat.
Proof.
  induction shots as [| shot rest IH]; intros k c T B S L.
  - simpl. lia.
  - inversion T as [| ? ? T1 T2]; subst.
    cbn [clock record List.length].
    pose proof (inject_succ k) as K.
    set (t := startTime c + inject_Z (Z.of_nat (S k)) * 66.7) in *.
    assert (accepts t shot c = true) as A.
    { apply andb_true_iff. split; [exact T1 |]. apply inBand_iff.
      unfold t. split; lra. }
    destruct (sample_cases t shot c) as [(_ & f & _ & E) | (N & _)];
      [| congruence].
    assert (length (frames (sample t shot c)) = S (length (frames c))) as Len.
    { rewrite E. simpl. rewrite length_app. simpl. lia. }
    destruct rest as [| shot' rest'].
    + cbn [clock record]. destruct (expired t c); cbn [fst List.length];
        rewrite Len; lia.
    + assert (expired t c = false) as X.
      { apply Qgeb_lt. unfold RECORDING_DURATION, t.
        assert (inject_Z (Z.of_nat (S k)) <= inject_Z (Z.of_nat 44)) as I
            by (apply inject_le; simpl in B; lia).
        change (inject_Z (Z.of_nat 44)) with 44 in I. lra. }
      rewrite X. rewrite (IH (S k) (sample t shot c)); trivial.
      * rewrite Len. simpl. lia.
      * simpl in *. lia.
      * apply sample_startTime.
      * rewrite E. simpl. reflexivity.
Qed.

(** A session whose ticks all come before the deadline is not over. *)
Lemma record_open (ticks : list (Q * option Frame)) :
  forall c : Closure,
    Forall (fun tk => fst tk - startTime c < RECORDING_DURATION) ticks ->
    snd (record ticks c) = false.
Proof.
  induction ticks as [| [t shot] rest IH]; intros c F; [reflexivity |].
  inversion F as [| ? ? F1 F2]; subst. cbn [record].
  apply Qgeb_lt in F1. unfold expired. cbn [fst] in F1. rewrite F1.
  apply IH. now rewrite sample_startTime.
Qed.

(** The first 44 ticks of the 66.7 ms clock come before the deadline. *)
Lemma clock_before_deadline (start : Q) (shots : list (option Frame)) :
  forall k : nat,
    (k + length shots <= 44)%nat ->
    Forall (fun tk => fst tk - start < RECORDING_DURATION) (clock start 66.7 k shots).
Proof.
  induction shots as [| shot rest IH]; intros k B; [constructor |].
  cbn [clock]. constructor.
  - cbn [fst]. unfold RECORDING_DURATION.
    assert (inject_Z (Z.of_nat (S k)) <= inject_Z (Z.of_nat 44)) as I
        by (apply inject_le; simpl in B; lia).
    change (inject_Z (Z.of_nat 44)) with 44 in I. lra.
  - apply IH. simpl in B. lia.
Qed.

(** Once a tick comes more than 80 ms after the frame taken last, that
    tick and all ticks at later times leave the closure as it is. *)
Lemma record_frozen (now : Q) (ticks : list (Q * option Frame)) :
  forall c : Closure,
    80 < now - lastFrameTime c ->
    Forall (fun tk => now <= fst tk) ticks ->
    fst (record ticks c) = c.
Proof.
  induction ticks as [| [t shot] rest IH]; intros c L F; [reflexivity |].
  inversion F as [| ? ? F1 F2]; subst. simpl in F1.
  assert (sample t shot c = c) as E.
  { destruct (sample_cases t shot c) as [(A & _) | (_ & E)]; [| exact E].
    apply andb_true_iff in A. destruct A as [_ A].
    apply inBand_iff in A. lra. }
  cbn [record]. rewrite E.
  destruct (expired t c); [reflexivity | now apply IH].
Qed.

(** Ticks that fire every 53 ms from the start never take a frame. *)
Lemma record_on_schedule (start : Q) (shots : list (option Frame)) :
  forall k : nat,
    fst (record (clock start 53 k shots) (fresh start)) = fresh start.
Proof.
  induction shots as [| shot rest IH]; intros k; [reflexivity |].
  cbn [clock record].
  set (t := start + inject_Z (Z.of_nat (S k)) * 53).
  assert (sample t shot (fresh start) = fresh start) as E.
  { destruct (sample_cases t shot (fresh start)) as [(A & _) | (_ & E)];
      [| exact E].
    apply andb_true_iff in A. destruct A as [_ A].
    apply inBand_iff in A. unfold t in A. simpl lastFrameTime in A.
    destruct k as [| k].
    - change (inject_Z (Z.of_nat 1)) with 1 in A. lra.
    - assert (inject_Z (Z.of_nat 2) <= inject_Z (Z.of_nat (S (S k)))) as I
          by (apply inject_le; lia).
      change (inject_Z (Z.of_nat 2)) with 2 in I. lra. }
  rewrite E. destruct (expired t (fresh start)); [reflexivity | apply IH].
Qed.

(** C10. [lastFrameTime] moves only on a tick that takes a frame.  So
    once a tick comes more than 1.2 times [frameInterval] after the frame
    taken last, neither it nor any tick at a later time of the session
    takes a frame or moves [lastFrameTime].  The interval is set to
    [Math.floor(frameInterval * 0.8)] = 53 ms, which is outside the band:
    when the timer fires exactly every 53 ms the session takes no frame. *)
Theorem acceptance_window_has_no_recovery :
  (forall (t : Q) (shot : option Frame) (c : Closure),
      accepts t shot c = false -> sample t shot c = c)
  /\ (forall (now : Q) (c : Closure) (ticks : list (Q * option Frame)),
         1.2 * frameInterval < now - lastFrameTime c ->
         Forall (fun tk => now <= fst tk) ticks ->
         fst (record ticks c) = c)
  /\ tickPeriod = Qfloor (frameInterval * 0.8)
  /\ tickPeriod = 53%Z
  /\ inBand (inject_Z tickPeriod) = false
  /\ (forall (start : Q) (shots : list (option Frame)),
         fst (record (clock start (inject_Z tickPeriod) 0 shots) (fresh start))
         = fresh start).
Proof.
  split; [| split; [| repeat split]].
  - intros t shot c A.
    destruct (sample_cases t shot c) as [(A' & _) | (_ & E)];
      [congruence | exact E].
  - intros now c ticks L F. apply (record_frozen now); trivial.
    rewrite frameInterval_value in L. lra.
  - intros start shots. apply record_on_schedule.
Qed.

(** A tick 81 ms after the start, followed by ticks 60 ms apart. *)
Lemma acceptance_window_has_no_recovery_witness :
  sample 53 (Some "f"%string) (fresh 0) = fresh 0
  /\ fst (record [(81, Some "a"%string); (141, Some "b"%string);
                  (201, Some "c"%string)] (fresh 0))
     = fresh 0.
Proof.
  split.
  - apply (proj1 acceptance_window_has_no_recovery). reflexivity.
  - apply (proj1 (proj2 acceptance_window_has_no_recovery) 81).
    + reflexivity.
    + repeat constructor; discriminate.
Defined.



Lemma length_le_56 (n : nat) (d : Q) :
  inject_Z (Z.of_nat n) * (160 # 3) <= d -> d < 3000 -> (n <= 56)%nat.
Proof.
  intros A B.
  assert (inject_Z (Z.of_nat n) < inject_Z 57) as L
      by (change (inject_Z 57) with 57; lra).
  rewrite <- Zlt_Qlt in L. lia.
Qed.

(** Frames are more than 53 1/3 ms apart and all but the last one are
    taken before the deadline, which leaves room for 57 of them. *)
Lemma record_bound (ticks : list (Q * option Frame)) :
  forall c : Closure,
    inject_Z (Z.of_nat (length (frames c))) * (160 # 3)
    <= lastFrameTime c - startTime c ->
    lastFrameTime c - startTime c < 3000 ->
    (length (frames (fst (record ticks c))) <= 57)%nat.
Proof.
  induction ticks as [| [t shot] rest IH]; intros c A B.
  - simpl. pose proof (length_le_56 _ _ A B). lia.
  - cbn [record].
    assert (length (frames (sample t shot c)) <= S (length (frames c)))%nat as Len.
    { destruct (sample_cases t shot c) as [(_ & f & _ & ->) | (_ & ->)]; simpl.
      - rewrite length_app. simpl. lia.
      - lia. }
    destruct (expired t c) eqn:X.
    + cbn [fst]. pose proof (length_le_56 _ _ A B). lia.
    + apply Qgeb_lt in X. unfold RECORDING_DURATION in X.
      destruct (sample_cases t shot c) as [(Acc & f & _ & E) | (_ & E)];
        rewrite E; [| rewrite <- E at 1; rewrite E; now apply IH].
      apply IH; simpl; [| exact X].
      apply andb_true_iff in Acc. destruct Acc as [_ Acc].
      apply inBand_iff in Acc.
      rewrite length_app. simpl length.
      replace (length (frames c) + 1)%nat with (S (length (frames c))) by lia.
      rewrite inject_succ. lra.
Qed.




(** The bound is reached: ticks 53.4 ms apart are all taken, the 57th at
    3043.8 ms. *)
Example fifty_seven_frames :
  length (frames (fst (record (clock 0 53.4 0 (repeat (Some "f"%string) 60))
                              (fresh 0))))
  = 57%nat.
Proof. vm_compute. reflexivity. Qed.

(** *** The timer table *)

Lemma lookup_clear_same (h : Handle) (l : list (Handle * Timer)) :
  lookup h (clear h l) = None.
Proof.
  induction l as [| [k t] l IH]; [reflexivity |].
  unfold clear in *. simpl. destruct (Pos.eqb_spec k h) as [E | E]; simpl.
  - exact IH.
  - destruct (Pos.eqb_spec k h); [contradiction | exact IH].
Qed.

Lemma lookup_clear_other (h k : Handle) (l : list (Handle * Timer)) :
  h <> k -> lookup k (clear h l) = lookup k l.
Proof.
  intros N. induction l as [| [j t] l IH]; [reflexivity |].
  unfold clear in *. simpl. destruct (Pos.eqb_spec j h) as [E | E]; simpl.
  - subst j. destruct (Pos.eqb_spec h k); [contradiction | exact IH].
  - now rewrite IH.
Qed.

Lemma lookup_store_same (h : Handle) (t t0 : Timer) (l : list (Handle * Timer)) :
  lookup h l = Some t0 -> lookup h (store h t l) = Some t.
Proof.
  induction l as [| [k u] l IH]; [discriminate |].
  simpl. destruct (Pos.eqb_spec k h) as [E | E]; simpl.
  - now rewrite Pos.eqb_refl.
  - destruct (Pos.eqb_spec k h); [contradiction | exact IH].
Qed.

Lemma lookup_fresh (h : Handle) (l : list (Handle * Timer)) :
  Forall (fun kt => (fst kt < h)%positive) l -> lookup h l = None.
Proof.
  induction 1 as [| [k t] l L _ IH]; [reflexivity |].
  simpl in *. destruct (Pos.eqb_spec k h); [lia | exact IH].
Qed.

Lemma clear_fresh (h : Handle) (l : list (Handle * Timer)) :
  Forall (fun kt => (fst kt < h)%positive) l -> clear h l = l.
Proof.
  induction 1 as [| [k t] l L _ IH]; [reflexivity |].
  unfold clear in *. simpl in *.
  destruct (Pos.eqb_spec k h); [lia |]. simpl. now rewrite IH.
Qed.

Lemma lookup_app (h : Handle) (l1 l2 : list (Handle * Timer)) :
  lookup h (l1 ++ l2)
  = match lookup h l1 with Some t => Some t | None => lookup h l2 end.
Proof.
  induction l1 as [| [k t] l1 IH]; [reflexivity |].
  simpl. now destruct (k =? h)%positive.
Qed.

Lemma clear_app (h : Handle) (l1 l2 : list (Handle * Timer)) :
  clear h (l1 ++ l2) = clear h l1 ++ clear h l2.
Proof. apply filter_app. Qed.

(** *** Ticks of the sampling interval as steps of the component *)

Lemma commit_same_deps (old new : State) :
  countdown new = countdown old ->
  isCountingDown new = isCountingDown old ->
  commit old new = new.
Proof.
  intros C D. unfold commit, depsChanged.
  now rewrite C, D, Z.eqb_refl, eqb_reflx.
Qed.

Lemma collect_deps (h : Handle) (t : Q) (shot : option Frame) (c : Closure)
    (s : State) :
  countdown (collect h t shot c s) = countdown s
  /\ isCountingDown (collect h t shot c s) = isCountingDown s.
Proof.
  unfold collect.
  destruct (accepts t shot c), (expired t c); simpl;
    try (split; reflexivity);
    destruct (frameCollectorRef s); split; reflexivity.
Qed.

Lemma step_collector (h : Handle) (t : Q) (shot : option Frame) (c : Closure)
    (s : State) :
  lookup h (timers s) = Some (FrameCollector c) ->
  step s (Fires h t shot) = Some (collect h t shot c s).
Proof.
  intros L. unfold step, fires. rewrite L.
  destruct (collect_deps h t shot c s) as [C D].
  now rewrite commit_same_deps.
Qed.

(** A tick before the deadline: the interval goes on with the sampled
    closure, and nothing is delivered. *)
Lemma collect_running (h : Handle) (t : Q) (shot : option Frame) (c : Closure)
    (s : State) :
  lookup h (timers s) = Some (FrameCollector c) ->
  expired t c = false ->
  lookup h (timers (collect h t shot c s)) = Some (FrameCollector (sample t shot c))
  /\ frameCollectorRef (collect h t shot c s) = frameCollectorRef s
  /\ captured (collect h t shot c s) = captured s
  /\ isRecording (collect h t shot c s) = isRecording s.
Proof.
  intros L X. unfold collect. rewrite X.
  destruct (accepts t shot c); simpl;
    (split; [now apply lookup_store_same with (t0 := FrameCollector c) | auto]).
Qed.

(** The tick that finds the duration elapsed: the interval named by
    [frameCollectorRef] is cleared, the frames are delivered, and the
    progress is put back to 0. *)
Lemma collect_expired (h : Handle) (t : Q) (shot : option Frame) (c : Closure)
    (s : State) :
  frameCollectorRef s = Some h ->
  expired t c = true ->
  lookup h (timers (collect h t shot c s)) = None
  /\ captured (collect h t shot c s) = captured s ++ [frames (sample t shot c)]
  /\ isRecording (collect h t shot c s) = false
  /\ recordingProgress (collect h t shot c s) = 0.
Proof.
  intros R X. unfold collect. rewrite X.
  destruct (accepts t shot c); simpl; rewrite R; simpl;
    (split; [apply lookup_clear_same | auto]).
Qed.

(** The session of a closure is what the component does with the ticks
    of its interval: while it runs the table holds the closure that
    [record] computes. *)
Lemma run_session_running (h : Handle) (ticks : list (Q * option Frame)) :
  forall (c : Closure) (s : State),
    frameCollectorRef s = Some h ->
    lookup h (timers s) = Some (FrameCollector c) ->
    snd (record ticks c) = false ->
    exists s',
      run s (sampling h ticks) = Some s'
      /\ frameCollectorRef s' = Some h
      /\ lookup h (timers s') = Some (FrameCollector (fst (record ticks c)))
      /\ captured s' = captured s.
Proof.
  induction ticks as [| [t shot] rest IH]; intros c s R L D.
  - exists s. simpl. auto.
  - cbn [record] in *. cbn [sampling map run fst snd].
    rewrite (step_collector h t shot c s L).
    destruct (expired t c) eqn:X; [discriminate |].
    destruct (collect_running h t shot c s L X) as (L1 & R1 & C1 & _).
    destruct (IH (sample t shot c) (collect h t shot c s)) as (s' & Run & R' & L' & C');
      trivial; [congruence |].
    exists s'. repeat split; trivial. congruence.
Qed.

(** And when the session ends the component calls [onCapture] with the
    frames that [record] computes. *)
Lemma run_session_expired (h : Handle) (ticks : list (Q * option Frame))
    (t : Q) (shot : option Frame) (c : Closure) (s : State) :
  frameCollectorRef s = Some h ->
  lookup h (timers s) = Some (FrameCollector c) ->
  snd (record ticks c) = false ->
  expired t c = true ->
  exists s',
    run s (sampling h (ticks ++ [(t, shot)])) = Some s'
    /\ captured s' = captured s ++ [frames (fst (record (ticks ++ [(t, shot)]) c))]
    /\ lookup h (timers s') = None
    /\ isRecording s' = false.
Proof.
  revert c s.
  induction ticks as [| [u shot'] rest IH]; intros c s R L D X.
  - cbn [app sampling map run record fst snd].
    rewrite (step_collector h t shot c s L), X.
    destruct (collect_expired h t shot c s R X) as (L1 & C1 & I1 & _).
    exists (collect h t shot c s). auto.
  - cbn [record] in D. cbn [app sampling map run record fst snd].
    rewrite (step_collector h u shot' c s L).
    destruct (expired u c) eqn:Xu; [discriminate |].
    destruct (collect_running h u shot' c s L Xu) as (L1 & R1 & C1 & _).
    destruct (IH (sample u shot' c) (collect h u shot' c s))
      as (s' & Run & C' & L' & I'); trivial; [congruence | |].
    + now rewrite expired_sample.
    + exists s'. repeat split; trivial. now rewrite C', C1.
Qed.

(** *** Progress *)

Lemma progressOf_min (elapsed : Q) :
  progressOf elapsed == Qmin (elapsed / RECORDING_DURATION) 1 * 100.
Proof.
  unfold progressOf.
  destruct (Qlt_le_dec 1 (elapsed / RECORDING_DURATION)) as [L | L].
  - rewrite (Q.min_r (elapsed / RECORDING_DURATION) 1) by lra.
    rewrite Q.min_r by lra. reflexivity.
  - rewrite (Q.min_l (elapsed / RECORDING_DURATION) 1) by lra.
    rewrite Q.min_l by lra. reflexivity.
Qed.

Lemma progressOf_mono (e1 e2 : Q) : e1 <= e2 -> progressOf e1 <= progressOf e2.
Proof.
  intros L. unfold progressOf. apply Q.min_le_compat_r.
  unfold Qdiv. change (/ RECORDING_DURATION) with (1 # 3000). lra.
Qed.

Lemma progressOf_full (elapsed : Q) :
  RECORDING_DURATION <= elapsed -> progressOf elapsed == 100.
Proof.
  intros L. unfold progressOf. apply Q.min_r.
  unfold RECORDING_DURATION in L.
  unfold Qdiv. change (/ RECORDING_DURATION) with (1 # 3000). lra.
Qed.

(** C8, as the specification has it, fails: the tick that finds the
    duration elapsed reports 100 and then puts the progress back to 0.
    In a first session started at time 0 with ticks 60 ms apart, the
    progress is 98 after the tick at 2940 ms; after the tick at 3000 ms
    it is 0, not 100, and has gone down. *)
Lemma progress_is_zero_after_the_last_tick :
  exists s s1 s2,
    recordingFromZero = Some s
    /\ run s (sampling 7 (clock 0 60 0 (repeat (Some "f"%string) 49))) = Some s1
    /\ step s1 (Fires 7 3000 (Some "f"%string)) = Some s2
    /\ recordingProgress s1 == 98
    /\ recordingProgress s2 == 0
    /\ skipn 48 (progressLog s2) = [progressOf 2940; progressOf 3000; 0]
    /\ ~ recordingProgress s2 == Qmin (3000 / RECORDING_DURATION) 1 * 100
    /\ ~ recordingProgress s1 <= recordingProgress s2.
Proof.
  eexists. eexists. eexists.
  split; [vm_compute; reflexivity |].
  split; [vm_compute; reflexivity |].
  split; [vm_compute; reflexivity |].
  split; [reflexivity |]. split; [reflexivity |].
  split; [vm_compute; reflexivity |].
  split; intros H; vm_compute in H; [discriminate | now apply H].
Qed.

(** C8, amended.  Every tick of the sampling interval first calls
    [setRecordingProgress] with [min(elapsed / RECORDING_DURATION, 1) * 100],
    whether or not it takes the frame.  On a tick before the deadline
    that is the only call and the value the progress keeps; it does not
    decrease when the clock does not go back.  On the tick that finds the
    duration elapsed the value is 100, and a second call puts the
    progress back to 0 at once. *)
Theorem progress_reported_then_reset
    (h : Handle) (now : Q) (shot : option Frame) (c : Closure) (s : State) :
  lookup h (timers s) = Some (FrameCollector c) ->
  let elapsed := now - startTime c in
  let s' := collect h now shot c s in
  step s (Fires h now shot) = Some s'
  /\ progressOf elapsed == Qmin (elapsed / RECORDING_DURATION) 1 * 100
  /\ (elapsed < RECORDING_DURATION ->
      progressLog s' = progressLog s ++ [progressOf elapsed]
      /\ recordingProgress s' = progressOf elapsed)
  /\ (RECORDING_DURATION <= elapsed ->
      progressOf elapsed == 100
      /\ progressLog s' = progressLog s ++ [progressOf elapsed; 0]
      /\ recordingProgress s' = 0)
  /\ (forall later : Q,
         now <= later ->
         progressOf elapsed <= progressOf (later - startTime c)).
Proof.
  intros L elapsed s'. split; [now apply step_collector |].
  split; [apply progressOf_min |]. split; [| split].
  - intros B. apply Qgeb_lt in B. change (expired now c = false) in B.
    subst s'. unfold collect. rewrite B.
    destruct (accepts now shot c); split; reflexivity.
  - intros B. split; [now apply progressOf_full |].
    apply Qgeb_le in B. change (expired now c = true) in B.
    subst s'. unfold collect. rewrite B.
    destruct (accepts now shot c); simpl;
      destruct (frameCollectorRef s); simpl; rewrite <- app_assoc; auto.
  - intros later G. apply progressOf_mono. subst elapsed. lra.
Qed.

(** The ticks at 60 ms and at 3000 ms of a session started at 0. *)
Lemma progress_reported_then_reset_witness :
  let s := stabilized 0 (clearTimer 1 (startRecording initial)) in
  (progressLog (collect 2 60 None (fresh 0) s) = progressLog s ++ [progressOf (60 - 0)]
   /\ recordingProgress (collect 2 60 None (fresh 0) s) = progressOf (60 - 0))
  /\ (progressOf (3000 - 0) == 100
      /\ progressLog (collect 2 3000 None (fresh 0) s)
         = progressLog s ++ [progressOf (3000 - 0); 0]
      /\ recordingProgress (collect 2 3000 None (fresh 0) s) = 0)
  /\ progressOf (60 - 0) <= progressOf (120 - 0).
Proof.
  intros s.
  assert (lookup 2 (timers s) = Some (FrameCollector (fresh 0))) as L
      by reflexivity.
  split; [| split].
  - apply (proj1 (proj2 (proj2
             (progress_reported_then_reset 2 60 None (fresh 0) s L)))).
    reflexivity.
  - apply (proj1 (proj2 (proj2 (proj2
             (progress_reported_then_reset 2 3000 None (fresh 0) s L))))).
    discriminate.
  - apply (proj2 (proj2 (proj2 (proj2
             (progress_reported_then_reset 2 60 None (fresh 0) s L)))) 120).
    discriminate.
Defined.

(** *** Cancelling *)

Lemma cleanup_deps (s : State) :
  isCountingDown (cleanup s) = isCountingDown s
  /\ countdown (cleanup s) = countdown s.
Proof. unfold cleanup. destruct (effectTimer s); split; reflexivity. Qed.

(** Without a countdown the effect only runs its cleanup. *)
Lemma effect_not_counting (s : State) :
  isCountingDown s = false -> effect s = setEffectTimer None (cleanup s).
Proof.
  intros C. unfold effect.
  destruct (cleanup_deps s) as [D _]. rewrite D, C. reflexivity.
Qed.

(** Cancel during the countdown of a first session: the countdown
    timeout is cleared by the cleanup of the effect, and nothing else
    happens. *)
Lemma cancel_while_counting_down (s : State) :
  isCountingDown s = true ->
  frameCollectorRef s = None ->
  let s' := commit s (handleCancel s) in
  isCountingDown s' = false
  /\ countdown s' = 0%Z
  /\ effectTimer s' = None
  /\ timers s' = match effectTimer s with
                 | Some h => clear h (timers s)
                 | None => timers s
                 end
  /\ isRecording s' = isRecording s
  /\ captured s' = captured s.
Proof.
  intros C R.
  assert (handleCancel s = setCountdown 0 (setIsCountingDown false s)) as E
      by (unfold handleCancel; simpl; now rewrite R).
  rewrite E. set (n := setCountdown 0 (setIsCountingDown false s)).
  assert (depsChanged s n = true) as D1.
  { unfold depsChanged. simpl. rewrite C. simpl. now rewrite andb_false_r. }
  assert (effect n = setEffectTimer None (cleanup n)) as E1
      by now apply effect_not_counting.
  assert (depsChanged n (effect n) = false) as D2.
  { rewrite E1. unfold depsChanged. simpl.
    destruct (cleanup_deps n) as [A B]. now rewrite A, B. }
  unfold commit. rewrite D1, D2, E1.
  unfold cleanup. subst n. simpl. destruct (effectTimer s); simpl; auto 10.
Qed.

(** Cancel while the sampling interval runs: the interval is cleared,
    the flags are down and nothing is delivered. *)
Lemma cancel_while_recording (s : State) (h : Handle) :
  frameCollectorRef s = Some h ->
  isCountingDown s = false ->
  countdown s = 0%Z ->
  let s' := commit s (handleCancel s) in
  timers s' = clear h (timers s)
  /\ lookup h (timers s') = None
  /\ isCountingDown s' = false
  /\ isRecording s' = false
  /\ recordingProgress s' = 0
  /\ captured s' = captured s.
Proof.
  intros R C Z. unfold commit, handleCancel. simpl. rewrite R.
  unfold depsChanged. simpl. rewrite C, Z. simpl.
  repeat split. apply lookup_clear_same.
Qed.

(** Cancel when nothing is going on changes nothing that can be seen:
    no timer, no flag, no delivery. *)
Lemma cancel_when_idle (s : State) :
  idle s = true ->
  countdown s = 0%Z ->
  let s' := commit s (handleCancel s) in
  idle s' = true /\ captured s' = captured s /\ timers s' = [].
Proof.
  unfold idle. intros I Z.
  apply andb_true_iff in I. destruct I as [I T].
  apply andb_true_iff in I. destruct I as [C R].
  apply negb_true_iff in C. apply negb_true_iff in R.
  destruct (timers s) eqn:E; [| discriminate].
  unfold commit, handleCancel. simpl.
  unfold depsChanged. simpl. rewrite C, Z. simpl.
  destruct (frameCollectorRef s); simpl; rewrite ?E, ?C, ?R; auto.
Qed.

(** Both cancellations on runs of the component: after two ticks of the
    countdown, and after two ticks of the sampling interval. *)
Example cancel_returns_to_idle :
  (exists s,
      run initial [ClickTry false; Fires 1 0 None; Fires 2 0 None; ClickCancel]
      = Some s
      /\ idle s = true /\ captured s = [])
  /\ (exists s,
         run initial
             (tryAndCountDown
                ++ [Fires 6 0 None; Fires 7 60 (Some "a"%string);
                    Fires 7 120 (Some "b"%string); ClickCancel])
         = Some s
         /\ idle s = true /\ captured s = []).
Proof.
  split; eexists; (split; [vm_compute; reflexivity | split; reflexivity]).
Qed.

(** C3 fails on the stabilization delay.  [startRecording] drops the
    handle of its timeout and [handleCancel] looks at [frameCollectorRef]
    only, which is still [null] in a first session.  So a click on Cancel
    between the end of the countdown and the end of the delay leaves the
    component exactly as it was, with [isRecording] set and the timeout
    pending; the timeout then starts the sampling interval, and at the end
    of the session [onCapture] is called with the 50 frames. *)
Theorem cancel_while_stabilizing_still_captures :
  exists s s',
    run initial tryAndCountDown = Some s
    /\ isCountingDown s = false
    /\ isRecording s = true
    /\ frameCollectorRef s = None
    /\ timers s = [(6%positive, StabilizationTimeout)]
    /\ step s ClickCancel = Some s
    /\ run s (ClickCancel :: Fires 6 0 None
                :: sampling 7 (clock 0 60 0 (repeat (Some "f"%string) 50)))
       = Some s'
    /\ captured s' = [repeat "f"%string 50]
    /\ idle s = false.
Proof.
  eexists. eexists.
  split; [vm_compute; reflexivity |].
  split; [reflexivity |]. split; [reflexivity |]. split; [reflexivity |].
  split; [reflexivity |].
  split; [vm_compute; reflexivity |].
  split; [vm_compute; reflexivity |].
  split; reflexivity.
Qed.

(** In a later session [frameCollectorRef] still holds the handle of the
    interval of the session before.  Cancel during the delay then lowers
    [isRecording], but the timeout stays and the session is recorded and
    delivered all the same. *)
Example cancel_while_stabilizing_again :
  exists s s1 s2,
    run initial
        (tryAndCountDown
           ++ Fires 6 0 None
           :: sampling 7 (clock 0 60 0 (repeat (Some "f"%string) 50))
           ++ [ClickTry false; Fires 8 0 None; Fires 9 0 None; Fires 10 0 None;
               Fires 11 0 None; Fires 12 0 None])
    = Some s
    /\ timers s = [(13%positive, StabilizationTimeout)]
    /\ step s ClickCancel = Some s1
    /\ isRecording s1 = false
    /\ timers s1 = [(13%positive, StabilizationTimeout)]
    /\ run s1 (Fires 13 9000 None
                 :: sampling 14 (clock 9000 60 0 (repeat (Some "g"%string) 50)))
       = Some s2
    /\ captured s2 = [repeat "f"%string 50; repeat "g"%string 50].
Proof.
  eexists. eexists. eexists.
  split; [vm_compute; reflexivity |].
  split; [reflexivity |].
  split; [vm_compute; reflexivity |].
  split; [reflexivity |]. split; [reflexivity |].
  split; [vm_compute; reflexivity |].
  reflexivity.
Qed.

(** *** Starting again *)

(** C9, as the specification has it, fails: [startRecording] clears
    nothing.  Called while the interval 7 of a first session runs, it
    sets a second stabilization timeout; when that fires, a second
    interval is set, the first one is still in the table, and two
    intervals run side by side. *)
Lemma reentrant_start_runs_two_collectors :
  exists s s2,
    run initial (tryAndCountDown ++ [Fires 6 0 None; Fires 7 60 (Some "a"%string)])
    = Some s
    /\ map fst (collectors s) = [7%positive]
    /\ map fst (timers (startRecording s)) = [7%positive; 8%positive]
    /\ fires 8 500 None (startRecording s) = Some s2
    /\ map fst (collectors s2) = [7%positive; 9%positive]
    /\ frameCollectorRef s2 = Some 9%positive
    /\ length (collectors s2) = 2%nat.
Proof.
  eexists. eexists.
  split; [vm_compute; reflexivity |].
  split; [reflexivity |]. split; [reflexivity |].
  split; [vm_compute; reflexivity |].
  split; [reflexivity |]. split; reflexivity.
Qed.

(** C9, amended.  [startRecording] clears no timer: it adds its
    stabilization timeout to the timers that are set.  When the timeout
    fires, its callback sets a new sampling interval and stores the new
    handle in [frameCollectorRef]; an interval that was running before
    still runs, with its closure, so there is one more than before.
    The one guard is the Try button, which is refused while
    [isCountingDown] or [isRecording] is set.  The two flags do not
    follow the intervals: after a Cancel in the stabilization delay of a
    second session ([cancelledInTheDelay]) both flags are down and the
    interval 14 is set; Try is accepted, and when its countdown and its
    delay have passed with the interval 14 still set, the interval 21 is
    set next to it. *)
Theorem start_recording_keeps_prior_collector
    (s : State) (h : Handle) (c : Closure) (now : Q) (shot : option Frame) :
  handlesFresh s ->
  lookup h (timers s) = Some (FrameCollector c) ->
  timers (startRecording s) = timers s ++ [(nextHandle s, StabilizationTimeout)]
  /\ (exists s2,
         fires (nextHandle s) now shot (startRecording s) = Some s2
         /\ timers s2
            = timers s ++ [(Pos.succ (nextHandle s), FrameCollector (fresh now))]
         /\ frameCollectorRef s2 = Some (Pos.succ (nextHandle s))
         /\ lookup h (timers s2) = Some (FrameCollector c)
         /\ length (collectors s2) = S (length (collectors s)))
  /\ (forall disabled,
         isCountingDown s || isRecording s = true ->
         step s (ClickTry disabled) = None)
  /\ (exists s1 s2 s3 : State,
         run initial cancelledInTheDelay = Some s1
         /\ isCountingDown s1 = false
         /\ isRecording s1 = false
         /\ map fst (collectors s1) = [14%positive]
         /\ step s1 (ClickTry false) = Some s2
         /\ run s2 [Fires 15 0 None; Fires 16 0 None; Fires 17 0 None;
                    Fires 18 0 None; Fires 19 0 None; Fires 20 0 None]
            = Some s3
         /\ map fst (collectors s3) = [14%positive; 21%positive]
         /\ frameCollectorRef s3 = Some 21%positive).
Proof.
  intros F L. split; [reflexivity |]. split; [| split].
  - set (k := nextHandle s).
    assert (clear k (timers s ++ [(k, StabilizationTimeout)]) = timers s) as C.
    { rewrite clear_app, (clear_fresh k _ F). unfold clear. simpl.
      rewrite Pos.eqb_refl. simpl. apply app_nil_r. }
    assert (lookup k (timers (startRecording s)) = Some StabilizationTimeout) as K.
    { change (timers (startRecording s))
        with (timers s ++ [(k, StabilizationTimeout)]).
      rewrite lookup_app, (lookup_fresh k _ F). simpl.
      now rewrite Pos.eqb_refl. }
    unfold fires. rewrite K.
    exists (stabilized now (clearTimer k (startRecording s))).
    split; [reflexivity |].
    assert (timers (stabilized now (clearTimer k (startRecording s)))
            = timers s ++ [(Pos.succ k, FrameCollector (fresh now))]) as T.
    { change (timers (stabilized now (clearTimer k (startRecording s))))
        with (clear k (timers s ++ [(k, StabilizationTimeout)])
                ++ [(Pos.succ k, FrameCollector (fresh now))]).
      now rewrite C. }
    split; [exact T |]. split; [reflexivity |]. split.
    + rewrite T, lookup_app, L. reflexivity.
    + unfold collectors. rewrite T, filter_app, length_app. simpl. lia.
  - intros disabled G. unfold step, tryDisabled.
    apply orb_true_iff in G.
    destruct G as [G | G]; rewrite G; now rewrite ?orb_true_r.
  - eexists. eexists. eexists.
    split; [vm_compute; reflexivity |].
    split; [reflexivity |]. split; [reflexivity |]. split; [reflexivity |].
    split; [vm_compute; reflexivity |].
    split; [vm_compute; reflexivity |].
    split; reflexivity.
Qed.

(** A second start while the interval 2 of a session runs. *)
Lemma start_recording_keeps_prior_collector_witness :
  let s := stabilized 0 (clearTimer 1 (startRecording initial)) in
  (exists s2,
      fires (nextHandle s) 500 None (startRecording s) = Some s2
      /\ timers s2
         = timers s ++ [(Pos.succ (nextHandle s), FrameCollector (fresh 500))]
      /\ frameCollectorRef s2 = Some (Pos.succ (nextHandle s))
      /\ lookup 2 (timers s2) = Some (FrameCollector (fresh 0))
      /\ length (collectors s2) = S (length (collectors s)))
  /\ step s (ClickTry false) = None.
Proof.
  intros s.
  assert (handlesFresh s) as F
      by (apply Forall_cons; [reflexivity | apply Forall_nil]).
  assert (lookup 2 (timers s) = Some (FrameCollector (fresh 0))) as L
      by reflexivity.
  split.
  - apply (proj1 (proj2
             (start_recording_keeps_prior_collector s 2 (fresh 0) 500 None F L))).
  - apply (proj1 (proj2 (proj2
             (start_recording_keeps_prior_collector s 2 (fresh 0) 500 None F L)))).
    reflexivity.
Defined.

(** *** Handles stay fresh *)

Lemma setTimer_fresh (t : Timer) (s : State) :
  handlesFresh s -> handlesFresh (snd (setTimer t s)).
Proof.
  unfold handlesFresh. cbn. intros F. apply Forall_app. split.
  - eapply Forall_impl; [| exact F]. cbn. intros a A. lia.
  - repeat constructor. cbn. lia.
Qed.

Lemma clearTimer_fresh (h : Handle) (s : State) :
  handlesFresh s -> handlesFresh (clearTimer h s).
Proof.
  unfold handlesFresh, clearTimer, clear. cbn. intros F.
  induction F as [| kt l A _ IH]; cbn; [constructor |].
  destruct (negb (fst kt =? h)%positive); [constructor |]; trivial.
Qed.

Lemma store_fresh (h : Handle) (t : Timer) (s : State) :
  handlesFresh s -> handlesFresh (setTimers (store h t (timers s)) s).
Proof.
  unfold handlesFresh, store. cbn. intros F.
  induction F as [| kt l A _ IH]; cbn; constructor; trivial.
  destruct (Pos.eqb_spec (fst kt) h) as [E | E]; cbn; [now rewrite <- E | exact A].
Qed.

Lemma startRecording_fresh (s : State) :
  handlesFresh s -> handlesFresh (startRecording s).
Proof. intros F. exact (setTimer_fresh StabilizationTimeout s F). Qed.

Lemma stabilized_fresh (now : Q) (s : State) :
  handlesFresh s -> handlesFresh (stabilized now s).
Proof.
  intros F.
  exact (setTimer_fresh (FrameCollector (fresh now)) (setFrameTimestampsRef [] s) F).
Qed.

Lemma collect_fresh (h : Handle) (t : Q) (shot : option Frame) (c : Closure)
    (s : State) :
  handlesFresh s -> handlesFresh (collect h t shot c s).
Proof.
  intros F. unfold collect.
  set (s1 := if accepts t shot c
             then setFrameTimestampsRef (frameTimestampsRef s ++ [t]) s
             else s).
  assert (handlesFresh s1) as F1
      by (subst s1; destruct (accepts t shot c); exact F).
  set (s3 := setRecordingProgress (progressOf (t - startTime c))
               (setTimers (store h (FrameCollector (sample t shot c)) (timers s1))
                          s1)).
  assert (handlesFresh s3) as F3 by exact (store_fresh h _ s1 F1).
  destruct (expired t c); [| exact F3].
  change (handlesFresh match frameCollectorRef s3 with
                       | Some r => clearTimer r s3
                       | None => s3
                       end).
  destruct (frameCollectorRef s3); [now apply clearTimer_fresh | exact F3].
Qed.

Lemma handleCancel_fresh (s : State) :
  handlesFresh s -> handlesFresh (handleCancel s).
Proof.
  intros F. unfold handleCancel.
  change (frameCollectorRef (setCountdown 0 (setIsCountingDown false s)))
    with (frameCollectorRef s).
  destruct (frameCollectorRef s) as [h |]; [| exact F].
  exact (clearTimer_fresh h s F).
Qed.

Lemma effect_fresh (s : State) : handlesFresh s -> handlesFresh (effect s).
Proof.
  intros F.
  assert (handlesFresh (cleanup s)) as C.
  { unfold cleanup. destruct (effectTimer s) as [h |]; [| exact F].
    now apply clearTimer_fresh. }
  unfold effect. destruct (isCountingDown (cleanup s)); cbn [andb].
  - destruct (0 <? countdown (cleanup s))%Z.
    + exact (setTimer_fresh _ _ C).
    + destruct (countdown (cleanup s) =? 0)%Z; [| exact C].
      exact (startRecording_fresh _ C).
  - exact C.
Qed.

Lemma commit_fresh (old new : State) :
  handlesFresh new -> handlesFresh (commit old new).
Proof.
  intros F. unfold commit. destruct (depsChanged old new); [| exact F].
  destruct (depsChanged new (effect new)); auto using effect_fresh.
Qed.

Lemma step_fresh (s s' : State) (e : Event) :
  handlesFresh s -> step s e = Some s' -> handlesFresh s'.
Proof.
  intros F S. destruct e as [disabled | | message | h now shot]; cbn [step] in S.
  - destruct (tryDisabled disabled s); [discriminate |].
    injection S as <-. apply commit_fresh. exact F.
  - destruct (cancelShown s); [| discriminate].
    injection S as <-. now apply commit_fresh, handleCancel_fresh.
  - injection S as <-. exact F.
  - unfold fires in S.
    destruct (lookup h (timers s)) as [[n | | c] |]; [| | | discriminate];
      injection S as <-; apply commit_fresh.
    + exact (clearTimer_fresh h s F).
    + now apply stabilized_fresh, clearTimer_fresh.
    + now apply collect_fresh.
Qed.

(** In every state the component reaches, no timer in the table has a
    handle that is still to be handed out. *)
Lemma run_fresh (es : list Event) :
  forall s s' : State, handlesFresh s -> run s es = Some s' -> handlesFresh s'.
Proof.
  induction es as [| e es IH]; intros s s' F R; cbn [run] in R.
  - now injection R as <-.
  - destruct (step s e) as [s1 |] eqn:S; [| discriminate].
    eapply IH; [| exact R]. eapply step_fresh; eauto.
Qed.

Lemma initial_fresh : handlesFresh initial.
Proof. constructor. Qed.

(** A session that the timer drives exactly on schedule ends with
    [onCapture] called on the empty list. *)
Example on_schedule_session_captures_nothing :
  exists s s',
    recordingFromZero = Some s
    /\ run s (sampling 7 (clock 0 (inject_Z tickPeriod) 0
                                (repeat (Some "f"%string) 57)))
       = Some s'
    /\ captured s' = [[]]
    /\ isRecording s' = false.
Proof.
  eexists. eexists.
  split; [vm_compute; reflexivity |].
  split; [vm_compute; reflexivity |].
  split; reflexivity.
Qed.

(** *** Timers of one kind under the operations on the table *)

Lemma filter_clear (p : Handle * Timer -> bool) (h : Handle)
    (l : list (Handle * Timer)) :
  filter p (clear h l) = clear h (filter p l).
Proof.
  unfold clear, Handle in *. induction l as [| kt l IH]; [reflexivity |].
  simpl. destruct (fst kt =? h)%positive eqn:N; simpl;
    destruct (p kt) eqn:P; simpl; rewrite ?P, ?N; simpl; now rewrite IH.
Qed.

Lemma keys_store (h : Handle) (t : Timer) (l : list (Handle * Timer)) :
  map fst (store h t l) = map fst l.
Proof.
  unfold store. rewrite map_map. apply map_ext. intros [k u]. cbn.
  destruct (Pos.eqb_spec k h) as [-> |]; reflexivity.
Qed.

Lemma keys_clear_nodup (h : Handle) (l : list (Handle * Timer)) :
  NoDup (map fst l) -> NoDup (map fst (clear h l)).
Proof.
  unfold clear, Handle in *. induction l as [| kt l IH]; simpl; [trivial |].
  intros N. inversion N as [| ? ? NI N']; subst.
  destruct (fst kt =? h)%positive; simpl; [now apply IH |].
  constructor; [| now apply IH].
  intros I. apply NI. apply in_map_iff in I. destruct I as (x & E & I).
  apply filter_In in I. apply in_map_iff. exists x. tauto.
Qed.

Lemma in_clear (h : Handle) (kt : Handle * Timer) (l : list (Handle * Timer)) :
  In kt (clear h l) -> In kt l.
Proof. unfold clear. intros I. now apply filter_In in I. Qed.

Lemma in_store (h : Handle) (c : Closure) (kt : Handle * Timer)
    (l : list (Handle * Timer)) :
  In kt (store h (FrameCollector c) l) ->
  In kt l \/ kt = (h, FrameCollector c).
Proof.
  unfold store. intros I. apply in_map_iff in I. destruct I as (x & E & I).
  destruct (fst x =? h)%positive; subst; auto.
Qed.

Lemma lookup_in (h : Handle) (t : Timer) (l : list (Handle * Timer)) :
  lookup h l = Some t -> In (h, t) l.
Proof.
  induction l as [| [k u] l IH]; [discriminate |]. cbn.
  destruct (Pos.eqb_spec k h) as [-> | D].
  - intros E. injection E as ->. now left.
  - intros E. right. now apply IH.
Qed.

Lemma nodup_key (h : Handle) (t u : Timer) (l : list (Handle * Timer)) :
  NoDup (map fst l) -> In (h, t) l -> In (h, u) l -> t = u.
Proof.
  induction l as [| [k v] l IH]; [intros _ [] |]. cbn.
  intros N. inversion N as [| ? ? NI N']; subst.
  intros [E1 | I1] [E2 | I2].
  - congruence.
  - injection E1 as -> ->. exfalso. apply NI. apply in_map_iff.
    now exists (h, u).
  - injection E2 as -> ->. exfalso. apply NI. apply in_map_iff.
    now exists (h, t).
  - now apply IH.
Qed.

(** Storing a closure under the handle of an interval leaves the
    countdown timeouts alone. *)
Lemma countdowns_store (h : Handle) (c c' : Closure) (l : list (Handle * Timer)) :
  NoDup (map fst l) -> In (h, FrameCollector c) l ->
  filter isCountdown (store h (FrameCollector c') l) = filter isCountdown l.
Proof.
  intros N I.
  assert (forall kt, In kt l -> isCountdown kt = true -> fst kt <> h) as D.
  { intros [k t] J C E. cbn in E. subst k.
    pose proof (nodup_key _ _ _ _ N I J) as E. subst t. discriminate. }
  clear N I. unfold store, Handle in *. induction l as [| kt l IH]; [reflexivity |].
  simpl. destruct (fst kt =? h)%positive eqn:E.
  - apply Pos.eqb_eq in E. simpl. destruct (isCountdown kt) eqn:C.
    + exfalso. exact (D kt (or_introl eq_refl) C E).
    + apply IH. intros x J. apply D. now right.
  - destruct (isCountdown kt); [f_equal |]; apply IH; intros x J; apply D; now right.
Qed.

Lemma clear_absent (h : Handle) (l : list (Handle * Timer)) :
  (forall kt, In kt l -> fst kt <> h) -> clear h l = l.
Proof.
  unfold clear, Handle in *. induction l as [| kt l IH]; [reflexivity |].
  intros A. simpl. destruct (fst kt =? h)%positive eqn:E.
  - apply Pos.eqb_eq in E. exfalso. exact (A kt (or_introl eq_refl) E).
  - simpl. f_equal. apply IH. intros x J. apply A. now right.
Qed.

(** *** Handles *)

Lemma clearTimer_sound (h : Handle) (s : State) :
  handlesSound s -> handlesSound (clearTimer h s).
Proof.
  intros (F & N & R). split; [now apply clearTimer_fresh |].
  split; [now apply keys_clear_nodup |].
  change (frameCollectorRef (clearTimer h s)) with (frameCollectorRef s).
  destruct (frameCollectorRef s) as [r |]; [| exact I].
  destruct R as [L A]. split; [exact L |].
  intros n J. apply (A n). exact (in_clear h _ _ J).
Qed.

Lemma setTimer_sound (t : Timer) (s : State) :
  handlesSound s -> handlesSound (snd (setTimer t s)).
Proof.
  intros (F & N & R). split; [now apply setTimer_fresh |]. split.
  - cbn. rewrite map_app. apply NoDup_app; [exact N | repeat constructor; intros [] |].
    cbn. intros k I [<- | []]. apply in_map_iff in I. destruct I as (x & E & I).
    unfold handlesFresh in F. rewrite Forall_forall in F. specialize (F x I).
    unfold Handle in *. cbn in F. rewrite E in F. lia.
  - cbn [setTimer snd frameCollectorRef nextHandle timers].
    destruct (frameCollectorRef s) as [r |]; [| exact I].
    destruct R as [L A]. split; [lia |].
    intros n J. apply in_app_or in J. destruct J as [J | [J | []]].
    + exact (A n J).
    + injection J as J _. lia.
Qed.

Lemma store_sound (h : Handle) (c : Closure) (s : State) :
  handlesSound s ->
  handlesSound (setTimers (store h (FrameCollector c) (timers s)) s).
Proof.
  intros (F & N & R). split; [now apply store_fresh |]. split.
  - cbn. now rewrite keys_store.
  - cbn [setTimers frameCollectorRef nextHandle timers].
    destruct (frameCollectorRef s) as [r |]; [| exact I].
    destruct R as [L A]. split; [exact L |].
    intros n J. apply in_store in J. destruct J as [J | J]; [exact (A n J) | discriminate].
Qed.

Lemma startRecording_sound (s : State) :
  handlesSound s -> handlesSound (startRecording s).
Proof. intros H. exact (setTimer_sound StabilizationTimeout s H). Qed.

Lemma stabilized_sound (now : Q) (s : State) :
  handlesSound s -> handlesSound (stabilized now s).
Proof.
  intros (F & N & R).
  destruct (setTimer_sound (FrameCollector (fresh now)) (setFrameTimestampsRef [] s))
    as (F1 & N1 & _); [split; [exact F | split; [exact N | exact R]] |].
  split; [exact F1 |]. split; [exact N1 |].
  cbn. split; [lia |]. intros n J. apply in_app_or in J.
  destruct J as [J | [J | []]]; [| discriminate].
  unfold handlesFresh in F. rewrite Forall_forall in F. specialize (F _ J).
  cbn in F. lia.
Qed.

Lemma collect_sound (h : Handle) (t : Q) (shot : option Frame) (c : Closure)
    (s : State) :
  handlesSound s -> handlesSound (collect h t shot c s).
Proof.
  intros H. unfold collect.
  set (s1 := if accepts t shot c
             then setFrameTimestampsRef (frameTimestampsRef s ++ [t]) s
             else s).
  assert (handlesSound s1) as H1
      by (subst s1; destruct (accepts t shot c); exact H).
  set (s3 := setRecordingProgress (progressOf (t - startTime c))
               (setTimers (store h (FrameCollector (sample t shot c)) (timers s1))
                          s1)).
  assert (handlesSound s3) as H3 by exact (store_sound h _ s1 H1).
  destruct (expired t c); [| exact H3].
  change (handlesSound match frameCollectorRef s3 with
                       | Some r => clearTimer r s3
                       | None => s3
                       end).
  destruct (frameCollectorRef s3); [now apply clearTimer_sound | exact H3].
Qed.

Lemma handleCancel_sound (s : State) :
  handlesSound s -> handlesSound (handleCancel s).
Proof.
  intros H. unfold handleCancel.
  change (frameCollectorRef (setCountdown 0 (setIsCountingDown false s)))
    with (frameCollectorRef s).
  destruct (frameCollectorRef s) as [h |] eqn:E; [| exact H].
  exact (clearTimer_sound h s H).
Qed.

Lemma cleanup_sound (s : State) : handlesSound s -> handlesSound (cleanup s).
Proof.
  intros H. unfold cleanup. destruct (effectTimer s); [| exact H].
  now apply clearTimer_sound.
Qed.

Lemma effect_sound (s : State) : handlesSound s -> handlesSound (effect s).
Proof.
  intros H. pose proof (cleanup_sound s H) as C.
  unfold effect. destruct (isCountingDown (cleanup s)); cbn [andb].
  - destruct (0 <? countdown (cleanup s))%Z.
    + exact (setTimer_sound _ _ C).
    + destruct (countdown (cleanup s) =? 0)%Z; [| exact C].
      exact (startRecording_sound _ C).
  - exact C.
Qed.

Lemma commit_sound (old new : State) :
  handlesSound new -> handlesSound (commit old new).
Proof.
  intros H. unfold commit. destruct (depsChanged old new); [| exact H].
  destruct (depsChanged new (effect new)); auto using effect_sound.
Qed.

Lemma step_sound (s s' : State) (e : Event) :
  handlesSound s -> step s e = Some s' -> handlesSound s'.
Proof.
  intros H S. destruct e as [disabled | | message | h now shot]; cbn [step] in S.
  - destruct (tryDisabled disabled s); [discriminate |].
    injection S as <-. apply commit_sound. exact H.
  - destruct (cancelShown s); [| discriminate].
    injection S as <-. now apply commit_sound, handleCancel_sound.
  - injection S as <-. exact H.
  - unfold fires in S.
    destruct (lookup h (timers s)) as [[n | | c] |]; [| | | discriminate];
      injection S as <-; apply commit_sound.
    + exact (clearTimer_sound h s H).
    + now apply stabilized_sound, clearTimer_sound.
    + now apply collect_sound.
Qed.

Lemma initial_sound : handlesSound initial.
Proof. split; [constructor | split; [constructor | exact I]]. Qed.

(** *** The countdown *)

Lemma countdownSound_ext (s n : State) :
  isCountingDown n = isCountingDown s ->
  countdown n = countdown s ->
  effectTimer n = effectTimer s ->
  countdowns n = countdowns s ->
  (isRecording s = false -> isRecording n = false) ->
  countdownSound s -> countdownSound n.
Proof.
  unfold countdownSound. intros -> -> -> -> R.
  destruct (isCountingDown s); [| trivial].
  intros (A & B & C). auto.
Qed.

Lemma countdowns_clearTimer (h : Handle) (s : State) :
  countdowns (clearTimer h s) = clear h (countdowns s).
Proof. apply filter_clear. Qed.

Lemma countdowns_cleanup_nil (s : State) :
  countdowns s = [] -> countdowns (cleanup s) = [].
Proof.
  intros E. unfold cleanup. destruct (effectTimer s); [| exact E].
  now rewrite countdowns_clearTimer, E.
Qed.

Lemma cleanup_fields (s : State) :
  isCountingDown (cleanup s) = isCountingDown s
  /\ countdown (cleanup s) = countdown s
  /\ isRecording (cleanup s) = isRecording s
  /\ captured (cleanup s) = captured s
  /\ error (cleanup s) = error s.
Proof. unfold cleanup. destruct (effectTimer s); repeat split. Qed.

Lemma effect_counting (n : State) :
  isCountingDown n = true -> (0 < countdown n)%Z ->
  effect n
  = setEffectTimer (Some (nextHandle (cleanup n)))
      (snd (setTimer (CountdownTimeout (countdown n)) (cleanup n))).
Proof.
  intros Cd Pos. destruct (cleanup_fields n) as (D & C & _).
  unfold effect. rewrite D, C, Cd.
  destruct (Z.ltb_spec 0 (countdown n)); [reflexivity | lia].
Qed.

Lemma effect_zero (n : State) :
  isCountingDown n = true -> countdown n = 0%Z ->
  effect n = setIsCountingDown false (startRecording (setEffectTimer None (cleanup n))).
Proof.
  intros Cd Z0. destruct (cleanup_fields n) as (D & C & _).
  unfold effect. rewrite D, C, Cd, Z0. reflexivity.
Qed.

(** What the render after a callback leaves, when the callback left no
    countdown timeout but the one the cleanup clears. *)
Lemma effect_countdown (n : State) :
  countdowns (cleanup n) = [] ->
  (isCountingDown n = true -> (0 <= countdown n <= 5)%Z /\ isRecording n = false) ->
  (isCountingDown n = false -> countdown n = 0%Z) ->
  countdownSound (if depsChanged n (effect n) then effect (effect n) else effect n).
Proof.
  intros P1 P2 P3.
  destruct (cleanup_fields n) as (D & C & R & _).
  destruct (isCountingDown n) eqn:Cd.
  - destruct (P2 eq_refl) as [Rg Rec].
    destruct (Z.ltb_spec 0 (countdown n)) as [Pos | Neg].
    + rewrite (effect_counting n Cd Pos).
      assert (depsChanged n
                (setEffectTimer (Some (nextHandle (cleanup n)))
                   (snd (setTimer (CountdownTimeout (countdown n)) (cleanup n))))
              = false) as Dc.
      { unfold depsChanged. cbn. now rewrite ?C, ?D, ?Cd, ?Z.eqb_refl. }
      rewrite Dc. unfold countdownSound. cbn. rewrite ?D, ?Cd, ?C, ?R.
      split; [lia |]. split; [exact Rec |].
      exists (nextHandle (cleanup n)). split; [reflexivity |].
      unfold countdowns. cbn. rewrite filter_app.
      fold (countdowns (cleanup n)). rewrite P1. reflexivity.
    + assert (countdown n = 0%Z) as Z0 by lia.
      rewrite (effect_zero n Cd Z0).
      set (s1 := setIsCountingDown false
                   (startRecording (setEffectTimer None (cleanup n)))).
      assert (depsChanged n s1 = true) as Dc.
      { unfold depsChanged. subst s1. cbn. now rewrite ?Cd, andb_false_r. }
      rewrite Dc, (effect_not_counting s1) by reflexivity.
      unfold countdownSound. subst s1. cbn. rewrite C. split; [exact Z0 |].
      unfold countdowns. cbn. rewrite filter_app.
      fold (countdowns (cleanup n)). rewrite P1. reflexivity.
  - rewrite (effect_not_counting n Cd).
    assert (depsChanged n (setEffectTimer None (cleanup n)) = false) as Dc.
    { unfold depsChanged. cbn. now rewrite ?C, ?D, ?Cd, ?Z.eqb_refl. }
    rewrite Dc. unfold countdownSound. cbn. rewrite ?D, ?Cd, ?C.
    split; [exact (P3 eq_refl) | exact P1].
Qed.

Lemma commit_effect (old new : State) :
  depsChanged old new = true ->
  commit old new
  = if depsChanged new (effect new) then effect (effect new) else effect new.
Proof. intros D. unfold commit. now rewrite D. Qed.

Lemma in_countdowns (h : Handle) (n : Z) (s : State) :
  In (h, CountdownTimeout n) (timers s) -> In (h, CountdownTimeout n) (countdowns s).
Proof. intros I. apply filter_In. split; [exact I | reflexivity]. Qed.

Lemma countdowns_in (kt : Handle * Timer) (s : State) :
  In kt (countdowns s) -> In kt (timers s) /\ exists n, snd kt = CountdownTimeout n.
Proof.
  intros I. apply filter_In in I. destruct I as [I C]. split; [exact I |].
  destruct kt as [k [n | | c]]; try discriminate. now exists n.
Qed.

(** A handle that holds another kind of timer is none of the countdown
    timeouts. *)
Lemma clear_countdowns_other (h : Handle) (t : Timer) (s : State) :
  NoDup (map fst (timers s)) ->
  In (h, t) (timers s) -> (forall n, t <> CountdownTimeout n) ->
  clear h (countdowns s) = countdowns s.
Proof.
  intros N I T. apply clear_absent. intros [k u] J E. cbn in E. subst k.
  apply countdowns_in in J. destruct J as [J (n & U)]. cbn in U. subst u.
  apply (T n). exact (nodup_key _ _ _ _ N I J).
Qed.

Lemma clear_countdowns_ref (r : Handle) (s : State) :
  (forall n, ~ In (r, CountdownTimeout n) (timers s)) ->
  clear r (countdowns s) = countdowns s.
Proof.
  intros A. apply clear_absent. intros [k u] J E. cbn in E. subst k.
  apply countdowns_in in J. destruct J as [J (n & U)]. cbn in U. subst u.
  exact (A n J).
Qed.

Lemma clear_single (h : Handle) (t : Timer) : clear h [(h, t)] = [].
Proof. unfold clear. cbn. now rewrite Pos.eqb_refl. Qed.

Lemma clear_clear_single (h r : Handle) (t : Timer) :
  clear h (clear r [(h, t)]) = [].
Proof.
  unfold clear. cbn. destruct (h =? r)%positive; cbn; [reflexivity |].
  now rewrite Pos.eqb_refl.
Qed.

Lemma collect_countdowns (h : Handle) (t : Q) (shot : option Frame)
    (c : Closure) (s : State) :
  handlesSound s -> In (h, FrameCollector c) (timers s) ->
  countdowns (collect h t shot c s) = countdowns s.
Proof.
  intros (F & N & R) L. unfold collect.
  set (s1 := if accepts t shot c
             then setFrameTimestampsRef (frameTimestampsRef s ++ [t]) s
             else s).
  assert (timers s1 = timers s /\ frameCollectorRef s1 = frameCollectorRef s)
    as [T1 R1] by (subst s1; destruct (accepts t shot c); split; reflexivity).
  set (s3 := setRecordingProgress (progressOf (t - startTime c))
               (setTimers (store h (FrameCollector (sample t shot c)) (timers s1))
                          s1)).
  assert (countdowns s3 = countdowns s) as C3.
  { unfold countdowns. subst s3. cbn [timers setRecordingProgress setTimers].
    rewrite T1. exact (countdowns_store h c _ _ N L). }
  assert (frameCollectorRef s3 = frameCollectorRef s) as R3 by exact R1.
  destruct (expired t c); [| exact C3].
  change (countdowns match frameCollectorRef s3 with
                     | Some r => clearTimer r s3
                     | None => s3
                     end = countdowns s).
  rewrite R3. destruct (frameCollectorRef s) as [r |]; [| exact C3].
  rewrite countdowns_clearTimer, C3. apply clear_countdowns_ref. exact (proj2 R).
Qed.

Lemma collect_fields (h : Handle) (t : Q) (shot : option Frame)
    (c : Closure) (s : State) :
  effectTimer (collect h t shot c s) = effectTimer s
  /\ error (collect h t shot c s) = error s
  /\ (isRecording s = false -> isRecording (collect h t shot c s) = false).
Proof.
  unfold collect.
  destruct (accepts t shot c), (expired t c); cbn;
    try (repeat split; trivial; fail);
    destruct (frameCollectorRef s); repeat split; trivial.
Qed.

Lemma step_countdown (s s' : State) (e : Event) :
  handlesSound s -> countdownSound s -> step s e = Some s' -> countdownSound s'.
Proof.
  intros (F & N & R) C S.
  destruct e as [disabled | | message | h now shot]; cbn [step] in S.
  - (* Try *)
    destruct (tryDisabled disabled s) eqn:T; [discriminate |]. injection S as <-.
    unfold tryDisabled in T. apply orb_false_iff in T. destruct T as [T Rec].
    apply orb_false_iff in T. destruct T as [_ Cd].
    unfold countdownSound in C. rewrite Cd in C. destruct C as [Z0 E].
    rewrite commit_effect
      by (unfold depsChanged, handleTry; cbn; now rewrite Cd, andb_false_r).
    apply effect_countdown.
    + apply countdowns_cleanup_nil. exact E.
    + intros _. cbn. split; [lia | exact Rec].
    + discriminate.
  - (* Cancel *)
    destruct (cancelShown s); [| discriminate]. injection S as <-.
    assert (isCountingDown (handleCancel s) = false
            /\ countdown (handleCancel s) = 0%Z
            /\ effectTimer (handleCancel s) = effectTimer s
            /\ (countdowns (handleCancel s) = countdowns s
                \/ exists r, countdowns (handleCancel s) = clear r (countdowns s)))
      as (Hc & Hz & He & Ht).
    { unfold handleCancel.
      change (frameCollectorRef (setCountdown 0 (setIsCountingDown false s)))
        with (frameCollectorRef s).
      destruct (frameCollectorRef s) as [r |]; repeat split; auto.
      right. exists r. apply filter_clear. }
    unfold countdownSound in C.
    destruct (isCountingDown s) eqn:Cd.
    + destruct C as (Rg & Rec & h & Et & Ec).
      assert (depsChanged s (handleCancel s) = true) as Dc.
      { unfold depsChanged. rewrite Hc, Cd. cbn. now rewrite andb_false_r. }
      rewrite (commit_effect s (handleCancel s) Dc).
      apply effect_countdown.
      * unfold cleanup. rewrite He, Et, countdowns_clearTimer.
        destruct Ht as [-> | (r & ->)]; rewrite Ec;
          [apply clear_single | apply clear_clear_single].
      * rewrite Hc. discriminate.
      * intros _. exact Hz.
    + destruct C as [Z0 E].
      assert (countdowns (handleCancel s) = []) as E'.
      { destruct Ht as [-> | (r & ->)]; rewrite E; reflexivity. }
      rewrite commit_same_deps by congruence.
      unfold countdownSound. rewrite Hc. split; [exact Hz | exact E'].
  - (* camera error *)
    injection S as <-. exact C.
  - (* a timer *)
    unfold fires in S.
    destruct (lookup h (timers s)) as [[n | | c] |] eqn:L; [| | | discriminate];
      injection S as <-; apply lookup_in in L.
    + (* countdown *)
      pose proof (in_countdowns h n s L) as I.
      unfold countdownSound in C. destruct (isCountingDown s) eqn:Cd.
      * destruct C as (Rg & Rec & h0 & Et & Ec). rewrite Ec in I.
        destruct I as [I | []]. injection I as Eh En. subst h0 n.
        assert (depsChanged s (setCountdown (countdown s - 1) (clearTimer h s))
                = true) as Dc.
        { unfold depsChanged. cbn [countdown setCountdown].
          destruct (Z.eqb_spec (countdown s) (countdown s - 1)); [lia | reflexivity]. }
        rewrite (commit_effect _ _ Dc).
        apply effect_countdown.
        -- apply countdowns_cleanup_nil.
           change (countdowns (setCountdown (countdown s - 1) (clearTimer h s)))
             with (countdowns (clearTimer h s)).
           rewrite countdowns_clearTimer, Ec. apply clear_single.
        -- intros _. cbn [countdown setCountdown isRecording clearTimer setTimers].
           split; [lia | exact Rec].
        -- cbn [isCountingDown setCountdown clearTimer setTimers].
           rewrite Cd. discriminate.
      * destruct C as [_ E]. rewrite E in I. destruct I.
    + (* stabilization *)
      rewrite commit_same_deps by reflexivity.
      apply (countdownSound_ext s); try reflexivity;
        [| intros Rc; exact Rc | exact C].
      unfold countdowns, stabilized. cbn. rewrite filter_app. cbn.
      rewrite app_nil_r. rewrite filter_clear. fold (countdowns s).
      apply (clear_countdowns_other h StabilizationTimeout); trivial.
      discriminate.
    + (* sampling *)
      destruct (collect_deps h now shot c s) as [Dc Dd].
      rewrite commit_same_deps by assumption.
      destruct (collect_fields h now shot c s) as (Fe & _ & Fr).
      apply (countdownSound_ext s); trivial.
      apply collect_countdowns; [split; [exact F | split; [exact N | exact R]] | exact L].
Qed.

Lemma run_sound (es : list Event) :
  forall s s' : State,
    handlesSound s -> countdownSound s -> run s es = Some s' ->
    handlesSound s' /\ countdownSound s'.
Proof.
  induction es as [| e es IH]; intros s s' H C R; cbn [run] in R.
  - injection R as <-. now split.
  - destruct (step s e) as [s1 |] eqn:S; [| discriminate].
    apply (IH s1); trivial.
    + exact (step_sound s s1 e H S).
    + exact (step_countdown s s1 e H C S).
Qed.

Lemma initial_countdown : countdownSound initial.
Proof. split; reflexivity. Qed.

Lemma in_lookup (h : Handle) (t : Timer) (l : list (Handle * Timer)) :
  NoDup (map fst l) -> In (h, t) l -> lookup h l = Some t.
Proof.
  unfold Handle in *. induction l as [| [k u] l IH]; [intros _ [] |]. simpl.
  intros N. inversion N as [| ? ? NI N']; subst. intros [E | I].
  - injection E as -> ->. now rewrite Pos.eqb_refl.
  - destruct (Pos.eqb_spec k h) as [-> | D]; [| now apply IH].
    exfalso. apply NI. apply in_map_iff. now exists (h, t).
Qed.

(** X9. Between two events, when the callback of the first has run and
    the countdown effect has run for the renders it caused ([commit]),
    the count is between 0 and 5.  While the component then counts down
    the count is at least 1, it does not record, and exactly one
    countdown timeout is set, which holds the current count; while it
    does not, the count is 0 and no countdown timeout is set.  (The
    renders before the effect has run are no states of [run]: there the
    component shows the count 0 with the flag up, and a count whose
    timeout is not set yet.) *)
Theorem countdown_runs_one_timer (es : list Event) (s : State) :
  run initial es = Some s ->
  (0 <= countdown s <= 5)%Z
  /\ (isCountingDown s = true ->
      (1 <= countdown s)%Z
      /\ isRecording s = false
      /\ exists h,
          countdowns s = [(h, CountdownTimeout (countdown s))]
          /\ lookup h (timers s) = Some (CountdownTimeout (countdown s)))
  /\ (isCountingDown s = false -> countdown s = 0%Z /\ countdowns s = []).
Proof.
  intros R.
  destruct (run_sound es initial s initial_sound initial_countdown R)
    as [(F & N & _) C].
  unfold countdownSound in C. destruct (isCountingDown s).
  - destruct C as (Rg & Rec & h & Et & Ec).
    split; [lia |]. split; [| discriminate]. intros _.
    split; [lia |]. split; [exact Rec |]. exists h. split; [exact Ec |].
    apply in_lookup; [exact N |].
    assert (In (h, CountdownTimeout (countdown s)) (countdowns s)) as I
        by (rewrite Ec; now left).
    now apply countdowns_in in I.
  - destruct C as [Z0 E]. split; [lia |]. split; [discriminate |]. auto.
Qed.

(** *** Fields that the render leaves alone *)

Lemma effect_keeps (s : State) :
  error (effect s) = error s
  /\ captured (effect s) = captured s
  /\ progressLog (effect s) = progressLog s
  /\ recordingProgress (effect s) = recordingProgress s
  /\ (forall k c, In (k, FrameCollector c) (timers (effect s)) ->
                  In (k, FrameCollector c) (timers s)).
Proof.
  assert (forall k c, In (k, FrameCollector c) (timers (cleanup s)) ->
                      In (k, FrameCollector c) (timers s)) as Cl.
  { unfold cleanup. destruct (effectTimer s); [| trivial].
    intros k c I. exact (in_clear _ _ _ I). }
  assert (error (cleanup s) = error s /\ captured (cleanup s) = captured s
          /\ progressLog (cleanup s) = progressLog s
          /\ recordingProgress (cleanup s) = recordingProgress s)
    as (E & Ca & P & Rp)
      by (unfold cleanup; destruct (effectTimer s); repeat split).
  unfold effect.
  destruct (isCountingDown (cleanup s) && (0 <? countdown (cleanup s))%Z);
    [| destruct (isCountingDown (cleanup s) && (countdown (cleanup s) =? 0)%Z)];
    cbn; (split; [exact E |]); (split; [exact Ca |]); (split; [exact P |]);
    (split; [exact Rp |]); intros k c I;
    try (apply in_app_or in I; destruct I as [I | [I | []]]; [| discriminate]);
    now apply Cl.
Qed.

Lemma commit_keeps (old new : State) :
  error (commit old new) = error new
  /\ captured (commit old new) = captured new
  /\ progressLog (commit old new) = progressLog new
  /\ recordingProgress (commit old new) = recordingProgress new
  /\ (forall k c, In (k, FrameCollector c) (timers (commit old new)) ->
                  In (k, FrameCollector c) (timers new)).
Proof.
  unfold commit. destruct (depsChanged old new); [| repeat split; trivial].
  destruct (effect_keeps new) as (E & Ca & P & Rp & T).
  destruct (depsChanged new (effect new)).
  - destruct (effect_keeps (effect new)) as (E' & Ca' & P' & Rp' & T').
    rewrite E', Ca', P', Rp'. repeat split; auto.
  - repeat split; auto.
Qed.

(** After the click on Try and one tick of the countdown. *)
Lemma countdown_runs_one_timer_witness :
  exists s,
    run initial [ClickTry false; Fires 1 0 None] = Some s
    /\ (0 <= countdown s <= 5)%Z
    /\ (isCountingDown s = true ->
        (1 <= countdown s)%Z
        /\ isRecording s = false
        /\ exists h,
            countdowns s = [(h, CountdownTimeout (countdown s))]
            /\ lookup h (timers s) = Some (CountdownTimeout (countdown s)))
    /\ (isCountingDown s = false -> countdown s = 0%Z /\ countdowns s = []).
Proof.
  eexists. split; [vm_compute; reflexivity |].
  apply (countdown_runs_one_timer [ClickTry false; Fires 1 0 None]).
  vm_compute. reflexivity.
Defined.

Lemma handleCancel_keeps (s : State) :
  error (handleCancel s) = error s
  /\ captured (handleCancel s) = captured s
  /\ isCountingDown (handleCancel s) = false
  /\ countdown (handleCancel s) = 0%Z
  /\ (isRecording s = false -> isRecording (handleCancel s) = false)
  /\ incl (timers (handleCancel s)) (timers s).
Proof.
  unfold handleCancel.
  change (frameCollectorRef (setCountdown 0 (setIsCountingDown false s)))
    with (frameCollectorRef s).
  destruct (frameCollectorRef s) as [r |]; cbn; repeat split; trivial.
  - intros kt I. exact (in_clear _ _ _ I).
  - apply incl_refl.
Qed.


(** *** The camera error *)

Lemma step_error (s s' : State) (e : Event) (m : string) :
  error s = Some m -> step s e = Some s' -> exists m', error s' = Some m'.
Proof.
  intros E S. destruct e as [disabled | | message | h now shot]; cbn [step] in S.
  - unfold tryDisabled in S. rewrite E in S. rewrite orb_true_r in S. discriminate.
  - destruct (cancelShown s); [| discriminate]. injection S as <-.
    destruct (commit_keeps s (handleCancel s)) as (Ec & _).
    destruct (handleCancel_keeps s) as (Eh & _).
    exists m. now rewrite Ec, Eh.
  - injection S as <-. now exists message.
  - unfold fires in S.
    destruct (lookup h (timers s)) as [[n | | c] |]; [| | | discriminate];
      injection S as <-; exists m;
      match goal with |- error (commit ?o ?n) = _ =>
        rewrite (proj1 (commit_keeps o n)) end; trivial.
    destruct (collect_fields h now shot c s) as (_ & Ee & _). now rewrite Ee.
Qed.

Lemma run_error (es : list Event) :
  forall (s s' : State) (m : string),
    error s = Some m -> run s es = Some s' -> exists m', error s' = Some m'.
Proof.
  induction es as [| e es IH]; intros s s' m E R.
  - injection R as <-. now exists m.
  - cbn [run] in R. destruct (step s e) as [s1 |] eqn:S; [| discriminate].
    destruct (step_error s s1 e m E S) as [m1 E1]. exact (IH s1 s' m1 E1 R).
Qed.

(** X12. The camera error is never reset: once it is set it is set in
    every state that the events after it lead to, and in each of them
    the Try button is disabled and a click on it is refused, also when
    the component neither counts down nor records. *)
Theorem camera_error_disables_try
    (es : list Event) (s s' : State) (m : string) (disabled : bool) :
  error s = Some m ->
  run s es = Some s' ->
  (exists m', error s' = Some m')
  /\ tryDisabled disabled s' = true
  /\ step s' (ClickTry disabled) = None
  /\ run s (es ++ [ClickTry disabled]) = None.
Proof.
  intros E R. destruct (run_error es s s' m E R) as [m' E'].
  assert (tryDisabled disabled s' = true) as T
      by (unfold tryDisabled; rewrite E'; now rewrite orb_true_r).
  assert (step s' (ClickTry disabled) = None) as S
      by (cbn [step]; now rewrite T).
  split; [now exists m' |]. split; [exact T |]. split; [exact S |].
  clear E E' T. revert s R. induction es as [| e es IH]; intros s R.
  - injection R as ->. cbn [app run]. now rewrite S.
  - cbn [app run] in *. destruct (step s e) as [s1 |]; [now apply IH | discriminate].
Qed.


(** The camera fails during the countdown; a timeout of the countdown
    fires, Cancel is clicked, and then Try, with the component idle. *)
Lemma camera_error_disables_try_witness :
  exists s s',
    run initial [ClickTry false; UserMediaError "denied"%string] = Some s
    /\ run s [Fires 1 0 None; ClickCancel] = Some s'
    /\ idle s' = true
    /\ (exists m', error s' = Some m')
    /\ tryDisabled false s' = true
    /\ step s' (ClickTry false) = None
    /\ run s ([Fires 1 0 None; ClickCancel] ++ [ClickTry false]) = None.
Proof.
  eexists. eexists.
  split; [vm_compute; reflexivity |].
  split; [vm_compute; reflexivity |].
  split; [reflexivity |].
  apply (camera_error_disables_try [Fires 1 0 None; ClickCancel] _ _
           "denied"%string false); reflexivity.
Defined.

(** *** Where delivered frames come from *)

Lemma collect_timers_in (h k : Handle) (t : Q) (shot : option Frame)
    (c c' : Closure) (s : State) :
  In (k, FrameCollector c') (timers (collect h t shot c s)) ->
  In (k, FrameCollector c') (timers s) \/ c' = sample t shot c.
Proof.
  unfold collect.
  set (s1 := if accepts t shot c
             then setFrameTimestampsRef (frameTimestampsRef s ++ [t]) s
             else s).
  assert (timers s1 = timers s) as T1
      by (subst s1; destruct (accepts t shot c); reflexivity).
  set (s3 := setRecordingProgress (progressOf (t - startTime c))
               (setTimers (store h (FrameCollector (sample t shot c)) (timers s1))
                          s1)).
  assert (In (k, FrameCollector c') (timers s3) ->
          In (k, FrameCollector c') (timers s) \/ c' = sample t shot c) as A.
  { subst s3. cbn [timers setRecordingProgress setTimers]. rewrite T1.
    intros I. apply in_store in I. destruct I as [I | I]; [now left |].
    right. now injection I. }
  destruct (expired t c); [| exact A].
  change (In (k, FrameCollector c')
             (timers match frameCollectorRef s3 with
                     | Some r => clearTimer r s3
                     | None => s3
                     end) ->
          In (k, FrameCollector c') (timers s) \/ c' = sample t shot c).
  destruct (frameCollectorRef s3); [| exact A].
  intros I. apply A. exact (in_clear _ _ _ I).
Qed.

Lemma collect_captured (h : Handle) (t : Q) (shot : option Frame)
    (c : Closure) (s : State) :
  captured (collect h t shot c s)
  = captured s ++ (if expired t c then [frames (sample t shot c)] else []).
Proof.
  unfold collect.
  destruct (accepts t shot c), (expired t c); cbn; rewrite ?app_nil_r;
    try reflexivity; destruct (frameCollectorRef s); reflexivity.
Qed.

Lemma sample_genuine (pool : list Frame) (h : Handle) (t : Q)
    (shot : option Frame) (c : Closure) :
  Forall (fun f => f <> EmptyString /\ In f pool) (frames c) ->
  Forall (fun f => f <> EmptyString /\ In f (pool ++ shotsOf [Fires h t shot]))
         (frames (sample t shot c)).
Proof.
  intros G.
  assert (Forall (fun f => f <> EmptyString /\ In f (pool ++ shotsOf [Fires h t shot]))
                 (frames c)) as G'.
  { eapply Forall_impl; [| exact G]. cbn beta. intros f [A B].
    split; [exact A | apply in_or_app; now left]. }
  destruct (sample_cases t shot c) as [(A & f & -> & E) | (_ & ->)]; [| exact G'].
  rewrite E. cbn [frames]. apply Forall_app. split; [exact G' |].
  constructor; [| constructor]. split.
  - apply andb_true_iff in A. destruct A as [A _].
    destruct f; [discriminate | discriminate].
  - apply in_or_app. right. now left.
Qed.

Lemma step_genuine (pool : list Frame) (s s' : State) (e : Event) :
  (forall k c, In (k, FrameCollector c) (timers s) ->
               Forall (fun f => f <> EmptyString /\ In f pool) (frames c)) ->
  Forall (Forall (fun f => f <> EmptyString /\ In f pool)) (captured s) ->
  step s e = Some s' ->
  (forall k c, In (k, FrameCollector c) (timers s') ->
               Forall (fun f => f <> EmptyString /\ In f (pool ++ shotsOf [e]))
                      (frames c))
  /\ Forall (Forall (fun f => f <> EmptyString /\ In f (pool ++ shotsOf [e])))
            (captured s').
Proof.
  intros T C S.
  assert (forall fs, Forall (fun f => f <> EmptyString /\ In f pool) fs ->
                     Forall (fun f => f <> EmptyString /\ In f (pool ++ shotsOf [e])) fs)
    as W.
  { intros fs G. eapply Forall_impl; [| exact G]. cbn beta. intros f [A B].
    split; [exact A | apply in_or_app; now left]. }
  assert (Forall (Forall (fun f => f <> EmptyString /\ In f (pool ++ shotsOf [e])))
                 (captured s)) as C'
      by (eapply Forall_impl; [| exact C]; exact W).
  destruct e as [disabled | | message | h now shot]; cbn [step] in S.
  - destruct (tryDisabled disabled s); [discriminate |]. injection S as <-.
    destruct (commit_keeps s (handleTry s)) as (_ & Ca & _ & _ & Ti).
    rewrite Ca. split; [| exact C']. intros k c I. apply W, (T k), (Ti k c I).
  - destruct (cancelShown s); [| discriminate]. injection S as <-.
    destruct (commit_keeps s (handleCancel s)) as (_ & Ca & _ & _ & Ti).
    destruct (handleCancel_keeps s) as (_ & Ch & _ & _ & _ & Th).
    rewrite Ca, Ch. split; [| exact C']. intros k c I.
    apply W, (T k), Th, (Ti k c I).
  - injection S as <-. split; [| exact C']. intros k c I. apply W, (T k), I.
  - unfold fires in S.
    destruct (lookup h (timers s)) as [[n | | c0] |] eqn:L; [| | | discriminate];
      injection S as <-;
      match goal with |- context [commit ?o ?n] =>
        destruct (commit_keeps o n) as (_ & Ca & _ & _ & Ti) end;
      rewrite Ca.
    + split; [| exact C']. intros k c I. apply W, (T k).
      exact (in_clear _ _ _ (Ti k c I)).
    + split; [| exact C']. intros k c I. specialize (Ti k c I).
      unfold stabilized in Ti. cbn in Ti. apply in_app_or in Ti.
      destruct Ti as [J | [J | []]].
      * apply W, (T k). exact (in_clear _ _ _ J).
      * injection J as _ <-. constructor.
    + apply lookup_in in L. pose proof (T h c0 L) as G0.
      pose proof (sample_genuine pool h now shot c0 G0) as G1.
      split.
      * intros k c I. specialize (Ti k c I).
        apply collect_timers_in in Ti. destruct Ti as [J | ->]; [| exact G1].
        apply W, (T k), J.
      * rewrite collect_captured. apply Forall_app. split; [exact C' |].
        destruct (expired now c0); constructor; [exact G1 | constructor].
Qed.

Lemma run_genuine (es : list Event) :
  forall (pool : list Frame) (s s' : State),
    (forall k c, In (k, FrameCollector c) (timers s) ->
                 Forall (fun f => f <> EmptyString /\ In f pool) (frames c)) ->
    Forall (Forall (fun f => f <> EmptyString /\ In f pool)) (captured s) ->
    run s es = Some s' ->
    Forall (Forall (fun f => f <> EmptyString /\ In f (pool ++ shotsOf es)))
           (captured s').
Proof.
  induction es as [| e es IH]; intros pool s s' T C R; cbn [run] in R.
  - injection R as <-. cbn. now rewrite app_nil_r.
  - destruct (step s e) as [s1 |] eqn:S; [| discriminate].
    destruct (step_genuine pool s s1 e T C S) as [T1 C1].
    pose proof (IH _ _ _ T1 C1 R) as G.
    assert (shotsOf (e :: es) = shotsOf [e] ++ shotsOf es) as E
        by (unfold shotsOf; cbn; now rewrite app_nil_r).
    rewrite E, app_assoc. exact G.
Qed.

(** X13. Whatever the component delivers to [onCapture] are
    screenshots that [capture()] returned on some tick of the run, none
    of them empty. *)
Theorem delivered_frames_are_screenshots (es : list Event) (s : State) :
  run initial es = Some s ->
  forall frames frame,
    In frames (captured s) -> In frame frames ->
    frame <> EmptyString /\ In frame (shotsOf es).
Proof.
  intros R fs f I J.
  assert (Forall (Forall (fun f => f <> EmptyString /\ In f ([] ++ shotsOf es)))
                 (captured s)) as G.
  { apply (run_genuine es [] initial s); [intros k c [] | constructor | exact R]. }
  rewrite Forall_forall in G. specialize (G fs I).
  rewrite Forall_forall in G. exact (G f J).
Qed.

(** A whole first session with ticks 60 ms apart. *)
Lemma delivered_frames_are_screenshots_witness :
  exists s,
    run initial (tryAndCountDown
                   ++ Fires 6 0 None
                   :: sampling 7 (clock 0 60 0 (repeat (Some "f"%string) 50)))
    = Some s
    /\ captured s = [repeat "f"%string 50]
    /\ forall frames frame,
        In frames (captured s) -> In frame frames ->
        frame <> EmptyString
        /\ In frame (shotsOf (tryAndCountDown
                                ++ Fires 6 0 None
                                :: sampling 7 (clock 0 60 0
                                                     (repeat (Some "f"%string) 50)))).
Proof.
  eexists. split; [vm_compute; reflexivity |]. split; [reflexivity |].
  apply (delivered_frames_are_screenshots
           (tryAndCountDown
              ++ Fires 6 0 None
              :: sampling 7 (clock 0 60 0 (repeat (Some "f"%string) 50)))).
  vm_compute. reflexivity.
Defined.

(** *** The times of the frames *)

Lemma collect_timestamps (h : Handle) (t : Q) (shot : option Frame)
    (c : Closure) (s : State) :
  frameTimestampsRef (collect h t shot c s)
  = if accepts t shot c then frameTimestampsRef s ++ [t] else frameTimestampsRef s.
Proof.
  unfold collect.
  destruct (accepts t shot c), (expired t c); cbn; try reflexivity;
    destruct (frameCollectorRef s); reflexivity.
Qed.

Lemma last_cons (u d d' : Q) (ts : list Q) : last (u :: ts) d = last (u :: ts) d'.
Proof.
  revert u. induction ts as [| v ts IH]; intros u; [reflexivity |].
  change (last (v :: ts) d = last (v :: ts) d'). apply IH.
Qed.

Lemma paced_app (prev t : Q) (ts : list Q) :
  paced prev ts -> inBand (t - last ts prev) = true -> paced prev (ts ++ [t]).
Proof.
  revert prev. induction ts as [| u ts IH]; intros prev P B.
  - cbn in *. auto.
  - destruct P as [P1 P2]. cbn [app paced]. split; [exact P1 |].
    apply IH; [exact P2 |].
    destruct ts as [| v ts]; [exact B |].
    rewrite (last_cons v u prev). exact B.
Qed.

Lemma last_snoc (prev t : Q) (ts : list Q) : last (ts ++ [t]) prev = t.
Proof. apply last_last. Qed.

(** One tick keeps the times in step with the closure. *)
Lemma collect_paced (h : Handle) (t : Q) (shot : option Frame) (c : Closure)
    (s : State) :
  paced (startTime c) (frameTimestampsRef s) ->
  last (frameTimestampsRef s) (startTime c) = lastFrameTime c ->
  length (frameTimestampsRef s) = length (frames c) ->
  paced (startTime c) (frameTimestampsRef (collect h t shot c s))
  /\ last (frameTimestampsRef (collect h t shot c s)) (startTime c)
     = lastFrameTime (sample t shot c)
  /\ length (frameTimestampsRef (collect h t shot c s))
     = length (frames (sample t shot c)).
Proof.
  intros P L N. rewrite collect_timestamps.
  destruct (sample_cases t shot c) as [(A & f & _ & E) | (A & E)]; rewrite A, E.
  - cbn [lastFrameTime frames]. split; [| split].
    + apply paced_app; [exact P |]. rewrite L.
      apply andb_true_iff in A. tauto.
    + apply last_snoc.
    + rewrite !length_app, N. reflexivity.
  - auto.
Qed.

Lemma run_session_paced (h : Handle) (ticks : list (Q * option Frame)) :
  forall (c : Closure) (s s' : State),
    frameCollectorRef s = Some h ->
    lookup h (timers s) = Some (FrameCollector c) ->
    paced (startTime c) (frameTimestampsRef s) ->
    last (frameTimestampsRef s) (startTime c) = lastFrameTime c ->
    length (frameTimestampsRef s) = length (frames c) ->
    run s (sampling h ticks) = Some s' ->
    paced (startTime c) (frameTimestampsRef s')
    /\ length (frameTimestampsRef s') = length (frames (fst (record ticks c))).
Proof.
  induction ticks as [| [t shot] rest IH]; intros c s s' R L P La N Run.
  - cbn in Run. injection Run as <-. cbn. auto.
  - cbn [sampling map run fst snd] in Run. rewrite (step_collector h t shot c s L) in Run.
    destruct (collect_paced h t shot c s P La N) as (P1 & La1 & N1).
    cbn [record]. destruct (expired t c) eqn:X.
    + destruct (collect_expired h t shot c s R X) as (Gone & _).
      destruct rest as [| [u shot'] rest'].
      * cbn in Run. injection Run as <-. cbn [fst]. auto.
      * cbn [map run] in Run. cbn [step fst snd] in Run. unfold fires in Run.
        rewrite Gone in Run. discriminate.
    + destruct (collect_running h t shot c s L X) as (L1 & R1 & _).
      rewrite <- (sample_startTime t shot c) in P1, La1 |- *.
      apply (IH (sample t shot c) (collect h t shot c s) s'); trivial.
      congruence.
Qed.

(** *** The tolerance band *)

(** C2, as the specification has it, fails at the upper edge of the
    band.  A tick 80 ms after the start of a first session is taken: the
    frame is in the closure of the interval and its time in
    [frameTimestampsRef].  Yet 80 ms differs from [frameInterval] by
    0.2 times [frameInterval], not by less: the test passes because
    [1000 / 15] and its product with 0.2 are rounded up. *)
Lemma frame_accepted_at_the_upper_edge :
  exists s s',
    recordingFromZero = Some s
    /\ step s (Fires 7 80 (Some "f"%string)) = Some s'
    /\ lookup 7 (timers s')
       = Some (FrameCollector {| frames := ["f"%string]; startTime := 0;
                                 lastFrameTime := 80 |})
    /\ frameTimestampsRef s' = [80]
    /\ Qabs (80 - 0 - frameInterval) == 0.2 * frameInterval
    /\ ~ Qabs (80 - 0 - frameInterval) < 0.2 * frameInterval
    /\ inBandDouble (80 - 0) = true.
Proof.
  eexists. eexists.
  split; [vm_compute; reflexivity |].
  split; [vm_compute; reflexivity |].
  split; [reflexivity |]. split; [reflexivity |].
  split; [reflexivity |]. split; [| vm_compute; reflexivity].
  intros H. vm_compute in H. discriminate.
Qed.

(** C2, amended.  A tick of the sampling interval adds the screenshot
    to the frames of the session, and its time to [frameTimestampsRef],
    exactly when there is a screenshot and the time since the frame taken
    last is in the band that the test has in doubles: more than
    160/3 + 2^-47/3 ms (0.8 times [frameInterval], rounded) and at most
    1.2 times [frameInterval] = 80 ms, the upper edge included.  Any
    other tick leaves the frames and the times as they are.  The frames
    stay in the closure of the interval while the session runs and are
    delivered by the tick that ends it.  On times in whole milliseconds
    the band is the test as the doubles compute it, 54 ms to 80 ms.  On a
    clock that advances by exactly 66.7 ms every tick of the session adds
    a frame. *)
Theorem frame_accepted_iff_in_band
    (s : State) (h : Handle) (c : Closure) (currentTime : Q)
    (shot : option Frame) :
  lookup h (timers s) = Some (FrameCollector c) ->
  let spacing := currentTime - lastFrameTime c in
  (exists s' c',
      step s (Fires h currentTime shot) = Some s'
      /\ (expired currentTime c = false ->
          lookup h (timers s') = Some (FrameCollector c'))
      /\ (expired currentTime c = true -> frameCollectorRef s = Some h ->
          captured s' = captured s ++ [frames c'])
      /\ (truthy shot = true /\ inBand spacing = true ->
          exists frame,
            shot = Some frame
            /\ c' = {| frames := frames c ++ [frame]; startTime := startTime c;
                       lastFrameTime := currentTime |}
            /\ frameTimestampsRef s' = frameTimestampsRef s ++ [currentTime])
      /\ (~ (truthy shot = true /\ inBand spacing = true) ->
          c' = c /\ frameTimestampsRef s' = frameTimestampsRef s))
  /\ (inBand spacing = true
      <-> frameIntervalDouble - toleranceDouble < spacing
          /\ spacing <= 1.2 * frameInterval)
  /\ frameInterval == 1000 / 15
  /\ frameIntervalDouble - toleranceDouble
     == 0.8 * frameInterval + (1 # 422212465065984)
  /\ (forall ms : Z, inBand (inject_Z ms) = inBandDouble (inject_Z ms))
  /\ (forall ms : Z, inBand (inject_Z ms) = true <-> (54 <= ms <= 80)%Z)
  /\ (forall (start : Q) (shots : list (option Frame)),
         Forall (fun shot => truthy shot = true) shots ->
         (length shots <= 45)%nat ->
         length (frames (fst (record (clock start 66.7 0 shots) (fresh start))))
         = length shots)
  /\ (forall (start : Q) (shots : list (option Frame)) (s0 : State),
         frameCollectorRef s0 = Some h ->
         lookup h (timers s0) = Some (FrameCollector (fresh start)) ->
         Forall (fun shot => truthy shot = true) shots ->
         (length shots <= 44)%nat ->
         exists s1 c1,
           run s0 (sampling h (clock start 66.7 0 shots)) = Some s1
           /\ lookup h (timers s1) = Some (FrameCollector c1)
           /\ length (frames c1) = length shots).
Proof.
  intros L spacing.
  split; [| split; [| split; [| split; [| split; [| split; [| split]]]]]].
  - exists (collect h currentTime shot c s), (sample currentTime shot c).
    split; [now apply step_collector |].
    split; [intros X; now destruct (collect_running h currentTime shot c s L X) |].
    split; [intros X R; now destruct (collect_expired h currentTime shot c s R X)
              as (_ & Ca & _) |].
    rewrite collect_timestamps.
    change (truthy shot && inBand spacing) with (accepts currentTime shot c).
    split.
    + intros [T B].
      assert (accepts currentTime shot c = true) as A
          by (unfold accepts; fold spacing; now rewrite T, B).
      rewrite A.
      destruct (sample_cases currentTime shot c) as [(_ & f & E1 & E2) | (N & _)];
        [| congruence].
      exists f. auto.
    + intros N.
      assert (accepts currentTime shot c = false) as A.
      { apply not_true_iff_false. intros A. apply N.
        unfold accepts in A. fold spacing in A. now apply andb_true_iff in A. }
      rewrite A.
      destruct (sample_cases currentTime shot c) as [(A' & _) | (_ & E)];
        [congruence | auto].
  - rewrite inBand_iff, frameIntervalDouble_value, toleranceDouble_value,
      frameInterval_value.
    split; intros [A B]; split; lra.
  - reflexivity.
  - rewrite frameIntervalDouble_value, toleranceDouble_value, frameInterval_value.
    lra.
  - exact inBand_whole_ms.
  - exact inBand_whole.
  - intros start shots T B.
    rewrite (record_steady start shots 0 (fresh start)); trivial.
    simpl. ring.
  - intros start shots s0 R L0 T B.
    assert (snd (record (clock start 66.7 0 shots) (fresh start)) = false) as D
        by (apply record_open, clock_before_deadline; simpl; lia).
    destruct (run_session_running h _ (fresh start) s0 R L0 D)
      as (s1 & Run & _ & L1 & _).
    exists s1, (fst (record (clock start 66.7 0 shots) (fresh start))).
    split; [exact Run |]. split; [exact L1 |].
    rewrite (record_steady start shots 0 (fresh start)); trivial.
    + lia.
    + simpl. ring.
Qed.

(** The first tick of a first session 80 ms after its start, and a tick
    53 ms after it; three ticks of the 66.7 ms clock. *)
Lemma frame_accepted_iff_in_band_witness :
  let s := stabilized 0 (clearTimer 1 (startRecording initial)) in
  (exists s' c',
      step s (Fires 2 80 (Some "f"%string)) = Some s'
      /\ lookup 2 (timers s') = Some (FrameCollector c')
      /\ c' = {| frames := ["f"%string]; startTime := 0; lastFrameTime := 80 |}
      /\ frameTimestampsRef s' = [80])
  /\ (exists s' c',
         step s (Fires 2 53 (Some "f"%string)) = Some s'
         /\ lookup 2 (timers s') = Some (FrameCollector c')
         /\ c' = fresh 0
         /\ frameTimestampsRef s' = [])
  /\ (exists s1 c1,
         run s (sampling 2 (clock 0 66.7 0 [Some "a"%string; Some "b"%string;
                                            Some "c"%string]))
         = Some s1
         /\ lookup 2 (timers s1) = Some (FrameCollector c1)
         /\ length (frames c1) = 3%nat).
Proof.
  intros s.
  assert (lookup 2 (timers s) = Some (FrameCollector (fresh 0))) as L
      by reflexivity.
  split; [| split].
  - destruct (proj1 (frame_accepted_iff_in_band s 2 (fresh 0) 80 (Some "f"%string) L))
      as (s' & c' & St & Run & _ & Acc & _).
    exists s', c'. split; [exact St |]. split; [apply Run; reflexivity |].
    destruct Acc as (f & E & Ec & Et); [split; reflexivity |].
    injection E as <-. split; [exact Ec | exact Et].
  - destruct (proj1 (frame_accepted_iff_in_band s 2 (fresh 0) 53 (Some "f"%string) L))
      as (s' & c' & St & Run & _ & _ & Rej).
    exists s', c'. split; [exact St |]. split; [apply Run; reflexivity |].
    apply Rej. intros [_ B]. vm_compute in B. discriminate.
  - apply (proj2 (proj2 (proj2 (proj2 (proj2 (proj2 (proj2
             (frame_accepted_iff_in_band s 2 (fresh 0) 80 None L))))))) 0
             [Some "a"%string; Some "b"%string; Some "c"%string] s).
    + reflexivity.
    + exact L.
    + repeat constructor.
    + simpl. lia.
Defined.

(** A whole session on the 66.7 ms clock: the 45th tick, at 3001.5 ms,
    ends it and delivers 45 frames. *)
Example steady_clock_session :
  exists s s',
    recordingFromZero = Some s
    /\ run s (sampling 7 (clock 0 66.7 0 (repeat (Some "f"%string) 45))) = Some s'
    /\ map (@length Frame) (captured s') = [45%nat]
    /\ collectors s' = [].
Proof.
  eexists. eexists. split; [vm_compute; reflexivity |].
  split; [vm_compute; reflexivity |]. split; reflexivity.
Qed.

(** X14. During a session [frameTimestampsRef] holds one time for
    every frame collected, and each of these times passes the test of the
    tolerance band against the one before it, the first against the
    start of the session: two frames in a row are more than 53 1/3 ms and
    at most 80 ms apart, 54 ms to 80 ms on times in whole
    milliseconds. *)
Theorem accepted_frames_are_paced
    (h : Handle) (start : Q) (ticks : list (Q * option Frame)) (s s' : State) :
  frameCollectorRef s = Some h ->
  lookup h (timers s) = Some (FrameCollector (fresh start)) ->
  frameTimestampsRef s = [] ->
  run s (sampling h ticks) = Some s' ->
  paced start (frameTimestampsRef s')
  /\ length (frameTimestampsRef s')
     = length (frames (fst (record ticks (fresh start))))
  /\ (forall gap : Q, inBand gap = true -> (160 # 3) < gap /\ gap <= 80)
  /\ (forall ms : Z, inBand (inject_Z ms) = true <-> (54 <= ms <= 80)%Z)
  /\ (forall ms : Z, inBand (inject_Z ms) = inBandDouble (inject_Z ms)).
Proof.
  intros R L E Run.
  rewrite <- and_assoc. split.
  - apply (run_session_paced h ticks (fresh start) s s'); trivial;
      rewrite E; cbn; auto.
  - split; [| split; [exact inBand_whole | exact inBand_whole_ms]].
    intros gap B. apply inBand_iff in B. split; lra.
Qed.

(** *** The progress *)

Lemma progressOf_le (e : Q) : progressOf e <= 100.
Proof. apply Q.le_min_r. Qed.

Lemma collect_progress (h : Handle) (t : Q) (shot : option Frame)
    (c : Closure) (s : State) :
  (recordingProgress (collect h t shot c s) = progressOf (t - startTime c)
   \/ recordingProgress (collect h t shot c s) = 0)
  /\ (progressLog (collect h t shot c s)
      = progressLog s ++ [progressOf (t - startTime c)]
      \/ progressLog (collect h t shot c s)
         = progressLog s ++ [progressOf (t - startTime c); 0]).
Proof.
  unfold collect.
  destruct (accepts t shot c), (expired t c); cbn; auto;
    destruct (frameCollectorRef s); cbn; rewrite <- app_assoc; auto.
Qed.

Lemma step_progress (s s' : State) (e : Event) :
  recordingProgress s <= 100 -> Forall (fun p => p <= 100) (progressLog s) ->
  step s e = Some s' ->
  recordingProgress s' <= 100 /\ Forall (fun p => p <= 100) (progressLog s').
Proof.
  intros B F S. destruct e as [disabled | | message | h now shot]; cbn [step] in S.
  - destruct (tryDisabled disabled s); [discriminate |]. injection S as <-.
    destruct (commit_keeps s (handleTry s)) as (_ & _ & P & Rp & _).
    rewrite P, Rp. now split.
  - destruct (cancelShown s); [| discriminate]. injection S as <-.
    destruct (commit_keeps s (handleCancel s)) as (_ & _ & P & Rp & _).
    rewrite P, Rp. unfold handleCancel.
    change (frameCollectorRef (setCountdown 0 (setIsCountingDown false s)))
      with (frameCollectorRef s).
    destruct (frameCollectorRef s); cbn; [| now split].
    split; [discriminate |]. apply Forall_app. split; [exact F |].
    repeat constructor. discriminate.
  - injection S as <-. now split.
  - unfold fires in S.
    destruct (lookup h (timers s)) as [[n | | c] |]; [| | | discriminate];
      injection S as <-;
      match goal with |- context [commit ?o ?n] =>
        destruct (commit_keeps o n) as (_ & _ & P & Rp & _) end;
      rewrite P, Rp; try (now split).
    destruct (collect_progress h now shot c s) as [[-> | ->] [-> | ->]];
      (split; [try apply progressOf_le; try discriminate |]);
      apply Forall_app; (split; [exact F |]);
      repeat constructor; try apply progressOf_le; discriminate.
Qed.

(** X15. The progress never exceeds 100, in the state and in any call
    of [setRecordingProgress], whatever the clock does. *)
Theorem progress_never_exceeds_100 (es : list Event) :
  forall s s' : State,
    recordingProgress s <= 100 -> Forall (fun p => p <= 100) (progressLog s) ->
    run s es = Some s' ->
    recordingProgress s' <= 100 /\ Forall (fun p => p <= 100) (progressLog s').
Proof.
  induction es as [| e es IH]; intros s s' B F R; cbn [run] in R.
  - injection R as <-. now split.
  - destruct (step s e) as [s1 |] eqn:S; [| discriminate].
    destruct (step_progress s s1 e B F S) as [B1 F1]. exact (IH s1 s' B1 F1 R).
Qed.

(** *** The end of a session *)

(** X16. The first tick of a session that finds the duration elapsed
    calls [onCapture] once, with the frames collected up to and with that
    tick, lowers [isRecording] and clears the interval: no later tick of
    this interval can happen. *)
Theorem session_delivers_once
    (h : Handle) (ticks : list (Q * option Frame)) (t : Q) (shot : option Frame)
    (c : Closure) (s : State) :
  frameCollectorRef s = Some h ->
  lookup h (timers s) = Some (FrameCollector c) ->
  snd (record ticks c) = false ->
  expired t c = true ->
  exists s',
    run s (sampling h (ticks ++ [(t, shot)])) = Some s'
    /\ captured s' = captured s ++ [frames (fst (record (ticks ++ [(t, shot)]) c))]
    /\ isRecording s' = false
    /\ forall later shot', step s' (Fires h later shot') = None.
Proof.
  intros R L D X.
  destruct (run_session_expired h ticks t shot c s R L D X)
    as (s' & Run & Ca & Gone & Rec).
  exists s'. split; [exact Run |]. split; [exact Ca |]. split; [exact Rec |].
  intros later shot'. cbn [step]. unfold fires. now rewrite Gone.
Qed.

(** Three ticks 80 ms apart after the stabilization at time 0. *)
Lemma accepted_frames_are_paced_witness :
  let s := stabilized 0 (clearTimer 1 (startRecording initial)) in
  let ticks := clock 0 80 0 (repeat (Some "f"%string) 3) in
  exists s',
    run s (sampling 2 ticks) = Some s'
    /\ frameTimestampsRef s' = [0 + inject_Z 1 * 80; 0 + inject_Z 2 * 80;
                                0 + inject_Z 3 * 80]
    /\ paced 0 (frameTimestampsRef s')
    /\ length (frameTimestampsRef s') = length (frames (fst (record ticks (fresh 0)))).
Proof.
  intros s ticks. eexists.
  split; [vm_compute; reflexivity |]. split; [reflexivity |].
  destruct (accepted_frames_are_paced 2 0 ticks s _ eq_refl eq_refl eq_refl eq_refl)
    as (P & Len & _).
  split; [exact P | exact Len].
Defined.

Lemma progress_never_exceeds_100_witness :
  exists s,
    run initial (tryAndCountDown
                   ++ [Fires 6 0 None; Fires 7 60 (Some "f"%string);
                       Fires 7 3060 (Some "g"%string)])
    = Some s
    /\ recordingProgress s <= 100
    /\ Forall (fun p => p <= 100) (progressLog s).
Proof.
  eexists. split; [vm_compute; reflexivity |].
  apply (progress_never_exceeds_100
           (tryAndCountDown
              ++ [Fires 6 0 None; Fires 7 60 (Some "f"%string);
                  Fires 7 3060 (Some "g"%string)])
           initial).
  - discriminate.
  - constructor.
  - vm_compute. reflexivity.
Defined.

(** A session of 49 ticks 60 ms apart and the tick at 3000 ms. *)
Lemma session_delivers_once_witness :
  let s := stabilized 0 (clearTimer 1 (startRecording initial)) in
  let ticks := clock 0 60 0 (repeat (Some "f"%string) 49) in
  exists s',
    run s (sampling 2 (ticks ++ [(3000, Some "f"%string)])) = Some s'
    /\ captured s'
       = captured s
           ++ [frames (fst (record (ticks ++ [(3000, Some "f"%string)]) (fresh 0)))]
    /\ isRecording s' = false
    /\ forall later shot', step s' (Fires 2 later shot') = None.
Proof.
  intros s ticks.
  apply (session_delivers_once 2 ticks 3000 (Some "f"%string) (fresh 0) s).
  - reflexivity.
  - reflexivity.
  - vm_compute. reflexivity.
  - reflexivity.
Defined.



(** *** A first session from the click to the delivery *)

Lemma run_append (es1 es2 : list Event) :
  forall s : State,
    run s (es1 ++ es2)
    = match run s es1 with
      | Some s1 => run s1 es2
      | None => None
      end.
Proof.
  induction es1 as [| e es1 IH]; intros s; [reflexivity |].
  cbn [app run]. destruct (step s e); [apply IH | reflexivity].
Qed.

(** A tick of the only timer of the page. *)
Lemma collect_alone (h : Handle) (t : Q) (shot : option Frame) (c : Closure)
    (s : State) :
  timers s = [(h, FrameCollector c)] ->
  frameCollectorRef s = Some h ->
  timers (collect h t shot c s)
  = (if expired t c then [] else [(h, FrameCollector (sample t shot c))])
  /\ isCountingDown (collect h t shot c s) = isCountingDown s.
Proof.
  intros T R. unfold collect.
  destruct (accepts t shot c), (expired t c); cbn; rewrite ?R; cbn;
    rewrite T; unfold store, clear; cbn; rewrite ?Pos.eqb_refl; cbn;
    rewrite ?Pos.eqb_refl; cbn; split; reflexivity.
Qed.

Lemma run_session_alone (h : Handle) (ticks : list (Q * option Frame))
    (t : Q) (shot : option Frame) :
  forall (c : Closure) (s : State),
    timers s = [(h, FrameCollector c)] ->
    frameCollectorRef s = Some h ->
    snd (record ticks c) = false ->
    expired t c = true ->
    exists s',
      run s (sampling h (ticks ++ [(t, shot)])) = Some s'
      /\ captured s' = captured s ++ [frames (fst (record (ticks ++ [(t, shot)]) c))]
      /\ timers s' = []
      /\ isRecording s' = false
      /\ isCountingDown s' = isCountingDown s.
Proof.
  induction ticks as [| [u shot'] rest IH]; intros c s T R D X.
  - assert (lookup h (timers s) = Some (FrameCollector c)) as L
        by (rewrite T; cbn; now rewrite Pos.eqb_refl).
    cbn [app sampling map run record fst snd].
    rewrite (step_collector h t shot c s L), X.
    destruct (collect_expired h t shot c s R X) as (_ & C1 & I1 & _).
    destruct (collect_alone h t shot c s T R) as [T1 Cd]. rewrite X in T1.
    exists (collect h t shot c s). auto.
  - assert (lookup h (timers s) = Some (FrameCollector c)) as L
        by (rewrite T; cbn; now rewrite Pos.eqb_refl).
    cbn [record] in D. cbn [app sampling map run record fst snd].
    rewrite (step_collector h u shot' c s L).
    destruct (expired u c) eqn:Xu; [discriminate |].
    destruct (collect_running h u shot' c s L Xu) as (_ & R1 & C1 & _).
    destruct (collect_alone h u shot' c s T R) as [T1 Cd]. rewrite Xu in T1.
    destruct (IH (sample u shot' c) (collect h u shot' c s))
      as (s' & Run & C' & T' & I' & Cd'); trivial; [congruence | |].
    + now rewrite expired_sample.
    + exists s'. split; [exact Run |]. split; [now rewrite C', C1 |].
      split; [exact T' |]. split; [exact I' | congruence].
Qed.

(** X17. A first session, from the click on Try through the five
    ticks of the countdown and the stabilization delay to the first tick
    that finds the duration elapsed: whatever the ticks before that one
    are, [onCapture] is called exactly once, with the frames of the
    session, at most 57 of them, and the component is idle again, with
    no timer left. *)
Theorem first_session_delivers_once_and_ends_idle
    (start t : Q) (shot : option Frame) (ticks : list (Q * option Frame)) :
  snd (record ticks (fresh start)) = false ->
  expired t (fresh start) = true ->
  exists s',
    run initial (tryAndCountDown
                   ++ Fires 6 start None :: sampling 7 (ticks ++ [(t, shot)]))
    = Some s'
    /\ captured s' = [frames (fst (record (ticks ++ [(t, shot)]) (fresh start)))]
    /\ (length (frames (fst (record (ticks ++ [(t, shot)]) (fresh start)))) <= 57)%nat
    /\ idle s' = true.
Proof.
  intros D X.
  set (s7 := stabilized start
               (clearTimer 6 {| error := None; countdown := 0; isCountingDown := false;
                                isRecording := true; recordingProgress := 0;
                                frameCollectorRef := None; frameTimestampsRef := [];
                                effectTimer := None;
                                timers := [(6%positive, StabilizationTimeout)];
                                nextHandle := 7%positive;
                                progressLog := []; captured := [] |})).
  assert (run initial (tryAndCountDown ++ [Fires 6 start None]) = Some s7) as P
      by reflexivity.
  destruct (run_session_alone 7 ticks t shot (fresh start) s7)
    as (s' & Run & Ca & T & Rec & Cd); trivial.
  exists s'.
  change (tryAndCountDown ++ Fires 6 start None :: sampling 7 (ticks ++ [(t, shot)]))
    with (tryAndCountDown ++ [Fires 6 start None] ++ sampling 7 (ticks ++ [(t, shot)])).
  rewrite app_assoc, run_append, P. split; [exact Run |].
  split; [exact Ca |]. split.
  - apply record_bound; cbn [fresh frames lastFrameTime startTime length];
      change (inject_Z (Z.of_nat 0)) with 0; lra.
  - unfold idle. rewrite T, Rec, Cd. reflexivity.
Qed.

(** Ticks 60 ms apart up to 3000 ms. *)
Lemma first_session_delivers_once_and_ends_idle_witness :
  exists s',
    run initial (tryAndCountDown
                   ++ Fires 6 0 None
                   :: sampling 7 (clock 0 60 0 (repeat (Some "f"%string) 49)
                                    ++ [(3000, Some "f"%string)]))
    = Some s'
    /\ captured s'
       = [frames (fst (record (clock 0 60 0 (repeat (Some "f"%string) 49)
                                 ++ [(3000, Some "f"%string)]) (fresh 0)))]
    /\ Nat.le (length (frames (fst (record (clock 0 60 0 (repeat (Some "f"%string) 49)
                                              ++ [(3000, Some "f"%string)])
                                           (fresh 0)))))
              57
    /\ idle s' = true.
Proof.
  apply (first_session_delivers_once_and_ends_idle
           0 3000 (Some "f"%string) (clock 0 60 0 (repeat (Some "f"%string) 49))).
  - vm_compute. reflexivity.
  - reflexivity.
Defined.

End WebcamFieldFacts.
